(** * proxy-browser: the [/p/:target] relay and its HTML rewriter

    A shallow embedding of the Pages Function [onRequest] with its helpers
    [corsHeaders], [applyCors], [htmlRewriter] and [rewriteStyleUrls].

    Strings are byte strings ([string], the UTF-8 form of the JavaScript
    text).  The JavaScript built-ins the function calls are embedded next
    to it: the string methods, the two URI component functions and the
    UTF-8 decoder of [text()] are written out, the [Headers] class follows
    the Fetch standard (header lists, the normalisation and the validation
    of [set], the sorted and combined entries of the iterator), and the
    capabilities of the hosting runtime (URL parsing, [fetch]) are the
    fields of a [Runtime] record every definition takes as an argument.
    The handler runs in a small monad that records the [fetch] calls and
    carries thrown errors, so that what leaves a [try] block and what does
    not is visible in the result.

    Outside the model: the checks the runtime applies to the status and
    the status text handed to [new Response], and the parsing of markup
    into elements, which the rewriter receives as events. *)

From Stdlib Require Import String Ascii List Bool Arith Lia.
Import ListNotations.
Local Open Scope list_scope.
Local Open Scope string_scope.

(** ** JavaScript string methods *)

Module JS.

(** [String.prototype.toLowerCase], on the ASCII letters. *)
Definition lowerChar (c : ascii) : ascii :=
  let n := nat_of_ascii c in
  if ((65 <=? n) && (n <=? 90))%nat then ascii_of_nat (n + 32) else c.

Fixpoint toLowerCase (s : string) : string :=
  match s with
  | EmptyString => EmptyString
  | String c t => String (lowerChar c) (toLowerCase t)
  end.

(** [String.prototype.toUpperCase], on the ASCII letters. *)
Definition upperChar (c : ascii) : ascii :=
  let n := nat_of_ascii c in
  if ((97 <=? n) && (n <=? 122))%nat then ascii_of_nat (n - 32) else c.

Fixpoint toUpperCase (s : string) : string :=
  match s with
  | EmptyString => EmptyString
  | String c t => String (upperChar c) (toUpperCase t)
  end.

(** [s.startsWith(p)]. *)
Definition startsWith (s p : string) : bool := String.prefix p s.

(** [s.includes(p)]. *)
Fixpoint includes (s p : string) : bool :=
  String.prefix p s ||
  match s with
  | EmptyString => false
  | String _ t => includes t p
  end.

(** [Array.prototype.includes] on an array of strings. *)
Definition arrayIncludes (l : list string) (x : string) : bool :=
  existsb (String.eqb x) l.

(** The white space and the line terminators [String.prototype.trim]
    removes (ECMAScript 12.2, 12.3).  The ASCII ones: TAB, LF, VT, FF, CR,
    SPACE. *)
Definition isSpace (c : ascii) : bool :=
  let n := nat_of_ascii c in
  (((9 <=? n) && (n <=? 13)) || (n =? 32))%nat.

(** U+00A0, in UTF-8. *)
Definition isSpace2 (b1 b2 : ascii) : bool :=
  ((nat_of_ascii b1 =? 194) && (nat_of_ascii b2 =? 160))%nat.

(** U+1680, U+2000 to U+200A, U+2028, U+2029, U+202F, U+205F, U+3000 and
    U+FEFF, in UTF-8. *)
Definition isSpace3 (b1 b2 b3 : ascii) : bool :=
  let n1 := nat_of_ascii b1 in
  let n2 := nat_of_ascii b2 in
  let n3 := nat_of_ascii b3 in
  (((n1 =? 225) && (n2 =? 154) && (n3 =? 128)) ||
   ((n1 =? 226) && (n2 =? 128) &&
    (((128 <=? n3) && (n3 <=? 138)) || (n3 =? 168) || (n3 =? 169) || (n3 =? 175))) ||
   ((n1 =? 226) && (n2 =? 129) && (n3 =? 159)) ||
   ((n1 =? 227) && (n2 =? 128) && (n3 =? 128)) ||
   ((n1 =? 239) && (n2 =? 187) && (n3 =? 191)))%nat.

Fixpoint trimStart (s : string) : string :=
  match s with
  | EmptyString => EmptyString
  | String b1 t1 =>
      if isSpace b1 then trimStart t1
      else
        match t1 with
        | String b2 t2 =>
            if isSpace2 b1 b2 then trimStart t2
            else
              match t2 with
              | String b3 t3 => if isSpace3 b1 b2 b3 then trimStart t3 else s
              | EmptyString => s
              end
        | EmptyString => s
        end
  end.

(** Nothing but white space. *)
Definition blank (s : string) : bool :=
  match trimStart s with EmptyString => true | _ => false end.

(** The text up to the white space it ends with. *)
Fixpoint trimEnd (s : string) : string :=
  match s with
  | EmptyString => EmptyString
  | String c t => if blank s then EmptyString else String c (trimEnd t)
  end.

Definition trim (s : string) : string := trimEnd (trimStart s).

(** JavaScript truthiness of a string: [!s] holds for the empty string. *)
Definition truthy (s : string) : bool :=
  match s with EmptyString => false | _ => true end.

(** [a || b] on strings. *)
Definition orElse (a b : string) : string := if truthy a then a else b.

(** The line feed of a template literal. *)
Definition LF : string := String (ascii_of_nat 10) EmptyString.

End JS.

(** ** The UTF-8 decoder of [text()] (Encoding standard, 4.1 and 8.1.1)

    The octets of a body become text: one byte order mark at the start is
    dropped, and every maximal ill-formed run of octets becomes U+FFFD.  In
    the UTF-8 form of the text the well-formed sequences are kept as they
    are. *)

Module Utf8.

(** U+FFFD, in UTF-8. *)
Definition replacement : string :=
  String (ascii_of_nat 239) (String (ascii_of_nat 191) (String (ascii_of_nat 189) EmptyString)).

(** The decoder reads [s] with [needed] continuation octets to come, the
    next of which lies between [lower] and [upper]; [seen] holds the octets
    of the sequence read so far.  An octet that does not continue the
    sequence is read again as the start of another one. *)
Fixpoint decodeFrom (s : string) (needed lower upper : nat) (seen : string) : string :=
  match s with
  | EmptyString => match needed with O => EmptyString | S _ => replacement end
  | String b t =>
      let n := nat_of_ascii b in
      let start :=
        if (n <=? 127)%nat then String b (decodeFrom t 0 128 191 EmptyString)
        else if ((194 <=? n) && (n <=? 223))%nat
        then decodeFrom t 1 128 191 (String b EmptyString)
        else if ((224 <=? n) && (n <=? 239))%nat
        then decodeFrom t 2 (if (n =? 224)%nat then 160 else 128)
               (if (n =? 237)%nat then 159 else 191) (String b EmptyString)
        else if ((240 <=? n) && (n <=? 244))%nat
        then decodeFrom t 3 (if (n =? 240)%nat then 144 else 128)
               (if (n =? 244)%nat then 143 else 191) (String b EmptyString)
        else replacement ++ decodeFrom t 0 128 191 EmptyString in
      match needed with
      | O => start
      | S k =>
          if ((lower <=? n) && (n <=? upper))%nat then
            match k with
            | O => seen ++ String b (decodeFrom t 0 128 191 EmptyString)
            | S _ => decodeFrom t k 128 191 (seen ++ String b EmptyString)
            end
          else replacement ++ start
      end
  end.

Definition dropMark (s : string) : string :=
  match s with
  | String b1 (String b2 (String b3 t)) =>
      if ((nat_of_ascii b1 =? 239) && (nat_of_ascii b2 =? 187) &&
          (nat_of_ascii b3 =? 191))%nat then t else s
  | _ => s
  end.

(** UTF-8 decode. *)
Definition decode (octets : string) : string :=
  decodeFrom (dropMark octets) 0 128 191 EmptyString.

End Utf8.
(** ** [encodeURIComponent] and [decodeURIComponent] (ECMAScript 19.2.6) *)

Module URI.

Definition isAlnum (c : ascii) : bool :=
  let n := nat_of_ascii c in
  (((48 <=? n) && (n <=? 57)) || ((65 <=? n) && (n <=? 90)) ||
   ((97 <=? n) && (n <=? 122)))%nat.

(** The characters [encodeURIComponent] keeps: alphanumerics and
    [- _ . ! ~ * ' ( )]. *)
Definition isUnreserved (c : ascii) : bool :=
  isAlnum c ||
  existsb (Ascii.eqb c) ["-"; "_"; "."; "!"; "~"; "*"; "'"; "("; ")"]%char.

Definition hexDigit (n : nat) : ascii :=
  if (n <? 10)%nat then ascii_of_nat (48 + n) else ascii_of_nat (55 + n).

Definition hexVal (c : ascii) : option nat :=
  let n := nat_of_ascii c in
  if ((48 <=? n) && (n <=? 57))%nat then Some (n - 48)
  else if ((65 <=? n) && (n <=? 70))%nat then Some (n - 55)
  else if ((97 <=? n) && (n <=? 102))%nat then Some (n - 87)
  else None.

(** [%XX] with upper-case hexadecimal digits. *)
Definition escape (c : ascii) : string :=
  let n := nat_of_ascii c in
  String "%" (String (hexDigit (n / 16)) (String (hexDigit (n mod 16)) EmptyString)).

(** Number of leading 1 bits of an octet, capped at 5. *)
Definition leadingOnes (c : ascii) : nat :=
  let n := nat_of_ascii c in
  (if n <? 128 then 0 else if n <? 192 then 1 else if n <? 224 then 2
   else if n <? 240 then 3 else if n <? 248 then 4 else 5)%nat.

Definition inRange (lo hi : nat) (c : ascii) : bool :=
  let n := nat_of_ascii c in ((lo <=? n) && (n <=? hi))%nat.

Definition isCont : ascii -> bool := inRange 128 191.

(** Well-formed UTF-8 sequences of two, three and four octets (Unicode,
    table 3-7): no overlong forms, no surrogates, nothing above U+10FFFF. *)
Definition valid2 (b1 b2 : ascii) : bool :=
  inRange 194 223 b1 && isCont b2.

Definition valid3 (b1 b2 b3 : ascii) : bool :=
  ((inRange 224 224 b1 && inRange 160 191 b2) ||
   (inRange 225 236 b1 && isCont b2) ||
   (inRange 237 237 b1 && inRange 128 159 b2) ||
   (inRange 238 239 b1 && isCont b2)) && isCont b3.

Definition valid4 (b1 b2 b3 b4 : ascii) : bool :=
  ((inRange 240 240 b1 && inRange 144 191 b2) ||
   (inRange 241 243 b1 && isCont b2) ||
   (inRange 244 244 b1 && inRange 128 143 b2)) && isCont b3 && isCont b4.

(** A string is well-formed text when it is a sequence of ASCII octets and
    well-formed multi-octet sequences.  [encodeURIComponent] raises
    [URIError] on text with an unpaired surrogate, which is the text that
    has no well-formed UTF-8 form. *)
Fixpoint wellFormed (s : string) : bool :=
  match s with
  | EmptyString => true
  | String b1 t1 =>
      match leadingOnes b1 with
      | 0 => wellFormed t1
      | 2 =>
          match t1 with
          | String b2 t2 => valid2 b1 b2 && wellFormed t2
          | _ => false
          end
      | 3 =>
          match t1 with
          | String b2 (String b3 t3) => valid3 b1 b2 b3 && wellFormed t3
          | _ => false
          end
      | 4 =>
          match t1 with
          | String b2 (String b3 (String b4 t4)) =>
              valid4 b1 b2 b3 b4 && wellFormed t4
          | _ => false
          end
      | _ => false
      end
  end.

Definition encodeOctet (c : ascii) : string :=
  if isUnreserved c then String c EmptyString else escape c.

Fixpoint encodeOctets (s : string) : string :=
  match s with
  | EmptyString => EmptyString
  | String c t => encodeOctet c ++ encodeOctets t
  end.

(** [encodeURIComponent(s)]; [None] stands for the [URIError]. *)
Definition encodeURIComponent (s : string) : option string :=
  if wellFormed s then Some (encodeOctets s) else None.

(** The units [decodeURIComponent] reads: a code unit taken as it is, or
    the octet of a [%XX] escape. *)
Inductive CodeUnit : Type :=
| Lit (c : ascii)
| Esc (c : ascii).

(** Step 4.c.i-iv of Decode: a [%] must be followed by two hexadecimal
    digits. *)
Fixpoint unescape (s : string) : option (list CodeUnit) :=
  match s with
  | EmptyString => Some []
  | String c t =>
      if Ascii.eqb c "%" then
        match t with
        | String h (String l t') =>
            match hexVal h, hexVal l, unescape t' with
            | Some a, Some b, Some r => Some (Esc (ascii_of_nat (16 * a + b)) :: r)
            | _, _, _ => None
            end
        | _ => None
        end
      else
        match unescape t with
        | Some r => Some (Lit c :: r)
        | None => None
        end
  end.

(** Step 4.c.vi-viii of Decode: an escaped octet with [n] leading 1 bits
    opens a sequence of [n] escaped octets that must be well-formed UTF-8. *)
Fixpoint assemble (us : list CodeUnit) : option string :=
  match us with
  | [] => Some EmptyString
  | Lit c :: r => option_map (String c) (assemble r)
  | Esc b1 :: r1 =>
      match leadingOnes b1 with
      | 0 => option_map (String b1) (assemble r1)
      | 2 =>
          match r1 with
          | Esc b2 :: r2 =>
              if valid2 b1 b2
              then option_map (fun s => String b1 (String b2 s)) (assemble r2)
              else None
          | _ => None
          end
      | 3 =>
          match r1 with
          | Esc b2 :: Esc b3 :: r3 =>
              if valid3 b1 b2 b3
              then option_map (fun s => String b1 (String b2 (String b3 s)))
                     (assemble r3)
              else None
          | _ => None
          end
      | 4 =>
          match r1 with
          | Esc b2 :: Esc b3 :: Esc b4 :: r4 =>
              if valid4 b1 b2 b3 b4
              then option_map
                     (fun s => String b1 (String b2 (String b3 (String b4 s))))
                     (assemble r4)
              else None
          | _ => None
          end
      | _ => None
      end
  end.

(** [decodeURIComponent(s)]; [None] stands for the [URIError]. *)
Definition decodeURIComponent (s : string) : option string :=
  match unescape s with
  | Some us => assemble us
  | None => None
  end.

End URI.

(** ** Thrown errors *)

(** A thrown JavaScript error. *)
Record Exn : Type := mkExn { exn_name : string; exn_message : string }.

Inductive Completion (A : Type) : Type :=
| Normal (a : A)
| Thrown (e : Exn).
Arguments Normal {A} a.
Arguments Thrown {A} e.

(** One statement after the other: a throw ends the sequence. *)
Definition andThen {A B} (c : Completion A) (k : A -> Completion B) : Completion B :=
  match c with
  | Normal a => k a
  | Thrown e => Thrown e
  end.

Declare Scope completion_scope.
Delimit Scope completion_scope with completion.
Notation "x <- c ;; k" := (andThen c (fun x => k))
  (at level 61, c at next level, right associativity) : completion_scope.

(** ** The [Headers] class (Fetch standard, 2.2.2 and 5.1)

    A header list keeps its entries in order; names are compared
    byte-case-insensitively. *)

Module Headers.

Definition t : Type := list (string * string).

Definition sameName (a b : string) : bool :=
  String.eqb (JS.toLowerCase a) (JS.toLowerCase b).

Definition isNamed (name : string) (e : string * string) : bool :=
  sameName (fst e) name.

(** [new Headers()]. *)
Definition empty : t := [].

(** [h.has(name)], for a name that is a token (the function calls it with
    literal names). *)
Definition has (h : t) (name : string) : bool := existsb (isNamed name) h.

(** [h.get(name)]: the values of the entries of that name, joined by a
    comma and a space; [None] is JavaScript's [null]. *)
Definition get (h : t) (name : string) : option string :=
  match map snd (filter (isNamed name) h) with
  | [] => None
  | vs => Some (String.concat ", " vs)
  end.

(** [h.delete(name)]. *)
Definition delete (h : t) (name : string) : t :=
  filter (fun e => negb (isNamed name e)) h.

(** To set a header in a header list: the first entry of that name takes
    the value and the other ones are removed; without such an entry one is
    appended. *)
Fixpoint update (h : t) (name value : string) : t :=
  match h with
  | [] => [(name, value)]
  | (k, v) :: r =>
      if sameName k name then (k, value) :: delete r name
      else (k, v) :: update r name value
  end.

(** HTTP whitespace: TAB, LF, CR, SPACE. *)
Definition isWhitespace (c : ascii) : bool :=
  let n := nat_of_ascii c in
  ((n =? 9) || (n =? 10) || (n =? 13) || (n =? 32))%nat.

Fixpoint stripStart (s : string) : string :=
  match s with
  | EmptyString => EmptyString
  | String c t => if isWhitespace c then stripStart t else s
  end.

Definition blank (s : string) : bool :=
  match stripStart s with EmptyString => true | _ => false end.

Fixpoint stripEnd (s : string) : string :=
  match s with
  | EmptyString => EmptyString
  | String c t => if blank s then EmptyString else String c (stripEnd t)
  end.

(** To normalize a value: the HTTP whitespace it starts and ends with is
    removed. *)
Definition normalize (value : string) : string := stripEnd (stripStart value).

(** The characters of a token (RFC 9110, 5.6.2). *)
Definition isTokenChar (c : ascii) : bool :=
  URI.isAlnum c ||
  existsb (Ascii.eqb c)
    ["!"; "#"; "$"; "%"; "&"; "'"; "*"; "+"; "-"; "."; "^"; "_"; "`"; "|"; "~"]%char.

(** A header name is a token. *)
Definition isName (name : string) : bool :=
  JS.truthy name && forallb isTokenChar (list_ascii_of_string name).

(** NUL, LF and CR. *)
Definition isBreak (c : ascii) : bool :=
  let n := nat_of_ascii c in ((n =? 0) || (n =? 10) || (n =? 13))%nat.

(** A header value holds no NUL, LF or CR and neither starts nor ends with
    HTTP whitespace. *)
Definition isValue (value : string) : bool :=
  forallb (fun c => negb (isBreak c)) (list_ascii_of_string value) &&
  String.eqb (normalize value) value.

(** The [TypeError] of a name or a value the class refuses; its message is
    the runtime's. *)
Definition invalidName : Exn := mkExn "TypeError" "Invalid header name.".

Definition invalidValue : Exn := mkExn "TypeError" "Invalid header value.".

(** [h.set(name, value)]: the value is normalized, then the name and the
    value are validated, then the header is set in the list.  A value with
    characters above U+00FF is taken in its UTF-8 form, as the hosting
    runtime does. *)
Definition set (h : t) (name value : string) : Completion t :=
  let value := normalize value in
  if negb (isName name) then Thrown invalidName
  else if negb (isValue value) then Thrown invalidValue
  else Normal (update h name value).

(** Insertion into a list of names in ascending order. *)
Fixpoint insert (x : string) (l : list string) : list string :=
  match l with
  | [] => [x]
  | y :: r => if String.leb x y then x :: l else y :: insert x r
  end.

(** The lower-cased names of a header list, each once, in ascending
    order. *)
Definition sortedNames (h : t) : list string :=
  fold_right insert [] (nodup string_dec (map (fun e => JS.toLowerCase (fst e)) h)).

(** What iterating [h] yields (to sort and combine): for every lower-cased
    name in ascending order one entry with the combined value, and for
    [set-cookie] one entry per value. *)
Definition entries (h : t) : list (string * string) :=
  flat_map
    (fun name =>
       if String.eqb name "set-cookie"
       then map (fun e => (name, snd e)) (filter (isNamed name) h)
       else
         match get h name with
         | Some value => [(name, value)]
         | None => []
         end)
    (sortedNames h).

(** [new Headers(h)] for a [Headers] object [h]: the entries its iterator
    yields are appended to an empty list; they went through the validation
    of the class when [h] took them. *)
Definition copy (h : t) : t := entries h.

End Headers.
(** ** Requests, responses and the runtime *)

(** The URL of the inbound request, as the runtime holds it. *)
Record Url : Type := mkUrl {
  url_scheme : string;
  url_host : string;
  url_port : option string;
  url_path : string
}.

(** [new URL(request.url).origin]: scheme, host and port. *)
Definition origin_of (u : Url) : string :=
  url_scheme u ++ "://" ++ url_host u ++
  match url_port u with Some p => ":" ++ p | None => EmptyString end.

(** The inbound [request]. *)
Record Request : Type := mkRequest {
  req_method : string;
  req_url : Url;
  req_headers : Headers.t;
  req_body : option string
}.

(** The [context] of a Pages Function: the request and [params.target]
    ([None] when the route carries no parameter). *)
Record Context : Type := mkContext {
  ctx_request : Request;
  ctx_target : option string
}.

(** The object built by [new Request(targetUrl, init)]. *)
Record ProxyRequest : Type := mkProxyRequest {
  preq_url : string;
  preq_method : string;
  preq_headers : Headers.t;
  preq_body : option string;
  preq_redirect : string
}.

(** What [fetch] resolves to.  [fr_body] holds the octets of the body
    stream (none for a response without body). *)
Record FetchResponse : Type := mkFetchResponse {
  fr_status : nat;
  fr_statusText : string;
  fr_headers : Headers.t;
  fr_body : string;
  fr_url : string
}.

(** [response.ok]. *)
Definition fr_ok (r : FetchResponse) : bool :=
  ((200 <=? fr_status r) && (fr_status r <=? 299))%nat.

(** [await response.text()]. *)
Definition text (r : FetchResponse) : string := Utf8.decode (fr_body r).

(** The argument of a [fetch] call. *)
Inductive FetchInput : Type :=
| FetchUrl (u : string)
| FetchRequest (r : ProxyRequest).

(** The capabilities of the hosting runtime.
    [URL_parse input base] is [new URL(input, base).href], or the
    [TypeError] the constructor throws; [new Request(input)] parses its
    URL with [URL_parse input None]. *)
Record Runtime : Type := mkRuntime {
  URL_parse : string -> option string -> Completion string;
  fetch : FetchInput -> Completion FetchResponse
}.

(** The body handed to [new Response(body, init)]. *)
Inductive Body : Type :=
| BodyNull
| BodyText (s : string)
| BodyStream (octets : string)
| BodyRewritten (proxyBase baseUrl : string) (octets : string).

(** The [Response] the function returns.  [new Response(body, init)]
    fills its headers from the entries of [init.headers]. *)
Record Response : Type := mkResponse {
  resp_status : nat;
  resp_statusText : string;
  resp_headers : Headers.t;
  resp_body : Body
}.

(** [new Response(text, { status })]: a textual body brings its
    [content-type] (Fetch standard, body extraction). *)
Definition textResponse (text : string) (status : nat) : Response :=
  mkResponse status EmptyString [("content-type", "text/plain;charset=UTF-8")]
    (BodyText text).

(** ** Effects: the [fetch] calls issued so far, and exceptions *)

Definition Trace : Type := list FetchInput.

Definition M (A : Type) : Type := Trace -> Completion A * Trace.

Definition ret {A} (a : A) : M A := fun tr => (Normal a, tr).

Definition throw {A} (e : Exn) : M A := fun tr => (Thrown e, tr).

Definition bind {A B} (m : M A) (k : A -> M B) : M B :=
  fun tr =>
    match m tr with
    | (Normal a, tr') => k a tr'
    | (Thrown e, tr') => (Thrown e, tr')
    end.

(** [try { m } catch (e) { h e }]. *)
Definition tryCatch {A} (m : M A) (h : Exn -> M A) : M A :=
  fun tr =>
    match m tr with
    | (Normal a, tr') => (Normal a, tr')
    | (Thrown e, tr') => h e tr'
    end.

(** A step that fetches nothing. *)
Definition lift {A} (c : Completion A) : M A := fun tr => (c, tr).

(** [await fetch(input)]. *)
Definition doFetch (rt : Runtime) (input : FetchInput) : M FetchResponse :=
  fun tr => (fetch rt input, (tr ++ [input])%list).

Declare Scope js_scope.
Delimit Scope js_scope with js.
Notation "x <- m ;; k" := (bind m (fun x => k))
  (at level 61, m at next level, right associativity) : js_scope.

(** Running a handler from an empty trace. *)
Definition run {A} (m : M A) : Completion A * Trace := m [].

(** A [fetch] of a [Request] object: the upstream is contacted. *)
Definition isUpstreamFetch (i : FetchInput) : bool :=
  match i with FetchRequest _ => true | FetchUrl _ => false end.

(** ** The streaming markup-event interface of [HTMLRewriter]

    The parser hands an element to the handlers as its lower-cased tag
    name and its attributes, with lower-cased names; the handlers read and
    set attributes or remove the element. *)

Record Element : Type := mkElement {
  tagName : string;
  attributes : list (string * string);
  removed : bool
}.

(** [element.getAttribute(name)]; [None] is [null]. *)
Definition getAttribute (e : Element) (name : string) : option string :=
  option_map snd (find (fun a => String.eqb (fst a) name) (attributes e)).

Fixpoint setAttr (l : list (string * string)) (name value : string)
  : list (string * string) :=
  match l with
  | [] => [(name, value)]
  | (k, v) :: r =>
      if String.eqb k name then (k, value) :: r else (k, v) :: setAttr r name value
  end.

(** [element.setAttribute(name, value)]. *)
Definition setAttribute (e : Element) (name value : string) : Element :=
  mkElement (tagName e) (setAttr (attributes e) name value) (removed e).

(** [element.remove()]. *)
Definition remove (e : Element) : Element :=
  mkElement (tagName e) (attributes e) true.

(** The selectors the rewriter registers: a tag with an attribute, any
    element with an attribute, and a tag with an attribute of a given
    value. *)
Inductive Selector : Type :=
| TagAttr (tag attr : string)
| AnyAttr (attr : string)
| TagAttrIs (tag attr value : string).

Definition hasAttribute (e : Element) (name : string) : bool :=
  match getAttribute e name with Some _ => true | None => false end.

(** The attributes whose values a selector compares without regard to
    ASCII case in an HTML document (HTML standard, 4.16.1). *)
Definition caseInsensitiveValues : list string :=
  ["accept"; "accept-charset"; "align"; "alink"; "axis"; "bgcolor"; "charset"; "checked";
   "clear"; "codetype"; "color"; "compact"; "declare"; "defer"; "dir"; "direction";
   "disabled"; "enctype"; "face"; "frame"; "hreflang"; "http-equiv"; "lang"; "language";
   "link"; "media"; "method"; "multiple"; "nohref"; "noresize"; "noshade"; "nowrap";
   "readonly"; "rel"; "rev"; "rules"; "scope"; "scrolling"; "selected"; "shape"; "target";
   "text"; "type"; "valign"; "valuetype"; "vlink"].

(** The value [v] of the attribute [attr] against the value of a
    selector. *)
Definition valueMatches (attr v value : string) : bool :=
  if JS.arrayIncludes caseInsensitiveValues attr
  then String.eqb (JS.toLowerCase v) (JS.toLowerCase value)
  else String.eqb v value.

Definition matches (sel : Selector) (e : Element) : bool :=
  match sel with
  | TagAttr tag attr => String.eqb (tagName e) tag && hasAttribute e attr
  | AnyAttr attr => hasAttribute e attr
  | TagAttrIs tag attr value =>
      String.eqb (tagName e) tag &&
      match getAttribute e attr with
      | Some v => valueMatches attr v value
      | None => false
      end
  end.

(** A comma-separated selector list. *)
Definition matchesAny (sels : list Selector) (e : Element) : bool :=
  existsb (fun sel => matches sel e) sels.

(** One registration [.on(selectors, { element })]. *)
Definition Registration : Type := (list Selector * (Element -> Element))%type.

(** The element handlers whose selector matches the parsed element run in
    the order of their registration. *)
Definition runHandlers (regs : list Registration) (e : Element) : Element :=
  fold_left (fun cur reg => if matchesAny (fst reg) e then snd reg cur else cur) regs e.

(** A markup event: the start tag of an element, or anything else of the
    document (text, end tags, comments), kept as its source octets. *)
Inductive Token : Type :=
| StartTag (e : Element)
| Other (raw : string).

(** [rewriter.transform(...)] on the event sequence of a document. *)
Definition transformTokens (regs : list Registration) (doc : list Token) : list Token :=
  flat_map
    (fun t =>
       match t with
       | StartTag e =>
           let e' := runHandlers regs e in
           if removed e' then [] else [StartTag e']
       | Other raw => [Other raw]
       end) doc.

(** ** [rewriteStyleUrls] *)

(** A run of characters other than the closing parenthesis, then that
    parenthesis: the run up to the first one, and what follows it. *)
Fixpoint untilClose (s : string) : option (string * string) :=
  match s with
  | EmptyString => None
  | String c t =>
      if Ascii.eqb c ")" then Some (EmptyString, t)
      else
        match untilClose t with
        | Some (m, r) => Some (String c m, r)
        | None => None
        end
  end.

(** [s] without the prefix [p]. *)
Fixpoint stripPrefix (p s : string) : option string :=
  match p, s with
  | EmptyString, _ => Some s
  | String a p', String b s' => if Ascii.eqb a b then stripPrefix p' s' else None
  | String _ _, EmptyString => None
  end.

(** The outer regular expression (the letters url, an opening parenthesis,
    any run without a closing parenthesis, a closing parenthesis) matched
    at the start of [s]: the matched text and the rest of [s]. *)
Definition outerAt (s : string) : option (string * string) :=
  match stripPrefix "url(" s with
  | Some t =>
      match untilClose t with
      | Some (m, r) => Some ("url(" ++ m ++ ")", r)
      | None => None
      end
  | None => None
  end.

(** [s.replace(re, cb)] for the outer expression with its flag g: the
    leftmost match is replaced by [cb match] and the scan goes on behind
    it; every step consumes a character, so [String.length s] steps are
    enough. *)
Fixpoint replaceFrom (fuel : nat) (s : string) (cb : string -> string) : string :=
  match fuel with
  | O => s
  | S fuel' =>
      match outerAt s with
      | Some (m, r) => cb m ++ replaceFrom fuel' r cb
      | None =>
          match s with
          | EmptyString => EmptyString
          | String c t => String c (replaceFrom fuel' t cb)
          end
      end
  end.

Definition replaceAll (s : string) (cb : string -> string) : string :=
  replaceFrom (String.length s) s cb.

Definition isQuote (c : ascii) : bool := Ascii.eqb c "034" || Ascii.eqb c "'".

(** The class of the capture group: any character but the two quotes and
    the closing parenthesis. *)
Definition isUrlChar (c : ascii) : bool := negb (isQuote c || Ascii.eqb c ")").

(** One or more characters of the class, greedy: the longest run and the
    rest.  A shorter run is followed by a character of the class, where
    neither a quote nor the closing parenthesis can match, so the longest
    run is the only one the expression can succeed with. *)
Fixpoint spanUrlChars (s : string) : string * string :=
  match s with
  | EmptyString => (EmptyString, EmptyString)
  | String c t =>
      if isUrlChar c then let (u, r) := spanUrlChars t in (String c u, r)
      else (EmptyString, s)
  end.

(** The capture group, an optional quote and the closing parenthesis at
    the start of [s]: the captured group. *)
Definition captureAt (s : string) : option string :=
  let (u, r) := spanUrlChars s in
  match u with
  | EmptyString => None
  | _ =>
      match r with
      | String c r' =>
          if Ascii.eqb c ")" then Some u
          else if isQuote c then
            match r' with
            | String c' _ => if Ascii.eqb c' ")" then Some u else None
            | EmptyString => None
            end
          else None
      | EmptyString => None
      end
  end.

(** The inner regular expression (the letters url, an opening parenthesis,
    an optional quote, the capture group, an optional quote, a closing
    parenthesis) at the start of [s]: with the first optional quote taken,
    then without it. *)
Definition innerAt (s : string) : option string :=
  match stripPrefix "url(" s with
  | Some t =>
      match t with
      | String c t' =>
          if isQuote c then
            match captureAt t' with
            | Some u => Some u
            | None => captureAt t
            end
          else captureAt t
      | EmptyString => None
      end
  | None => None
  end.

(** [m.match(re)] for the inner expression: it carries no anchor, so the
    first position of [m] where it matches gives [urlMatch[1]]. *)
Fixpoint matchInner (m : string) : option string :=
  match innerAt m with
  | Some u => Some u
  | None =>
      match m with
      | EmptyString => None
      | String _ t => matchInner t
      end
  end.

(** [proxyBase + encodeURIComponent(new URL(value, baseUrl).href)], when
    neither the constructor nor the encoder throws. *)
Definition proxied (rt : Runtime) (proxyBase baseUrl value : string) : option string :=
  match URL_parse rt value (Some baseUrl) with
  | Normal href =>
      match URI.encodeURIComponent href with
      | Some enc => Some (proxyBase ++ enc)
      | None => None
      end
  | Thrown _ => None
  end.

(** The callback of [rewriteStyleUrls]. *)
Definition styleCallback (rt : Runtime) (proxyBase baseUrl : string) (m : string) : string :=
  match matchInner m with
  | Some u =>
      match proxied rt proxyBase baseUrl u with
      | Some p => "url(" ++ p ++ ")"
      | None => m
      end
  | None => m
  end.

Definition rewriteStyleUrls (rt : Runtime) (style proxyBase baseUrl : string) : string :=
  replaceAll style (styleCallback rt proxyBase baseUrl).

(** ** [htmlRewriter] *)

(** The choice of [attr] at the head of the first handler. *)
Definition chosenAttribute (element : Element) : option string :=
  if String.eqb (tagName element) "form" then Some "action"
  else if hasAttribute element "href" then Some "href"
  else if hasAttribute element "src" then Some "src"
  else None.

(** The handler of the link-bearing elements. *)
Definition linkHandler (rt : Runtime) (proxyBase baseUrl : string) (element : Element)
  : Element :=
  match chosenAttribute element with
  | None => element
  | Some attr =>
      match getAttribute element attr with
      | None => element
      | Some value =>
          if negb (JS.truthy value) then element
          else
            match proxied rt proxyBase baseUrl value with
            | Some p => setAttribute element attr p
            | None => element
            end
      end
  end.

(** The handler of the elements with a [style] attribute. *)
Definition styleHandler (rt : Runtime) (proxyBase baseUrl : string) (element : Element)
  : Element :=
  let style :=
    match getAttribute element "style" with
    | Some v => JS.orElse v EmptyString
    | None => EmptyString
    end in
  setAttribute element "style" (rewriteStyleUrls rt style proxyBase baseUrl).

Definition linkSelectors : list Selector :=
  [TagAttr "a" "href"; TagAttr "link" "href"; TagAttr "script" "src";
   TagAttr "img" "src"; TagAttr "source" "src"; TagAttr "embed" "src";
   TagAttr "iframe" "src"; TagAttr "form" "action"].

Definition htmlRewriter (rt : Runtime) (proxyBase baseUrl : string) : list Registration :=
  [(linkSelectors, linkHandler rt proxyBase baseUrl);
   ([AnyAttr "style"], styleHandler rt proxyBase baseUrl);
   ([TagAttrIs "meta" "http-equiv" "Content-Security-Policy";
     TagAttrIs "meta" "http-equiv" "content-security-policy"], remove);
   ([TagAttr "base" "href"], remove)].

(** The octets [BodyRewritten proxyBase baseUrl _] delivers are those of
    the document whose events went through the rewriter. *)
Definition rewriteDocument (rt : Runtime) (proxyBase baseUrl : string)
  (doc : list Token) : list Token :=
  transformTokens (htmlRewriter rt proxyBase baseUrl) doc.

(** ** [applyCors] and [corsHeaders] *)

Definition applyCors (headers : Headers.t) (appVersion : string) : Completion Headers.t :=
  (headers <- Headers.set headers "Access-Control-Allow-Origin" "*" ;;
   headers <-
     Headers.set headers "Access-Control-Allow-Methods" "GET, POST, PUT, DELETE, OPTIONS" ;;
   headers <- Headers.set headers "Access-Control-Allow-Headers" "*" ;;
   Headers.set headers "X-App-Version" appVersion)%completion.

Definition corsHeaders (appVersion : string) : Completion Headers.t :=
  applyCors Headers.empty appVersion.

(** ** [onRequest] *)

Definition forbiddenHeaders : list string := ["host"; "cookie"; "content-length"].

(** The body of the loop over [request.headers]. *)
Definition forwardStep (outgoingHeaders : Headers.t) (kv : string * string)
  : Completion Headers.t :=
  let key := JS.toLowerCase (fst kv) in
  if JS.arrayIncludes forbiddenHeaders key then Normal outgoingHeaders
  else Headers.set outgoingHeaders (fst kv) (snd kv).

(** A [for ... of] loop over the entries an iterator yields. *)
Fixpoint forEach (l : list (string * string)) (outgoingHeaders : Headers.t)
  : Completion Headers.t :=
  match l with
  | [] => Normal outgoingHeaders
  | kv :: r =>
      (outgoingHeaders <- forwardStep outgoingHeaders kv ;;
       forEach r outgoingHeaders)%completion
  end.

(** The loop over [request.headers]. *)
Definition forwardHeaders (inbound : Headers.t) : Completion Headers.t :=
  forEach (Headers.entries inbound) Headers.empty.

Definition defaultUserAgent : string :=
  "Mozilla/5.0 (Windows NT 10.0; Win64; x64) AppleWebKit/537.36".

(** The outgoing headers as [onRequest] builds them. *)
Definition buildOutgoingHeaders (inbound : Headers.t) (targetUrl : string)
  : Completion Headers.t :=
  (outgoingHeaders <- forwardHeaders inbound ;;
   outgoingHeaders <-
     (if negb (Headers.has outgoingHeaders "user-agent")
      then Headers.set outgoingHeaders "User-Agent" defaultUserAgent
      else Normal outgoingHeaders) ;;
   outgoingHeaders <-
     (if negb (Headers.has outgoingHeaders "accept")
      then Headers.set outgoingHeaders "Accept" "*/*"
      else Normal outgoingHeaders) ;;
   Headers.set outgoingHeaders "Referer" targetUrl)%completion.

(** The methods the [Request] constructor refuses, and the ones it writes
    in upper case (Fetch standard, 2.2.1). *)
Definition forbiddenMethods : list string := ["CONNECT"; "TRACE"; "TRACK"].

Definition normalizedMethods : list string :=
  ["DELETE"; "GET"; "HEAD"; "OPTIONS"; "POST"; "PUT"].

Definition normalizeMethod (method : string) : string :=
  let upper := JS.toUpperCase method in
  if JS.arrayIncludes normalizedMethods upper then upper else method.

(** [new Request(targetUrl, init)] (Fetch standard, 5.4): the URL is
    parsed, the method is validated and normalized, a body is refused for
    GET and HEAD, and the headers of the request are filled from the
    entries of [init.headers]; each failure is a [TypeError], whose message
    is the runtime's.  The runtime of a Pages Function puts no guard on the
    names of the headers of a request. *)
Definition newRequest (rt : Runtime) (targetUrl method : string) (headers : Headers.t)
  (body : option string) : Completion ProxyRequest :=
  match URL_parse rt targetUrl None with
  | Thrown e => Thrown e
  | Normal href =>
      if negb (Headers.isName method) ||
         JS.arrayIncludes forbiddenMethods (JS.toUpperCase method)
      then Thrown (mkExn "TypeError" "Invalid HTTP method string.")
      else
        let method := normalizeMethod method in
        match body with
        | Some _ =>
            if String.eqb method "GET" || String.eqb method "HEAD"
            then Thrown (mkExn "TypeError"
                           "Request with a GET or HEAD method cannot have a body.")
            else Normal (mkProxyRequest href method (Headers.copy headers) body "follow")
        | None => Normal (mkProxyRequest href method (Headers.copy headers) body "follow")
        end
  end.

(** [decodeURIComponent(targetParam)] with its [URIError]. *)
Definition decodeTarget (targetParam : string) : M string :=
  match URI.decodeURIComponent targetParam with
  | Some targetUrl => ret targetUrl
  | None => throw (mkExn "URIError" "URI malformed")
  end.

(** The inner [try]: the deployed VERSION file, read best-effort. *)
Definition readVersion (rt : Runtime) (origin APP_VERSION : string) : M string :=
  tryCatch
    (vres <- doFetch rt (FetchUrl (origin ++ "/VERSION")) ;;
     ret (if fr_ok vres then JS.orElse (JS.trim (text vres)) APP_VERSION
          else APP_VERSION))%js
    (fun _ => ret APP_VERSION).

(** The Content-Type of the fetched response, or the empty string, in
    lower case. *)
Definition contentTypeOf (fetched : FetchResponse) : string :=
  JS.toLowerCase
    match Headers.get (fr_headers fetched) "Content-Type" with
    | Some v => JS.orElse v EmptyString
    | None => EmptyString
    end.

Definition isHtml (contentType : string) : bool :=
  JS.startsWith contentType "text/html" || JS.includes contentType "xml".

(** The four header settings at the head of both branches. *)
Definition diagnosticHeaders (headers : Headers.t)
  (targetUrl requestUrl fetchedUrl APP_VERSION : string) : Completion Headers.t :=
  (headers <- Headers.set headers "X-Proxy-Target" targetUrl ;;
   headers <- Headers.set headers "X-Proxy-Request-URL" requestUrl ;;
   headers <- Headers.set headers "X-Fetched-URL" fetchedUrl ;;
   Headers.set headers "X-App-Version" APP_VERSION)%completion.

(** The branch of the HTML rewrite. *)
Definition htmlResponse (origin targetUrl APP_VERSION : string)
  (proxyReq : ProxyRequest) (fetched : FetchResponse) : Completion Response :=
  let fetchedUrl := JS.orElse (fr_url fetched) EmptyString in
  let proxyBase := origin ++ "/p/" in
  let headers := Headers.copy (fr_headers fetched) in
  (headers <-
     diagnosticHeaders headers targetUrl (preq_url proxyReq) fetchedUrl APP_VERSION ;;
   let headers := Headers.delete headers "x-frame-options" in
   let headers := Headers.delete headers "content-security-policy" in
   let headers := Headers.delete headers "content-security-policy-report-only" in
   headers <- applyCors headers APP_VERSION ;;
   Normal (mkResponse (fr_status fetched) (fr_statusText fetched) (Headers.copy headers)
             (BodyRewritten proxyBase targetUrl (fr_body fetched))))%completion.

(** The branch of the non-HTML assets. *)
Definition passthroughResponse (targetUrl APP_VERSION : string)
  (proxyReq : ProxyRequest) (fetched : FetchResponse) : Completion Response :=
  let fetchedUrl := JS.orElse (fr_url fetched) EmptyString in
  let headers := Headers.copy (fr_headers fetched) in
  (headers <-
     diagnosticHeaders headers targetUrl (preq_url proxyReq) fetchedUrl APP_VERSION ;;
   let headers := Headers.delete headers "x-frame-options" in
   headers <- applyCors headers APP_VERSION ;;
   Normal (mkResponse (fr_status fetched) (fr_statusText fetched) (Headers.copy headers)
             (BodyStream (fr_body fetched))))%completion.

(** The body of the outer [try]. *)
Definition relay (rt : Runtime) (request : Request) (origin targetUrl : string)
  : M Response :=
  (APP_VERSION <- readVersion rt origin "0.0.0" ;;
   outgoingHeaders <- lift (buildOutgoingHeaders (req_headers request) targetUrl) ;;
   if String.eqb (req_method request) "OPTIONS" then
     headers <- lift (corsHeaders APP_VERSION) ;;
     ret (mkResponse 204 EmptyString (Headers.copy headers) BodyNull)
   else
     proxyReq <- lift (newRequest rt targetUrl (req_method request) outgoingHeaders
                         (req_body request)) ;;
     fetched <- doFetch rt (FetchRequest proxyReq) ;;
     if isHtml (contentTypeOf fetched)
     then lift (htmlResponse origin targetUrl APP_VERSION proxyReq fetched)
     else lift (passthroughResponse targetUrl APP_VERSION proxyReq fetched))%js.

Definition proxyFailed (error : Exn) (targetUrl : string) : Response :=
  textResponse
    ("Proxy failed: " ++ exn_message error ++ JS.LF ++ JS.LF ++ "Target: " ++ targetUrl)
    502.

Definition onRequest (rt : Runtime) (context : Context) : M Response :=
  let request := ctx_request context in
  match ctx_target context with
  | None => ret (textResponse "Missing target URL" 400)
  | Some targetParam =>
      if negb (JS.truthy targetParam) then ret (textResponse "Missing target URL" 400)
      else
        (targetUrl <- decodeTarget targetParam ;;
         let origin := origin_of (req_url request) in
         if JS.startsWith targetUrl origin then
           ret (textResponse "Refusing to proxy this origin (loop protection)." 400)
         else
           tryCatch (relay rt request origin targetUrl)
             (fun error => ret (proxyFailed error targetUrl)))%js
  end.
(** ** A sample runtime

    Every statement below holds for all runtimes; this one instantiates
    them.  Its URL parser knows a fragment of the URL standard on which
    the serialisation of a URL is the input itself: [https://], a host of
    lower-case labels, and a path of unreserved lower-case characters with
    no segment starting with a dot; a reference starting with one slash is
    resolved against the origin of such a base.  Every other input is
    refused with the [TypeError] of the constructor. *)

Module Sample.

Definition isLower (c : ascii) : bool := URI.inRange 97 122 c.

Definition isDigit (c : ascii) : bool := URI.inRange 48 57 c.

Fixpoint pathOk (s : string) (afterSlash : bool) : bool :=
  match s with
  | EmptyString => true
  | String c t =>
      if Ascii.eqb c "/" then pathOk t true
      else if Ascii.eqb c "." then negb afterSlash && pathOk t false
      else (isLower c || isDigit c || Ascii.eqb c "-" || Ascii.eqb c "_") && pathOk t false
  end.

(** The host and the path behind [https://]. *)
Fixpoint hostAndPath (s : string) (afterLetter : bool) : option (string * string) :=
  match s with
  | EmptyString => None
  | String c t =>
      if isLower c then
        match hostAndPath t true with
        | Some (h, p) => Some (String c h, p)
        | None => None
        end
      else if Ascii.eqb c "." then
        if afterLetter then
          match hostAndPath t false with
          | Some (h, p) => Some (String c h, p)
          | None => None
          end
        else None
      else if Ascii.eqb c "/" then
        if afterLetter && pathOk t true then Some (EmptyString, s) else None
      else None
  end.

Definition absolute (input : string) : option (string * string) :=
  match stripPrefix "https://" input with
  | Some rest => hostAndPath rest false
  | None => None
  end.

Definition invalidUrl : Exn := mkExn "TypeError" "Invalid URL".

Definition URL_parse (input : string) (base : option string) : Completion string :=
  match absolute input with
  | Some _ => Normal input
  | None =>
      match base, input with
      | Some b, String c t =>
          match absolute b with
          | Some (host, _) =>
              if Ascii.eqb c "/" && negb (String.prefix "/" t) && pathOk t true
              then Normal ("https://" ++ host ++ input)
              else Thrown invalidUrl
          | None => Thrown invalidUrl
          end
      | _, _ => Thrown invalidUrl
      end
  end.

(** The proxy is served at [https://proxy.example]; upstream there is one
    HTML page and one image. *)
Definition proxyUrl : Url := mkUrl "https" "proxy.example" None "/p/x".

Definition page : FetchResponse :=
  mkFetchResponse 200 "OK"
    [("Content-Type", "Text/HTML; charset=utf-8"); ("X-Frame-Options", "DENY");
     ("Content-Security-Policy", "default-src 'self'")]
    "<a href=/page>next</a>" "https://example.com/".

Definition logo : FetchResponse :=
  mkFetchResponse 200 "OK"
    [("Content-Type", "image/png"); ("X-Frame-Options", "DENY"); ("ETag", "abc")]
    "PNG-octets" "https://example.com/logo.png".

Definition version : FetchResponse :=
  mkFetchResponse 200 "OK" [("Content-Type", "text/plain")]
    ("1.4.2" ++ JS.LF) "https://proxy.example/VERSION".

Definition fetch (input : FetchInput) : Completion FetchResponse :=
  match input with
  | FetchUrl u =>
      if String.eqb u "https://proxy.example/VERSION" then Normal version
      else Thrown (mkExn "TypeError" "fetch failed")
  | FetchRequest r =>
      if String.eqb (preq_url r) "https://example.com/" then Normal page
      else if String.eqb (preq_url r) "https://example.com/logo.png" then Normal logo
      else Thrown (mkExn "TypeError" "fetch failed")
  end.

Definition runtime : Runtime := mkRuntime URL_parse fetch.

(** The headers of the inbound requests: two lines carry the same name. *)
Definition inbound : Headers.t :=
  [("Host", "proxy.example"); ("Cookie", "sid=1"); ("X-Trace", "a"); ("x-trace", "b")].

Definition get (target : option string) : Context :=
  mkContext (mkRequest "GET" proxyUrl inbound None) target.

(** The outgoing headers built from [inbound] for a target. *)
Definition outgoing (targetUrl : string) : Headers.t :=
  match buildOutgoingHeaders inbound targetUrl with
  | Normal outgoingHeaders => outgoingHeaders
  | Thrown _ => Headers.empty
  end.

(** The upstream request of [get] for the page. *)
Definition pageRequest : ProxyRequest :=
  mkProxyRequest "https://example.com/" "GET"
    (Headers.copy (outgoing "https://example.com/")) None
    "follow".



Definition options (target : option string) : Context :=
  mkContext (mkRequest "OPTIONS" proxyUrl [("Host", "proxy.example")] None) target.

End Sample.

(** ** Vocabulary of the statements *)

(** The unit [decodeURIComponent] reads back for an octet of the encoder. *)
Definition unitOf (c : ascii) : URI.CodeUnit :=
  if URI.isUnreserved c then URI.Lit c else URI.Esc c.

Fixpoint unitsOf (s : string) : list URI.CodeUnit :=
  match s with
  | EmptyString => []
  | String c t => unitOf c :: unitsOf t
  end.

(** The serialisation of a URL is ASCII text. *)
Definition isAscii (s : string) : bool :=
  forallb (fun c => (nat_of_ascii c <? 128)%nat) (list_ascii_of_string s).

(** The lower-cased names of a header list, in order. *)
Definition names (h : Headers.t) : list string :=
  map (fun e => JS.toLowerCase (fst e)) h.

(** The entries of a name. *)
Definition entriesOf (h : Headers.t) (name : string) : list (string * string) :=
  filter (Headers.isNamed name) h.

(** The value of the last inbound entry of a name. *)
Fixpoint lastSeen (inbound : list (string * string)) (name : string) : option string :=
  match inbound with
  | [] => None
  | (k, v) :: r =>
      match lastSeen r name with
      | Some w => Some w
      | None => if Headers.sameName k name then Some v else None
      end
  end.


(** The version tag of a request: what the inner [try] leaves in
    [APP_VERSION]. *)
Definition appVersion (rt : Runtime) (origin : string) : string :=
  match fetch rt (FetchUrl (origin ++ "/VERSION")) with
  | Normal vres =>
      if fr_ok vres then JS.orElse (JS.trim (text vres)) "0.0.0" else "0.0.0"
  | Thrown _ => "0.0.0"
  end.

(** The three CORS headers and the version tag. *)
Definition carriesCors (appVersion : string) (h : Headers.t) : Prop :=
  Headers.get h "Access-Control-Allow-Origin" = Some "*" /\
  Headers.get h "Access-Control-Allow-Methods" = Some "GET, POST, PUT, DELETE, OPTIONS" /\
  Headers.get h "Access-Control-Allow-Headers" = Some "*" /\
  Headers.get h "X-App-Version" = Some appVersion.

Definition corsNames : list string :=
  ["access-control-allow-origin"; "access-control-allow-methods";
   "access-control-allow-headers"; "x-app-version"].


(** No header of the response is a CORS header or the version tag. *)
Definition lacksCors (h : Headers.t) : Prop :=
  forall n, In (JS.toLowerCase n) corsNames -> Headers.has h n = false.


(** A name the loop over the inbound headers skips. *)
Definition isForbidden (name : string) : bool :=
  JS.arrayIncludes forbiddenHeaders (JS.toLowerCase name).

(** A value [set] takes: normalized, it is a header value. *)
Definition settable (value : string) : bool := Headers.isValue (Headers.normalize value).

(** The entries the iterator yields for one name. *)
Definition block (h : Headers.t) (name : string) : list (string * string) :=
  if String.eqb name "set-cookie"
  then map (fun e => (name, snd e)) (filter (Headers.isNamed name) h)
  else
    match Headers.get h name with
    | Some value => [(name, value)]
    | None => []
    end.

(** No NUL, LF or CR in a text. *)
Definition unbroken (v : string) : bool :=
  forallb (fun c => negb (Headers.isBreak c)) (list_ascii_of_string v).

(** The header list of a [Headers] object: every entry went through the
    validation of the class. *)
Definition wellFormed (h : Headers.t) : bool :=
  forallb (fun e => Headers.isName (fst e) && Headers.isValue (snd e)) h.

(** What the loop over the entries of an iterator leaves when no [set]
    throws. *)
Definition forwardedStep (acc : Headers.t) (kv : string * string) : Headers.t :=
  if isForbidden (fst kv) then acc
  else Headers.update acc (fst kv) (Headers.normalize (snd kv)).

Definition forwarded (l : list (string * string)) : Headers.t :=
  fold_left forwardedStep l Headers.empty.

(** The two defaults set after the loop, one at a time. *)
Definition withUserAgent (h : Headers.t) : Headers.t :=
  if negb (Headers.has h "user-agent") then Headers.update h "User-Agent" defaultUserAgent
  else h.

Definition withAccept (h : Headers.t) : Headers.t :=
  if negb (Headers.has h "accept") then Headers.update h "Accept" "*/*" else h.

(** The outgoing headers, when no [set] throws. *)
Definition outgoingList (inbound : Headers.t) (targetUrl : string) : Headers.t :=
  Headers.update (withAccept (withUserAgent (forwarded (Headers.entries inbound))))
    "Referer" (Headers.normalize targetUrl).

(** The header list [applyCors] leaves, when the version tag is taken. *)
Definition corsList (headers : Headers.t) (appVersion : string) : Headers.t :=
  Headers.update
    (Headers.update
       (Headers.update (Headers.update headers "Access-Control-Allow-Origin" "*")
          "Access-Control-Allow-Methods" "GET, POST, PUT, DELETE, OPTIONS")
       "Access-Control-Allow-Headers" "*")
    "X-App-Version" (Headers.normalize appVersion).

(** The header list [diagnosticHeaders] leaves, when the four values are
    taken. *)
Definition diagnosticList (headers : Headers.t)
  (targetUrl requestUrl fetchedUrl APP_VERSION : string) : Headers.t :=
  Headers.update
    (Headers.update
       (Headers.update
          (Headers.update headers "X-Proxy-Target" (Headers.normalize targetUrl))
          "X-Proxy-Request-URL" (Headers.normalize requestUrl))
       "X-Fetched-URL" (Headers.normalize fetchedUrl))
    "X-App-Version" (Headers.normalize APP_VERSION).

(** The values the headers of a relayed response are set to are taken: the
    target, the URL of the upstream request, the URL of the fetched response
    and the version tag. *)
Definition reportable (targetUrl APP_VERSION : string) (proxyReq : ProxyRequest)
  (fetched : FetchResponse) : bool :=
  settable targetUrl && settable (preq_url proxyReq) &&
  settable (JS.orElse (fr_url fetched) EmptyString) && settable APP_VERSION.

(** The response of the HTML branch, when the header values are taken. *)
Definition htmlRelayed (origin targetUrl APP_VERSION : string)
  (proxyReq : ProxyRequest) (fetched : FetchResponse) : Response :=
  mkResponse (fr_status fetched) (fr_statusText fetched)
    (Headers.copy
       (corsList
          (Headers.delete
             (Headers.delete
                (Headers.delete
                   (diagnosticList (Headers.copy (fr_headers fetched)) targetUrl
                      (preq_url proxyReq) (JS.orElse (fr_url fetched) EmptyString)
                      APP_VERSION)
                   "x-frame-options")
                "content-security-policy")
             "content-security-policy-report-only")
          APP_VERSION))
    (BodyRewritten (origin ++ "/p/") targetUrl (fr_body fetched)).

(** The response of the passthrough branch, when the header values are
    taken. *)
Definition passthroughRelayed (targetUrl APP_VERSION : string)
  (proxyReq : ProxyRequest) (fetched : FetchResponse) : Response :=
  mkResponse (fr_status fetched) (fr_statusText fetched)
    (Headers.copy
       (corsList
          (Headers.delete
             (diagnosticList (Headers.copy (fr_headers fetched)) targetUrl
                (preq_url proxyReq) (JS.orElse (fr_url fetched) EmptyString) APP_VERSION)
             "x-frame-options")
          APP_VERSION))
    (BodyStream (fr_body fetched)).

(** The response that relays a fetched response. *)
Definition relayed (origin targetUrl APP_VERSION : string)
  (proxyReq : ProxyRequest) (fetched : FetchResponse) : Response :=
  if isHtml (contentTypeOf fetched)
  then htmlRelayed origin targetUrl APP_VERSION proxyReq fetched
  else passthroughRelayed targetUrl APP_VERSION proxyReq fetched.

(** The request of the upstream fetch, when the outgoing headers can be
    set and the constructor takes the target, the method and the body. *)
Definition upstreamRequest (rt : Runtime) (request : Request) (targetUrl : string)
  : Completion ProxyRequest :=
  match buildOutgoingHeaders (req_headers request) targetUrl with
  | Normal outgoingHeaders =>
      newRequest rt targetUrl (req_method request) outgoingHeaders (req_body request)
  | Thrown e => Thrown e
  end.

(** A method and a body the [Request] constructor takes. *)
Definition sendable (method : string) (body : option string) : bool :=
  Headers.isName method &&
  negb (JS.arrayIncludes forbiddenMethods (JS.toUpperCase method)) &&
  match body with
  | Some _ =>
      negb (String.eqb (normalizeMethod method) "GET" ||
            String.eqb (normalizeMethod method) "HEAD")
  | None => true
  end.


(** Every OPTIONS request with a present target outside the origin of the
    proxy is answered with 204. *)
Definition preflightGets204 (rt : Runtime) : Prop :=
  forall context targetParam targetUrl,
    req_method (ctx_request context) = "OPTIONS" ->
    ctx_target context = Some targetParam ->
    JS.truthy targetParam = true ->
    URI.decodeURIComponent targetParam = Some targetUrl ->
    JS.startsWith targetUrl (origin_of (req_url (ctx_request context))) = false ->
    exists resp tr,
      run (onRequest rt context) = (Normal resp, tr) /\ resp_status resp = 204.

(** Invalid targets are answered with 400: a parameter that does not
    decode, or decodes to a string the URL parser refuses. *)
Definition invalidTargetGets400 (rt : Runtime) : Prop :=
  forall context targetParam,
    ctx_target context = Some targetParam ->
    (URI.decodeURIComponent targetParam = None \/
     exists targetUrl e,
       URI.decodeURIComponent targetParam = Some targetUrl /\
       URL_parse rt targetUrl None = Thrown e) ->
    exists resp tr,
      run (onRequest rt context) = (Normal resp, tr) /\ resp_status resp = 400.

(** An error response: the text responses of status 400 and 502. *)
Definition errorResponse (resp : Response) : Prop :=
  exists msg st, (st = 400 \/ st = 502) /\ resp = textResponse msg st.

(** A response that relays an upstream response. *)
Definition relayedResponse (rt : Runtime) (resp : Response) (tr : Trace) : Prop :=
  exists proxyReq fetched,
    In (FetchRequest proxyReq) tr /\
    fetch rt (FetchRequest proxyReq) = Normal fetched /\
    resp_status resp = fr_status fetched.


(** No closing parenthesis in a string. *)
Fixpoint noClose (s : string) : bool :=
  match s with
  | EmptyString => true
  | String c t => negb (Ascii.eqb c ")") && noClose t
  end.

(** Only characters of the capture group. *)
Fixpoint urlChars (s : string) : bool :=
  match s with
  | EmptyString => true
  | String c t => isUrlChar c && urlChars t
  end.

(** An optional quote. *)
Definition optionalQuote (q : string) : Prop :=
  q = EmptyString \/ exists c, isQuote c = true /\ q = String c EmptyString.

(** The attribute the selector list of the first registration names for a
    tag. *)
Definition selectorAttribute (tag : string) : option string :=
  match
    find (fun sel => match sel with
                     | TagAttr t _ => String.eqb tag t
                     | _ => false
                     end) linkSelectors
  with
  | Some (TagAttr _ attr) => Some attr
  | _ => None
  end.

(** The [fetch] of the VERSION file at an origin. *)
Definition versionFetch (origin : string) : FetchInput := FetchUrl (origin ++ "/VERSION").


(** The selectors of the two removing registrations. *)
Definition cspSelectors : list Selector :=
  [TagAttrIs "meta" "http-equiv" "Content-Security-Policy";
   TagAttrIs "meta" "http-equiv" "content-security-policy"].

Definition baseSelectors : list Selector := [TagAttr "base" "href"].

(** The names of the attributes of an element, in order. *)
Definition attributeNames (e : Element) : list string := map fst (attributes e).

(** An element some registration of the rewriter selects. *)
Definition selected (e : Element) : bool :=
  matchesAny linkSelectors e || matchesAny [AnyAttr "style"] e ||
  matchesAny cspSelectors e || matchesAny baseSelectors e.

(** A token the rewriter has nothing to do on: text, or an element that is
    not removed and that no registration selects. *)
Definition untouched (t : Token) : bool :=
  match t with
  | StartTag e => negb (removed e) && negb (selected e)
  | Other _ => true
  end.

(** A character of an encoded URI component: unreserved, or the percent
    sign of an escape. *)
Definition isSegmentChar (c : ascii) : bool := URI.isUnreserved c || Ascii.eqb c "%".




(** A deployment whose VERSION file has two lines. *)
Definition twoLines : FetchResponse :=
  mkFetchResponse 200 "OK" [("Content-Type", "text/plain")]
    ("1.4.2" ++ JS.LF ++ "beta" ++ JS.LF) "https://proxy.example/VERSION".

Definition twoLineRuntime : Runtime :=
  mkRuntime Sample.URL_parse
    (fun input =>
       match input with
       | FetchUrl _ => Normal twoLines
       | FetchRequest _ => Sample.fetch input
       end).

(** A runtime whose URL parser removes, as the URL standard has it, the
    spaces an input starts and ends with. *)
Definition spacedRuntime : Runtime :=
  mkRuntime (fun input base => Sample.URL_parse (Headers.normalize input) base)
    Sample.fetch.

(** The run of a request whose parameter decodes to a target outside the
    origin, in terms of the lists and responses above. *)
Definition relayOutcome (rt : Runtime) (context : Context) (targetUrl : string)
  : Completion Response * Trace :=
  let request := ctx_request context in
  let origin := origin_of (req_url request) in
  let v := appVersion rt origin in
  match buildOutgoingHeaders (req_headers request) targetUrl with
  | Thrown e => (Normal (proxyFailed e targetUrl), [versionFetch origin])
  | Normal outgoingHeaders =>
      if String.eqb (req_method request) "OPTIONS" then
        (Normal
           (if settable v
            then mkResponse 204 EmptyString (Headers.copy (corsList Headers.empty v))
                   BodyNull
            else proxyFailed Headers.invalidValue targetUrl),
         [versionFetch origin])
      else
        match
          newRequest rt targetUrl (req_method request) outgoingHeaders (req_body request)
        with
        | Thrown e => (Normal (proxyFailed e targetUrl), [versionFetch origin])
        | Normal proxyReq =>
            match fetch rt (FetchRequest proxyReq) with
            | Thrown e =>
                (Normal (proxyFailed e targetUrl),
                 [versionFetch origin; FetchRequest proxyReq])
            | Normal fetched =>
                (Normal
                   (if reportable targetUrl v proxyReq fetched
                    then relayed origin targetUrl v proxyReq fetched
                    else proxyFailed Headers.invalidValue targetUrl),
                 [versionFetch origin; FetchRequest proxyReq])
            end
        end
  end.

(** [onRequest] case by case: the completion and the [fetch] calls. *)
Definition outcome (rt : Runtime) (context : Context) : Completion Response * Trace :=
  let request := ctx_request context in
  let origin := origin_of (req_url request) in
  let v := appVersion rt origin in
  let versionFetch := FetchUrl (origin ++ "/VERSION") in
  match ctx_target context with
  | None => (Normal (textResponse "Missing target URL" 400), [])
  | Some targetParam =>
      if negb (JS.truthy targetParam)
      then (Normal (textResponse "Missing target URL" 400), [])
      else
        match URI.decodeURIComponent targetParam with
        | None => (Thrown (mkExn "URIError" "URI malformed"), [])
        | Some targetUrl =>
            if JS.startsWith targetUrl origin then
              (Normal (textResponse "Refusing to proxy this origin (loop protection)." 400),
               [])
            else
              match buildOutgoingHeaders (req_headers request) targetUrl with
              | Thrown e => (Normal (proxyFailed e targetUrl), [versionFetch])
              | Normal outgoingHeaders =>
                  if String.eqb (req_method request) "OPTIONS" then
                    match corsHeaders v with
                    | Normal headers =>
                        (Normal (mkResponse 204 EmptyString (Headers.copy headers) BodyNull),
                         [versionFetch])
                    | Thrown e => (Normal (proxyFailed e targetUrl), [versionFetch])
                    end
                  else
                    match
                      newRequest rt targetUrl (req_method request) outgoingHeaders
                        (req_body request)
                    with
                    | Thrown e => (Normal (proxyFailed e targetUrl), [versionFetch])
                    | Normal proxyReq =>
                        match fetch rt (FetchRequest proxyReq) with
                        | Thrown e =>
                            (Normal (proxyFailed e targetUrl),
                             [versionFetch; FetchRequest proxyReq])
                        | Normal fetched =>
                            match
                              (if isHtml (contentTypeOf fetched)
                               then htmlResponse origin targetUrl v proxyReq fetched
                               else passthroughResponse targetUrl v proxyReq fetched)
                            with
                            | Normal resp =>
                                (Normal resp, [versionFetch; FetchRequest proxyReq])
                            | Thrown e =>
                                (Normal (proxyFailed e targetUrl),
                                 [versionFetch; FetchRequest proxyReq])
                            end
                        end
                    end
              end
        end
  end.

(** ** The step of the handler, as a run from the empty trace *)

Theorem onRequest_outcome (rt : Runtime) (context : Context) :
  run (onRequest rt context) = outcome rt context.
Proof.
  unfold run, onRequest, outcome.
  destruct (ctx_target context) as [targetParam|]; [|reflexivity].
  destruct (negb (JS.truthy targetParam)); [reflexivity|].
  unfold bind at 1, decodeTarget.
  destruct (URI.decodeURIComponent targetParam) as [targetUrl|]; [|reflexivity].
  cbn [ret].
  destruct (JS.startsWith targetUrl (origin_of (req_url (ctx_request context))));
    [reflexivity|].
  unfold tryCatch at 1, relay, bind at 1.
  assert (V : forall tr, readVersion rt (origin_of (req_url (ctx_request context))) "0.0.0" tr
               = (Normal (appVersion rt (origin_of (req_url (ctx_request context)))),
                  (tr ++ [FetchUrl (origin_of (req_url (ctx_request context)) ++ "/VERSION")])%list)).
  { intros tr. unfold readVersion, tryCatch, bind, doFetch, appVersion, ret.
    destruct (fetch rt _); reflexivity. }
  rewrite V. cbn [app]. unfold bind at 1, lift at 1.
  destruct (buildOutgoingHeaders (req_headers (ctx_request context)) targetUrl)
    as [outgoingHeaders|e]; [|reflexivity].
  destruct (String.eqb (req_method (ctx_request context)) "OPTIONS").
  { unfold bind, lift, ret. destruct (corsHeaders _); reflexivity. }
  unfold bind at 1, lift at 1.
  destruct (newRequest rt targetUrl _ outgoingHeaders _) as [proxyReq|e]; [|reflexivity].
  unfold bind, doFetch. cbn [app].
  destruct (fetch rt (FetchRequest _)) as [fetched|e]; [|reflexivity].
  unfold lift.
  destruct (isHtml (contentTypeOf fetched));
    [destruct (htmlResponse _ _ _ _ _)|destruct (passthroughResponse _ _ _ _)];
    reflexivity.
Qed.

(** ** The built-ins on samples *)

Example toLowerCase_sample :
  JS.toLowerCase "Text/HTML; Charset=UTF-8" = "text/html; charset=utf-8".
Proof. reflexivity. Qed.

Example trim_sample : JS.trim (" 1.4.2 " ++ JS.LF) = "1.4.2".
Proof. reflexivity. Qed.

Example encode_sample :
  URI.encodeURIComponent "https://example.com/a b?x=1&y=(z)" =
  Some "https%3A%2F%2Fexample.com%2Fa%20b%3Fx%3D1%26y%3D(z)".
Proof. reflexivity. Qed.

Example decode_sample :
  URI.decodeURIComponent "https%3a%2F%2Fexample.com%2Fa%20b%3F%E2%82%AC" =
  URI.decodeURIComponent "https://example.com/a%20b?%e2%82%ac" /\
  URI.decodeURIComponent "%41%2f%7E" = Some "A/~".
Proof. split; reflexivity. Qed.

(** A lone percent sign, a truncated escape, a truncated sequence, an
    overlong form and a surrogate are refused. *)
Example decode_refused :
  URI.decodeURIComponent "%" = None /\
  URI.decodeURIComponent "100%" = None /\
  URI.decodeURIComponent "%E0%A4%A" = None /\
  URI.decodeURIComponent "%E2%82" = None /\
  URI.decodeURIComponent "%C0%AF" = None /\
  URI.decodeURIComponent "%ED%A0%80" = None /\
  URI.decodeURIComponent "%C3%28" = None.
Proof. repeat split; reflexivity. Qed.

(** White space beyond ASCII is trimmed: U+00A0 at the start, U+FEFF and
    U+2028 at the end. *)
Example trim_wide :
  JS.trim (String (ascii_of_nat 194) (String (ascii_of_nat 160)
             ("1.4.2" ++
              String (ascii_of_nat 239) (String (ascii_of_nat 187) (String (ascii_of_nat 191)
                (String (ascii_of_nat 226) (String (ascii_of_nat 128)
                   (String (ascii_of_nat 168) EmptyString)))))))) = "1.4.2".
Proof. reflexivity. Qed.

(** The decoder drops a byte order mark, keeps a well-formed sequence and
    replaces a truncated one by U+FFFD. *)
Example decode_text :
  Utf8.decode (String (ascii_of_nat 239) (String (ascii_of_nat 187)
                 (String (ascii_of_nat 191) "1.4.2"))) = "1.4.2" /\
  Utf8.decode (String (ascii_of_nat 226) (String (ascii_of_nat 130)
                 (String (ascii_of_nat 172) "x"))) =
    String (ascii_of_nat 226) (String (ascii_of_nat 130) (String (ascii_of_nat 172) "x")) /\
  Utf8.decode (String (ascii_of_nat 226) (String (ascii_of_nat 130) "x")) =
    Utf8.replacement ++ "x".
Proof. repeat split; reflexivity. Qed.

(** [set] removes the white space around a value and refuses a line feed
    inside it and a name that is no token. *)
Example set_sample :
  Headers.set [("referer", "a")] "Referer" " https://example.com/ " =
    Normal [("referer", "https://example.com/")] /\
  Headers.set [] "Referer" ("https://example.com/" ++ JS.LF ++ "x") =
    Thrown Headers.invalidValue /\
  Headers.set [] "X Y" "v" = Thrown Headers.invalidName.
Proof. repeat split; reflexivity. Qed.

(** The iterator yields lower-cased names in ascending order, with the
    values of a name joined, but for set-cookie. *)
Example entries_sample :
  Headers.entries
    [("X-Trace", "a"); ("Set-Cookie", "s=1"); ("Accept", "*/*"); ("x-trace", "b");
     ("set-cookie", "t=2")] =
  [("accept", "*/*"); ("set-cookie", "s=1"); ("set-cookie", "t=2"); ("x-trace", "a, b")].
Proof. reflexivity. Qed.

(** The selector of the third registration compares the value of
    http-equiv without regard to case. *)
Example selector_case :
  matches (TagAttrIs "meta" "http-equiv" "Content-Security-Policy")
    (mkElement "meta" [("http-equiv", "CONTENT-SECURITY-POLICY")] false) = true /\
  matches (TagAttrIs "meta" "http-equiv" "Content-Security-Policy")
    (mkElement "meta" [("http-equiv", "refresh")] false) = false.
Proof. split; reflexivity. Qed.

(** ** Strings *)

Lemma stripPrefix_app (p s : string) : stripPrefix p (p ++ s) = Some s.
Proof.
  induction p as [|c p IH]; [destruct s; reflexivity|].
  cbn [append stripPrefix]. rewrite Ascii.eqb_refl. exact IH.
Qed.

(** ** Percent-encoding: decoding after encoding *)

Module URIFacts.
Import URI.

Lemma hexVal_hexDigit (n : nat) : n < 16 -> hexVal (hexDigit n) = Some n.
Proof.
  intros H. do 16 (destruct n as [|n]; [reflexivity|]). lia.
Qed.

Lemma unreserved_ascii (c : ascii) : isUnreserved c = true -> leadingOnes c = 0.
Proof.
  destruct c as [[] [] [] [] [] [] [] []]; vm_compute; congruence.
Qed.

Lemma unreserved_not_percent (c : ascii) : isUnreserved c = true -> Ascii.eqb c "%" = false.
Proof.
  intros H. destruct (Ascii.eqb c "%") eqn:E; [|reflexivity].
  apply Ascii.eqb_eq in E. subst c. discriminate H.
Qed.

Lemma unescape_escape (c : ascii) (s : string) :
  unescape (escape c ++ s) =
  match unescape s with Some r => Some (Esc c :: r) | None => None end.
Proof.
  unfold escape. cbn [append unescape]. 
  change (Ascii.eqb "%" "%") with true. cbv iota.
  assert (Hn : nat_of_ascii c < 256) by apply nat_ascii_bounded.
  rewrite !hexVal_hexDigit.
  - rewrite <- Nat.div_mod_eq. rewrite ascii_nat_embedding. reflexivity.
  - apply Nat.mod_upper_bound. lia.
  - apply Nat.Div0.div_lt_upper_bound. lia.
Qed.

Lemma unescape_encodeOctets (s : string) :
  unescape (encodeOctets s) = Some (unitsOf s).
Proof.
  induction s as [|c t IH]; [reflexivity|].
  cbn [encodeOctets unitsOf]. unfold encodeOctet, unitOf.
  destruct (isUnreserved c) eqn:E.
  - cbn [append unescape]. rewrite (unreserved_not_percent c E), IH. reflexivity.
  - rewrite unescape_escape, IH. reflexivity.
Qed.

Lemma cont_units (c : ascii) : isCont c = true -> unitOf c = Esc c.
Proof.
  unfold unitOf. destruct (isUnreserved c) eqn:E; [|reflexivity].
  apply unreserved_ascii in E. revert E.
  destruct c as [[] [] [] [] [] [] [] []]; vm_compute; congruence.
Qed.

Lemma lead_units (c : ascii) : leadingOnes c <> 0 -> unitOf c = Esc c.
Proof.
  unfold unitOf. destruct (isUnreserved c) eqn:E; [|reflexivity].
  apply unreserved_ascii in E. congruence.
Qed.

Lemma assemble_unit0 (c : ascii) (r : list CodeUnit) :
  leadingOnes c = 0 -> assemble (unitOf c :: r) = option_map (String c) (assemble r).
Proof.
  intros H. unfold unitOf. destruct (isUnreserved c); cbn [assemble]; [reflexivity|].
  rewrite H. reflexivity.
Qed.

Lemma assemble_unitsOf_bounded (n : nat) :
  forall s, String.length s <= n -> wellFormed s = true -> assemble (unitsOf s) = Some s.
Proof.
  induction n as [|n IH]; intros s Hlen Hwf.
  - destruct s; [reflexivity|cbn in Hlen; lia].
  - destruct s as [|b1 t1]; [reflexivity|].
    cbn [wellFormed] in Hwf. cbn [unitsOf String.length] in *.
    destruct (leadingOnes b1) as [|[|[|[|[|k]]]]] eqn:L; try discriminate Hwf.
    + rewrite (assemble_unit0 _ _ L), (IH t1); [reflexivity|lia|exact Hwf].
    + destruct t1 as [|b2 t2]; [discriminate|].
      apply andb_true_iff in Hwf as [V W].
      assert (V' := V). unfold valid2 in V'. apply andb_true_iff in V' as [_ C2].
      cbn [unitsOf String.length] in *.
      rewrite (lead_units b1), (cont_units b2 C2) by lia.
      cbn [assemble]. rewrite L, V, (IH t2); [reflexivity|lia|exact W].
    + destruct t1 as [|b2 [|b3 t3]]; try discriminate.
      apply andb_true_iff in Hwf as [V W].
      assert (V' := V). unfold valid3 in V'. apply andb_true_iff in V' as [V2 C3].
      assert (C2 : isCont b2 = true).
      { revert V2. unfold isCont, inRange.
        repeat rewrite ?orb_true_iff, ?andb_true_iff, ?Nat.leb_le. lia. }
      cbn [unitsOf String.length] in *.
      rewrite (lead_units b1), (cont_units b2 C2), (cont_units b3 C3) by lia.
      cbn [assemble]. rewrite L, V, (IH t3); [reflexivity|lia|exact W].
    + destruct t1 as [|b2 [|b3 [|b4 t4]]]; try discriminate.
      apply andb_true_iff in Hwf as [V W].
      assert (V' := V). unfold valid4 in V'.
      apply andb_true_iff in V' as [V' C4]. apply andb_true_iff in V' as [V2 C3].
      assert (C2 : isCont b2 = true).
      { revert V2. unfold isCont, inRange.
        repeat rewrite ?orb_true_iff, ?andb_true_iff, ?Nat.leb_le. lia. }
      cbn [unitsOf String.length] in *.
      rewrite (lead_units b1), (cont_units b2 C2), (cont_units b3 C3),
        (cont_units b4 C4) by lia.
      cbn [assemble]. rewrite L, V, (IH t4); [reflexivity|lia|exact W].
Qed.

(** Decoding what the encoder produced gives the text back. *)
Lemma decode_encode (s e : string) :
  encodeURIComponent s = Some e -> decodeURIComponent e = Some s.
Proof.
  unfold encodeURIComponent, decodeURIComponent.
  destruct (wellFormed s) eqn:W; [|discriminate].
  intros [= <-]. rewrite unescape_encodeOctets.
  apply (assemble_unitsOf_bounded (String.length s)); [lia|exact W].
Qed.

Lemma ascii_wellFormed (s : string) : isAscii s = true -> wellFormed s = true.
Proof.
  unfold isAscii. induction s as [|c t IH]; [reflexivity|].
  cbn [list_ascii_of_string forallb wellFormed]. intros H.
  apply andb_true_iff in H as [Hc Ht].
  unfold leadingOnes. rewrite Hc. auto.
Qed.
End URIFacts.

(** ** Header lists *)

Module HeadersFacts.
Import Headers.

Lemma sameName_iff (a b : string) :
  sameName a b = true <-> JS.toLowerCase a = JS.toLowerCase b.
Proof. unfold sameName. apply String.eqb_eq. Qed.

Lemma sameName_false_iff (a b : string) :
  sameName a b = false <-> JS.toLowerCase a <> JS.toLowerCase b.
Proof. unfold sameName. apply String.eqb_neq. Qed.

Lemma sameName_refl (a : string) : sameName a a = true.
Proof. apply sameName_iff. reflexivity. Qed.

Lemma sameName_sym (a b : string) : sameName a b = sameName b a.
Proof. unfold sameName. apply String.eqb_sym. Qed.

Lemma sameName_trans (a b c : string) :
  sameName a b = true -> sameName b c = true -> sameName a c = true.
Proof. rewrite !sameName_iff. congruence. Qed.

(** Names equal up to case select the same entries. *)
Lemma sameName_left (a b c : string) :
  sameName a b = true -> sameName a c = sameName b c.
Proof.
  intros H. apply sameName_iff in H. unfold sameName. rewrite H. reflexivity.
Qed.

Lemma sameName_right (a b c : string) :
  sameName b c = true -> sameName a b = sameName a c.
Proof.
  intros H. apply sameName_iff in H. unfold sameName. rewrite H. reflexivity.
Qed.

Lemma entriesOf_cons (k w : string) (r : t) (m : string) :
  entriesOf ((k, w) :: r) m =
  if sameName k m then (k, w) :: entriesOf r m else entriesOf r m.
Proof. reflexivity. Qed.

Lemma delete_cons (k w : string) (r : t) (n : string) :
  delete ((k, w) :: r) n = if sameName k n then delete r n else (k, w) :: delete r n.
Proof. unfold delete. cbn [filter]. unfold isNamed. cbn [fst]. destruct (sameName k n); reflexivity. Qed.

Lemma entries_delete_same (h : t) (n m : string) :
  sameName n m = true -> entriesOf (delete h n) m = [].
Proof.
  intros H. induction h as [|[k v] r IH]; [reflexivity|].
  rewrite delete_cons. destruct (sameName k n) eqn:E; [exact IH|].
  rewrite entriesOf_cons, <- (sameName_right k n m H), E. exact IH.
Qed.

Lemma entries_delete_other (h : t) (n m : string) :
  sameName n m = false -> entriesOf (delete h n) m = entriesOf h m.
Proof.
  intros H. induction h as [|[k v] r IH]; [reflexivity|].
  rewrite delete_cons, entriesOf_cons. destruct (sameName k n) eqn:E.
  - rewrite (sameName_left k n m E), H. exact IH.
  - rewrite entriesOf_cons, IH. reflexivity.
Qed.

Lemma entries_update_same (h : t) (n v m : string) :
  sameName n m = true ->
  exists k, entriesOf (update h n v) m = [(k, v)] /\ sameName k n = true.
Proof.
  intros H. induction h as [|[k w] r IH].
  - exists n. cbn [update]. rewrite entriesOf_cons, H.
    split; [reflexivity|apply sameName_refl].
  - cbn [update]. destruct (sameName k n) eqn:E.
    + exists k. split; [|exact E].
      rewrite entriesOf_cons, (sameName_left k n m E), H.
      rewrite (entries_delete_same r n m H). reflexivity.
    + destruct IH as [k' [IH1 IH2]]. exists k'. split; [|exact IH2].
      rewrite entriesOf_cons, <- (sameName_right k n m H), E. exact IH1.
Qed.

Lemma entries_update_other (h : t) (n v m : string) :
  sameName n m = false -> entriesOf (update h n v) m = entriesOf h m.
Proof.
  intros H. induction h as [|[k w] r IH].
  - cbn [update]. rewrite entriesOf_cons, H. reflexivity.
  - cbn [update]. destruct (sameName k n) eqn:E.
    + rewrite !entriesOf_cons, (sameName_left k n m E), H.
      apply (entries_delete_other r n m H).
    + rewrite !entriesOf_cons, IH. reflexivity.
Qed.

Lemma get_entries (h : t) (m : string) :
  get h m = match map snd (entriesOf h m) with [] => None | vs => Some (String.concat ", " vs) end.
Proof. reflexivity. Qed.

Lemma has_entries (h : t) (m : string) :
  has h m = match entriesOf h m with [] => false | _ => true end.
Proof.
  unfold has, entriesOf. induction h as [|e r IH]; [reflexivity|].
  cbn [existsb filter]. destruct (isNamed m e); [reflexivity|exact IH].
Qed.

Lemma get_update_same (h : t) (n v m : string) :
  sameName n m = true -> get (update h n v) m = Some v.
Proof.
  intros H. rewrite get_entries.
  destruct (entries_update_same h n v m H) as [k [-> _]]. reflexivity.
Qed.

Lemma get_update_other (h : t) (n v m : string) :
  sameName n m = false -> get (update h n v) m = get h m.
Proof. intros H. rewrite !get_entries, (entries_update_other h n v m H). reflexivity. Qed.

Lemma has_update_same (h : t) (n v m : string) :
  sameName n m = true -> has (update h n v) m = true.
Proof.
  intros H. rewrite has_entries.
  destruct (entries_update_same h n v m H) as [k [-> _]]. reflexivity.
Qed.

Lemma has_update_other (h : t) (n v m : string) :
  sameName n m = false -> has (update h n v) m = has h m.
Proof. intros H. rewrite !has_entries, (entries_update_other h n v m H). reflexivity. Qed.

Lemma get_delete_same (h : t) (n m : string) :
  sameName n m = true -> get (delete h n) m = None.
Proof. intros H. rewrite get_entries, (entries_delete_same h n m H). reflexivity. Qed.










Lemma delete_absent (h : t) (n : string) :
  entriesOf h n = [] -> delete h n = h.
Proof.
  induction h as [|[k w] r IH]; [reflexivity|].
  rewrite entriesOf_cons, delete_cons.
  destruct (sameName k n); [discriminate|]. intros H. rewrite (IH H). reflexivity.
Qed.

Lemma delete_delete (h : t) (n : string) : delete (delete h n) n = delete h n.
Proof. apply delete_absent. apply entries_delete_same. apply sameName_refl. Qed.

Lemma update_cons (k w : string) (r : t) (n v : string) :
  update ((k, w) :: r) n v =
  if sameName k n then (k, v) :: delete r n else (k, w) :: update r n v.
Proof. reflexivity. Qed.

(** Setting a name twice is setting it to the second value. *)
Lemma update_update (h : t) (n a b : string) :
  update (update h n a) n b = update h n b.
Proof.
  induction h as [|[k w] r IH].
  - cbn [update]. rewrite sameName_refl. reflexivity.
  - rewrite !update_cons. destruct (sameName k n) eqn:E.
    + rewrite update_cons, E, delete_delete. reflexivity.
    + rewrite update_cons, E, IH. reflexivity.
Qed.

(** Setting the only entry of a name to the value it has changes
    nothing. *)
Lemma update_fixed (h : t) (n v : string) :
  (exists k, entriesOf h n = [(k, v)]) -> update h n v = h.
Proof.
  induction h as [|[k w] r IH]; intros [k0 H]; [discriminate H|].
  rewrite entriesOf_cons in H. rewrite update_cons.
  destruct (sameName k n).
  - injection H as _ <- H. rewrite (delete_absent r n H). reflexivity.
  - rewrite IH; [reflexivity|exists k0; exact H].
Qed.

Lemma update_single (h : t) (n v m : string) :
  sameName n m = true -> exists k, entriesOf (update h n v) m = [(k, v)].
Proof.
  intros H. destruct (entries_update_same h n v m H) as (k & E & _). exists k. exact E.
Qed.


Lemma get_sameName (h : t) (a b : string) :
  sameName a b = true -> get h a = get h b.
Proof.
  intros H. unfold get. replace (filter (isNamed a) h) with (filter (isNamed b) h);
    [reflexivity|].
  apply filter_ext. intros e. unfold isNamed. symmetry. exact (sameName_right (fst e) a b H).
Qed.

Lemma get_none_has (h : t) (m : string) : get h m = None -> has h m = false.
Proof.
  rewrite get_entries, has_entries. destruct (entriesOf h m); [reflexivity|discriminate].
Qed.

Lemma has_none_get (h : t) (m : string) : has h m = false -> get h m = None.
Proof.
  rewrite get_entries, has_entries. destruct (entriesOf h m); [reflexivity|discriminate].
Qed.

Lemma has_In_names (h : t) (m : string) :
  has h m = true <-> In (JS.toLowerCase m) (names h).
Proof.
  unfold has, names. rewrite existsb_exists, in_map_iff. split.
  - intros [e [I N]]. exists e. split; [|exact I]. apply sameName_iff. exact N.
  - intros [e [N I]]. exists e. split; [exact I|]. apply sameName_iff. exact N.
Qed.

(** *** [set]: normalisation and validation *)

Lemma set_eq (h : t) (n v : string) :
  isName n = true ->
  set h n v = if settable v then Normal (update h n (normalize v)) else Thrown invalidValue.
Proof.
  intros H. unfold set, settable. rewrite H. cbn [negb].
  destruct (isValue (normalize v)); reflexivity.
Qed.

Lemma set_inv (h h' : t) (n v : string) :
  set h n v = Normal h' ->
  isName n = true /\ settable v = true /\ h' = update h n (normalize v).
Proof.
  unfold set, settable. destruct (isName n); [|discriminate]. cbn [negb].
  destruct (isValue (normalize v)); [|discriminate]. cbn [negb].
  intros [= <-]. repeat split.
Qed.

Lemma stripStart_head (s : string) (c : ascii) (t : string) :
  stripStart s = String c t -> isWhitespace c = false.
Proof.
  induction s as [|b s IH]; [discriminate|]. cbn [stripStart].
  destruct (isWhitespace b) eqn:E; [exact IH|]. intros [= <- _]. exact E.
Qed.

Lemma blank_cons (c : ascii) (t : string) :
  blank (String c t) = if isWhitespace c then blank t else false.
Proof. unfold blank. cbn [stripStart]. destruct (isWhitespace c); reflexivity. Qed.

Lemma blank_stripEnd (s : string) : blank (stripEnd s) = blank s.
Proof.
  induction s as [|c t IH]; [reflexivity|]. cbn [stripEnd].
  destruct (blank (String c t)) eqn:B; [reflexivity|].
  rewrite blank_cons in *. destruct (isWhitespace c); [congruence|reflexivity].
Qed.

Lemma stripEnd_idem (s : string) : stripEnd (stripEnd s) = stripEnd s.
Proof.
  induction s as [|c t IH]; [reflexivity|]. cbn [stripEnd].
  destruct (blank (String c t)) eqn:B; [reflexivity|].
  cbn [stripEnd]. rewrite IH.
  replace (blank (String c (stripEnd t))) with false; [reflexivity|].
  rewrite blank_cons in *. destruct (isWhitespace c); [|reflexivity].
  rewrite blank_stripEnd. congruence.
Qed.

(** A text that does not start with HTTP whitespace keeps its start. *)
Lemma stripStart_stripEnd (s : string) :
  stripStart s = s -> stripStart (stripEnd s) = stripEnd s.
Proof.
  destruct s as [|c t]; [reflexivity|]. intros H.
  assert (W : isWhitespace c = false) by exact (stripStart_head _ c t H).
  cbn [stripEnd]. destruct (blank (String c t)); [reflexivity|].
  cbn [stripStart]. rewrite W. reflexivity.
Qed.

Lemma stripStart_idem (s : string) : stripStart (stripStart s) = stripStart s.
Proof.
  induction s as [|c t IH]; [reflexivity|]. cbn [stripStart].
  destruct (isWhitespace c) eqn:E; [exact IH|]. cbn [stripStart]. rewrite E. reflexivity.
Qed.

Lemma normalize_idem (v : string) : normalize (normalize v) = normalize v.
Proof.
  unfold normalize.
  rewrite (stripStart_stripEnd (stripStart v) (stripStart_idem v)).
  apply stripEnd_idem.
Qed.

Lemma forallb_stripStart (p : ascii -> bool) (s : string) :
  forallb p (list_ascii_of_string s) = true ->
  forallb p (list_ascii_of_string (stripStart s)) = true.
Proof.
  induction s as [|c t IH]; [trivial|]. cbn [stripStart].
  destruct (isWhitespace c); [|trivial].
  cbn [list_ascii_of_string forallb]. intros H. apply andb_true_iff in H as [_ H].
  exact (IH H).
Qed.

Lemma forallb_stripEnd (p : ascii -> bool) (s : string) :
  forallb p (list_ascii_of_string s) = true ->
  forallb p (list_ascii_of_string (stripEnd s)) = true.
Proof.
  induction s as [|c t IH]; [trivial|]. cbn [stripEnd].
  destruct (blank (String c t)); [reflexivity|].
  cbn [list_ascii_of_string forallb]. intros H. apply andb_true_iff in H as [H1 H2].
  rewrite H1, (IH H2). reflexivity.
Qed.

(** A text without NUL, LF and CR is taken by [set]. *)
Lemma settable_unbroken (v : string) :
  forallb (fun c => negb (isBreak c)) (list_ascii_of_string v) = true -> settable v = true.
Proof.
  intros H. unfold settable, isValue. rewrite normalize_idem, String.eqb_refl, andb_true_r.
  unfold normalize. apply forallb_stripEnd, forallb_stripStart. exact H.
Qed.

(** [set] takes a value exactly when, normalized, it holds no NUL, LF or
    CR. *)
Lemma settable_eq (v : string) : settable v = unbroken (normalize v).
Proof.
  unfold settable, isValue, unbroken. rewrite normalize_idem, String.eqb_refl.
  apply andb_true_r.
Qed.

(** A header value is taken as it is. *)
Lemma isValue_settable (v : string) :
  isValue v = true -> settable v = true /\ normalize v = v.
Proof.
  unfold isValue. intros H. apply andb_true_iff in H as [H1 H2].
  apply String.eqb_eq in H2. split; [|exact H2].
  unfold settable. rewrite H2. unfold isValue. rewrite H1, H2, String.eqb_refl. reflexivity.
Qed.

Lemma settable_normalize (v : string) : settable (normalize v) = settable v.
Proof. unfold settable. rewrite normalize_idem. reflexivity. Qed.

End HeadersFacts.

(** ** Text: lower case, white space *)

Module TextFacts.

Lemma lowerChar_idem (c : ascii) : JS.lowerChar (JS.lowerChar c) = JS.lowerChar c.
Proof. destruct c as [[] [] [] [] [] [] [] []]; reflexivity. Qed.

Lemma toLowerCase_idem (s : string) :
  JS.toLowerCase (JS.toLowerCase s) = JS.toLowerCase s.
Proof.
  induction s as [|c t IH]; [reflexivity|]. cbn [JS.toLowerCase].
  rewrite lowerChar_idem, IH. reflexivity.
Qed.

Lemma whitespace_space (c : ascii) : Headers.isWhitespace c = true -> JS.isSpace c = true.
Proof. destruct c as [[] [] [] [] [] [] [] []]; vm_compute; congruence. Qed.

(** What [trimStart] leaves does not start with an ASCII space. *)
Lemma trimStart_head (n : nat) :
  forall s c t, String.length s <= n -> JS.trimStart s = String c t -> JS.isSpace c = false.
Proof.
  induction n as [|n IH]; intros s c t L.
  - destruct s; [discriminate|cbn in L; lia].
  - destruct s as [|b1 t1]; [discriminate|]. cbn [String.length] in L. cbn [JS.trimStart].
    destruct (JS.isSpace b1) eqn:E1; [apply IH; lia|].
    destruct t1 as [|b2 t2]; [intros [= <- _]; exact E1|]. cbn [String.length] in L.
    destruct (JS.isSpace2 b1 b2); [apply IH; lia|].
    destruct t2 as [|b3 t3]; [intros [= <- _]; exact E1|]. cbn [String.length] in L.
    destruct (JS.isSpace3 b1 b2 b3); [apply IH; lia|].
    intros [= <- _]. exact E1.
Qed.

Lemma blank_space (c : ascii) (t : string) :
  JS.isSpace c = true -> JS.blank (String c t) = JS.blank t.
Proof. intros H. unfold JS.blank. cbn [JS.trimStart]. rewrite H. reflexivity. Qed.

Lemma trimEnd_cons (c : ascii) (t : string) :
  JS.blank (String c t) = false -> JS.trimEnd (String c t) = String c (JS.trimEnd t).
Proof. intros H. cbn [JS.trimEnd]. rewrite H. reflexivity. Qed.

Lemma trimEnd_not_blank (s : string) :
  JS.blank s = false -> Headers.blank (JS.trimEnd s) = false.
Proof.
  induction s as [|c t IH]; [discriminate|]. intros B.
  rewrite (trimEnd_cons c t B), HeadersFacts.blank_cons.
  destruct (Headers.isWhitespace c) eqn:W; [|reflexivity].
  apply IH. rewrite <- (blank_space c t (whitespace_space c W)). exact B.
Qed.

Lemma stripEnd_trimEnd (s : string) : Headers.stripEnd (JS.trimEnd s) = JS.trimEnd s.
Proof.
  induction s as [|c t IH]; [reflexivity|].
  destruct (JS.blank (String c t)) eqn:B; [cbn [JS.trimEnd]; rewrite B; reflexivity|].
  rewrite (trimEnd_cons c t B). cbn [Headers.stripEnd]. rewrite IH.
  replace (Headers.blank (String c (JS.trimEnd t))) with false; [reflexivity|].
  symmetry. rewrite HeadersFacts.blank_cons.
  destruct (Headers.isWhitespace c) eqn:W; [|reflexivity].
  apply trimEnd_not_blank. rewrite <- (blank_space c t (whitespace_space c W)). exact B.
Qed.

(** A trimmed text is a normalized value. *)
Lemma normalize_trim (s : string) : Headers.normalize (JS.trim s) = JS.trim s.
Proof.
  unfold Headers.normalize, JS.trim.
  assert (S : Headers.stripStart (JS.trimEnd (JS.trimStart s)) = JS.trimEnd (JS.trimStart s)).
  { destruct (JS.trimStart s) as [|c t] eqn:E; [reflexivity|].
    pose proof (trimStart_head _ s c t (le_n _) E) as H.
    cbn [JS.trimEnd]. destruct (JS.blank (String c t)); [reflexivity|].
    cbn [Headers.stripStart].
    destruct (Headers.isWhitespace c) eqn:W; [|reflexivity].
    rewrite (whitespace_space c W) in H. discriminate H. }
  rewrite S. apply stripEnd_trimEnd.
Qed.

(** The version tag is a normalized value. *)
Lemma normalize_appVersion (rt : Runtime) (origin : string) :
  Headers.normalize (appVersion rt origin) = appVersion rt origin.
Proof.
  unfold appVersion. destruct (fetch rt _) as [vres|e]; [|reflexivity].
  destruct (fr_ok vres); [|reflexivity]. unfold JS.orElse.
  destruct (JS.truthy (JS.trim (text vres))); [apply normalize_trim|reflexivity].
Qed.

End TextFacts.

(** ** The iterator of a header list *)

Module IterFacts.
Import Headers HeadersFacts.

Lemma In_insert (x y : string) (l : list string) :
  In x (insert y l) <-> x = y \/ In x l.
Proof.
  induction l as [|z r IH]; cbn [insert In]; [intuition congruence|].
  destruct (String.leb y z); cbn [In]; [intuition congruence|].
  rewrite IH. intuition congruence.
Qed.

Lemma In_sorted (x : string) (l : list string) :
  In x (fold_right insert [] l) <-> In x l.
Proof.
  induction l as [|y r IH]; [reflexivity|].
  cbn [fold_right]. rewrite In_insert, IH. cbn [In]. intuition congruence.
Qed.

Lemma In_sortedNames (x : string) (h : t) :
  In x (sortedNames h) <-> In x (names h).
Proof. unfold sortedNames. rewrite In_sorted, nodup_In. reflexivity. Qed.

Lemma sortedNames_lower (x : string) (h : t) :
  In x (sortedNames h) -> JS.toLowerCase x = x.
Proof.
  rewrite In_sortedNames. unfold names. rewrite in_map_iff. intros [e [<- _]].
  apply TextFacts.toLowerCase_idem.
Qed.

Lemma entries_blocks (h : t) : entries h = flat_map (block h) (sortedNames h).
Proof. reflexivity. Qed.

Lemma In_block (h : t) (name : string) (kv : string * string) :
  In kv (block h name) -> fst kv = name.
Proof.
  unfold block. destruct (String.eqb name "set-cookie").
  - rewrite in_map_iff. intros [e [<- _]]. reflexivity.
  - destruct (get h name); [intros [<-|[]]; reflexivity|intros []].
Qed.

Lemma lastSeen_app (a b : list (string * string)) (m : string) :
  lastSeen (a ++ b) m =
  match lastSeen b m with
  | Some w => Some w
  | None => lastSeen a m
  end.
Proof.
  induction a as [|[k v] r IH]; cbn [app lastSeen].
  - destruct (lastSeen b m); reflexivity.
  - rewrite IH. destruct (lastSeen b m); reflexivity.
Qed.

Lemma lastSeen_none (l : list (string * string)) (m : string) :
  (forall kv, In kv l -> sameName (fst kv) m = false) -> lastSeen l m = None.
Proof.
  induction l as [|[k v] r IH]; [reflexivity|]. intros H. cbn [lastSeen].
  rewrite IH by (intros kv I; apply H; right; exact I).
  pose proof (H (k, v) (or_introl eq_refl)) as E. cbn [fst] in E. rewrite E. reflexivity.
Qed.

Lemma lastSeen_has (l : list (string * string)) (m : string) :
  has l m = false -> lastSeen l m = None.
Proof.
  intros H. apply lastSeen_none. intros kv I.
  destruct (sameName (fst kv) m) eqn:E; [|reflexivity].
  assert (T : has l m = true) by (apply existsb_exists; exists kv; split; [exact I|exact E]).
  congruence.
Qed.

(** The last value of a name among the entries of that name, renamed. *)
Lemma lastSeen_renamed (h : t) (name m : string) :
  sameName name m = true ->
  lastSeen (map (fun e => (name, snd e)) (filter (isNamed name) h)) m = lastSeen h m.
Proof.
  intros H. induction h as [|[k v] r IH]; [reflexivity|].
  cbn [filter lastSeen]. unfold isNamed at 1. cbn [fst].
  rewrite (sameName_right k name m H).
  destruct (sameName k m); cbn [map lastSeen snd]; rewrite ?IH, ?H;
    destruct (lastSeen r m); reflexivity.
Qed.

Lemma lastSeen_block (h : t) (name m : string) :
  sameName name m = true ->
  lastSeen (block h name) m =
  if String.eqb name "set-cookie" then lastSeen h m else get h m.
Proof.
  intros H. unfold block. destruct (String.eqb name "set-cookie").
  - exact (lastSeen_renamed h name m H).
  - rewrite (get_sameName h name m H). destruct (get h m); [|reflexivity].
    cbn [lastSeen]. rewrite H. reflexivity.
Qed.

Lemma lastSeen_blocks (h : t) (m : string) (l : list string) :
  (forall x, In x l -> JS.toLowerCase x = x) ->
  lastSeen (flat_map (block h) l) m =
  if existsb (fun x => sameName x m) l then lastSeen (block h (JS.toLowerCase m)) m
  else None.
Proof.
  induction l as [|x r IH]; [reflexivity|]. intros L.
  cbn [flat_map existsb]. rewrite lastSeen_app, IH by (intros y I; apply L; right; exact I).
  destruct (sameName x m) eqn:E.
  - assert (X : x = JS.toLowerCase m).
    { rewrite <- (L x (or_introl eq_refl)). apply sameName_iff. exact E. }
    subst x. cbn [orb]. destruct (existsb _ r); [|reflexivity].
    destruct (lastSeen (block h (JS.toLowerCase m)) m); reflexivity.
  - cbn [orb]. rewrite (lastSeen_none (block h x) m).
    + destruct (existsb _ r); [|reflexivity].
      destruct (lastSeen (block h (JS.toLowerCase m)) m); reflexivity.
    + intros kv I. rewrite (In_block h x kv I). exact E.
Qed.

Lemma exists_sortedNames (h : t) (m : string) :
  existsb (fun x => sameName x m) (sortedNames h) = has h m.
Proof.
  apply eq_true_iff_eq. rewrite existsb_exists, has_In_names. split.
  - intros [x [I E]]. apply In_sortedNames in I.
    replace (JS.toLowerCase m) with x; [exact I|].
    rewrite <- (sortedNames_lower x h (proj2 (In_sortedNames x h) I)).
    apply sameName_iff. exact E.
  - intros I. exists (JS.toLowerCase m). split; [apply In_sortedNames; exact I|].
    apply sameName_iff. apply TextFacts.toLowerCase_idem.
Qed.

Lemma sameName_lower (m : string) : sameName (JS.toLowerCase m) m = true.
Proof. apply sameName_iff. apply TextFacts.toLowerCase_idem. Qed.

(** The last entry the iterator yields for a name carries the combined
    value of the name; for [set-cookie] it carries the last value. *)
Lemma lastSeen_entries (h : t) (m : string) :
  lastSeen (entries h) m =
  if sameName m "set-cookie" then lastSeen h m else get h m.
Proof.
  rewrite entries_blocks, (lastSeen_blocks h m _ (fun x => sortedNames_lower x h)).
  rewrite exists_sortedNames, (lastSeen_block h _ m (sameName_lower m)).
  change (String.eqb (JS.toLowerCase m) "set-cookie") with (sameName m "set-cookie").
  destruct (has h m) eqn:H; [reflexivity|].
  rewrite (lastSeen_has h m H), (has_none_get h m H).
  destruct (sameName m "set-cookie"); reflexivity.
Qed.

Lemma has_entries_iter (h : t) (m : string) : has (entries h) m = has h m.
Proof.
  destruct (has h m) eqn:H.
  - destruct (has (entries h) m) eqn:G; [reflexivity|exfalso].
    pose proof (lastSeen_has _ m G) as L. rewrite lastSeen_entries in L.
    rewrite has_entries in H. destruct (sameName m "set-cookie").
    + clear G. induction h as [|[k v] r IH]; [discriminate H|].
      cbn [lastSeen] in L. rewrite entriesOf_cons in H.
      destruct (lastSeen r m) eqn:F; [discriminate L|].
      destruct (sameName k m); [discriminate L|]. exact (IH H eq_refl).
    + rewrite get_entries in L. destruct (entriesOf h m); [discriminate H|discriminate L].
  - apply get_none_has. rewrite get_entries. 
    destruct (entriesOf (entries h) m) as [|kv r] eqn:F; [reflexivity|exfalso].
    assert (I : In kv (entriesOf (entries h) m)) by (rewrite F; left; reflexivity).
    apply filter_In in I as [I N]. rewrite entries_blocks in I.
    apply in_flat_map in I as [x [Ix Ib]]. apply In_block in Ib.
    apply In_sortedNames in Ix. unfold isNamed in N. rewrite Ib in N.
    assert (T : has h m = true).
    { apply has_In_names. replace (JS.toLowerCase m) with x; [exact Ix|].
      rewrite <- (sortedNames_lower x h (proj2 (In_sortedNames x h) Ix)).
      apply sameName_iff. exact N. }
    congruence.
Qed.

Lemma NoDup_insert (x : string) (l : list string) :
  ~ In x l -> NoDup l -> NoDup (insert x l).
Proof.
  induction l as [|y r IH]; intros N D; cbn [insert].
  - constructor; [exact N|constructor].
  - destruct (String.leb x y); [constructor; assumption|].
    inversion D as [|y' r' Ny Dr]; subst. constructor.
    + rewrite In_insert. intros [->|I]; [apply N; left; reflexivity|exact (Ny I)].
    + apply IH; [intros I; apply N; right; exact I|exact Dr].
Qed.

Lemma NoDup_sortedNames (h : t) : NoDup (sortedNames h).
Proof.
  unfold sortedNames.
  pose proof (NoDup_nodup string_dec (map (fun e => JS.toLowerCase (fst e)) h)) as D.
  induction D as [|y r N D IH]; [constructor|].
  cbn [fold_right]. apply NoDup_insert; [rewrite In_sorted; exact N|exact IH].
Qed.

Lemma filter_block_other (h : t) (x m : string) :
  sameName x m = false -> filter (isNamed m) (block h x) = [].
Proof.
  intros E. destruct (filter (isNamed m) (block h x)) as [|kv r] eqn:F; [reflexivity|].
  assert (I : In kv (filter (isNamed m) (block h x))) by (rewrite F; left; reflexivity).
  apply filter_In in I as [I N]. unfold isNamed in N. rewrite (In_block h x kv I) in N.
  congruence.
Qed.

Lemma filter_block_same (h : t) (x m : string) :
  sameName x m = true -> filter (isNamed m) (block h x) = block h x.
Proof.
  intros E. apply forallb_filter_id. apply forallb_forall. intros kv I.
  unfold isNamed. rewrite (In_block h x kv I). exact E.
Qed.

(** Among the entries the iterator yields, those of a name are the block
    of that name. *)
Lemma filter_blocks (h : t) (m : string) (l : list string) :
  NoDup l -> (forall x, In x l -> JS.toLowerCase x = x) ->
  filter (isNamed m) (flat_map (block h) l) =
  if existsb (fun x => sameName x m) l then block h (JS.toLowerCase m) else [].
Proof.
  induction l as [|x r IH]; [reflexivity|]. intros D L.
  inversion D as [|x' r' N Dr]; subst.
  cbn [flat_map existsb]. rewrite filter_app, (IH Dr) by (intros y I; apply L; right; exact I).
  destruct (sameName x m) eqn:E.
  - assert (X : x = JS.toLowerCase m).
    { rewrite <- (L x (or_introl eq_refl)). apply sameName_iff. exact E. }
    rewrite (filter_block_same h x m E). cbn [orb].
    replace (existsb (fun y => sameName y m) r) with false; [subst x; apply app_nil_r|].
    symmetry. apply not_true_is_false. rewrite existsb_exists. intros [y [I Ey]].
    apply N. replace x with y; [exact I|].
    rewrite X, <- (L y (or_intror I)). apply sameName_iff. exact Ey.
  - rewrite (filter_block_other h x m E). reflexivity.
Qed.

Lemma get_block (h : t) (m : string) :
  has h m = true ->
  map snd (block h (JS.toLowerCase m)) =
  if sameName m "set-cookie" then map snd (filter (isNamed m) h)
  else match get h m with Some v => [v] | None => [] end.
Proof.
  intros H. unfold block.
  change (String.eqb (JS.toLowerCase m) "set-cookie") with (sameName m "set-cookie").
  destruct (sameName m "set-cookie").
  - rewrite map_map. cbn [snd]. f_equal. apply filter_ext. intros e. unfold isNamed.
    exact (sameName_right (fst e) _ m (sameName_lower m)).
  - rewrite (get_sameName h _ m (sameName_lower m)). destruct (get h m); reflexivity.
Qed.

(** The entries of the iterator answer [get] as the list does. *)
Lemma get_entries_iter (h : t) (m : string) : get (entries h) m = get h m.
Proof.
  destruct (has h m) eqn:H.
  2:{ rewrite (has_none_get h m H). apply has_none_get. rewrite has_entries_iter. exact H. }
  unfold get at 1. rewrite entries_blocks.
  rewrite (filter_blocks h m _ (NoDup_sortedNames h) (fun x => sortedNames_lower x h)).
  rewrite exists_sortedNames, H, (get_block h m H).
  destruct (sameName m "set-cookie"); [reflexivity|].
  destruct (get h m) as [v|] eqn:G; [reflexivity|].
  apply get_none_has in G. congruence.
Qed.

Lemma get_copy (h : t) (m : string) : get (copy h) m = get h m.
Proof. apply get_entries_iter. Qed.

Lemma has_copy (h : t) (m : string) : has (copy h) m = has h m.
Proof. apply has_entries_iter. Qed.

(** *** The entries of a well-formed list are taken by [set] *)

Lemma list_ascii_app (a b : string) :
  list_ascii_of_string (a ++ b) = (list_ascii_of_string a ++ list_ascii_of_string b)%list.
Proof. induction a as [|c a IH]; [reflexivity|]. cbn. rewrite IH. reflexivity. Qed.

Lemma unbroken_app (a b : string) : unbroken (a ++ b) = unbroken a && unbroken b.
Proof. unfold unbroken. rewrite list_ascii_app. apply forallb_app. Qed.

Lemma unbroken_concat (vs : list string) :
  forallb unbroken vs = true -> unbroken (String.concat ", " vs) = true.
Proof.
  induction vs as [|v r IH]; [reflexivity|]. cbn [forallb]. intros H.
  apply andb_true_iff in H as [H1 H2]. cbn [String.concat].
  destruct r as [|w r']; [exact H1|].
  rewrite !unbroken_app, H1, (IH H2). reflexivity.
Qed.

Lemma isValue_unbroken (v : string) : isValue v = true -> unbroken v = true.
Proof. unfold isValue. intros H. apply andb_true_iff in H as [H _]. exact H. Qed.

Lemma isTokenChar_lower (c : ascii) :
  isTokenChar c = true -> isTokenChar (JS.lowerChar c) = true.
Proof. destruct c as [[] [] [] [] [] [] [] []]; vm_compute; congruence. Qed.

Lemma isName_lower (n : string) : isName n = true -> isName (JS.toLowerCase n) = true.
Proof.
  unfold isName. intros H. apply andb_true_iff in H as [H1 H2].
  apply andb_true_iff. split; [destruct n; [discriminate H1|reflexivity]|].
  clear H1. induction n as [|c n IH]; [reflexivity|].
  cbn [list_ascii_of_string forallb JS.toLowerCase] in *.
  apply andb_true_iff in H2 as [A B]. rewrite (isTokenChar_lower c A), (IH B). reflexivity.
Qed.

Lemma wellFormed_In (h : t) (e : string * string) :
  wellFormed h = true -> In e h -> isName (fst e) = true /\ isValue (snd e) = true.
Proof.
  unfold wellFormed. rewrite forallb_forall. intros H I.
  apply andb_true_iff. exact (H e I).
Qed.

Lemma wellFormed_entries (h : t) (kv : string * string) :
  wellFormed h = true -> In kv (entries h) ->
  isName (fst kv) = true /\ settable (snd kv) = true.
Proof.
  intros W I. rewrite entries_blocks in I. apply in_flat_map in I as [x [Ix Ib]].
  split.
  - rewrite (In_block h x kv Ib). apply In_sortedNames in Ix. unfold names in Ix.
    apply in_map_iff in Ix as [e [<- Ie]]. apply isName_lower.
    exact (proj1 (wellFormed_In h e W Ie)).
  - unfold block in Ib. destruct (String.eqb x "set-cookie").
    + apply in_map_iff in Ib as [e [<- Ie]]. cbn [snd]. apply filter_In in Ie as [Ie _].
      exact (proj1 (isValue_settable _ (proj2 (wellFormed_In h e W Ie)))).
    + unfold get in Ib.
      destruct (map snd (filter (isNamed x) h)) as [|v vs] eqn:F; [destruct Ib|].
      destruct Ib as [<-|[]]. cbn [snd]. apply settable_unbroken.
      apply unbroken_concat. rewrite <- F. apply forallb_forall. intros w Iw.
      apply in_map_iff in Iw as [e [<- Ie]]. apply filter_In in Ie as [Ie _].
      exact (isValue_unbroken _ (proj2 (wellFormed_In h e W Ie))).
Qed.

End IterFacts.

(** ** The outgoing headers *)

Module OutgoingFacts.
Import HeadersFacts.

Lemma forbidden_other (k m : string) :
  isForbidden k = false -> isForbidden m = true -> Headers.sameName k m = false.
Proof.
  intros Hk Hm. apply sameName_false_iff. intros E.
  unfold isForbidden in *. rewrite E in Hk. congruence.
Qed.

Lemma forwardStep_eq (acc : Headers.t) (k v : string) :
  forwardStep acc (k, v) = if isForbidden k then Normal acc else Headers.set acc k v.
Proof. reflexivity. Qed.

Lemma forwardedStep_eq (acc : Headers.t) (k v : string) :
  forwardedStep acc (k, v) =
  if isForbidden k then acc else Headers.update acc k (Headers.normalize v).
Proof. reflexivity. Qed.

(** A loop that ends has set every entry it did not skip. *)
Lemma forEach_forwarded (l : list (string * string)) :
  forall acc out, forEach l acc = Normal out -> out = fold_left forwardedStep l acc.
Proof.
  induction l as [|[k v] r IH]; intros acc out; cbn [forEach fold_left].
  - intros [= <-]. reflexivity.
  - rewrite forwardStep_eq, forwardedStep_eq. destruct (isForbidden k); cbn [andThen].
    + apply IH.
    + destruct (Headers.set acc k v) as [acc'|e] eqn:S; [|discriminate].
      destruct (set_inv _ _ _ _ S) as (_ & _ & ->). cbn [andThen]. apply IH.
Qed.

(** A loop over entries that [set] takes ends. *)
Lemma forEach_ok (l : list (string * string)) :
  (forall kv, In kv l -> Headers.isName (fst kv) = true /\ settable (snd kv) = true) ->
  forall acc, forEach l acc = Normal (fold_left forwardedStep l acc).
Proof.
  induction l as [|[k v] r IH]; intros H acc; [reflexivity|].
  cbn [forEach fold_left]. rewrite forwardStep_eq, forwardedStep_eq.
  assert (Hr : forall kv, In kv r ->
                 Headers.isName (fst kv) = true /\ settable (snd kv) = true)
    by (intros kv I; apply H; right; exact I).
  destruct (isForbidden k); cbn [andThen]; [exact (IH Hr acc)|].
  destruct (H (k, v) (or_introl eq_refl)) as [N V]. cbn [fst snd] in N, V.
  rewrite (set_eq acc k v N), V. cbn [andThen]. exact (IH Hr _).
Qed.

Lemma forwarded_forbidden (l : list (string * string)) :
  forall acc m, isForbidden m = true -> Headers.has acc m = false ->
    Headers.has (fold_left forwardedStep l acc) m = false.
Proof.
  induction l as [|[k v] r IH]; intros acc m Hm Hacc; [exact Hacc|].
  cbn [fold_left]. apply IH; [exact Hm|].
  rewrite forwardedStep_eq. destruct (isForbidden k) eqn:Hk; [exact Hacc|].
  rewrite has_update_other; [exact Hacc|exact (forbidden_other k m Hk Hm)].
Qed.


(** After the loop a forwarded name carries the value of the last entry
    of that name, normalized. *)
Lemma forwarded_get (l : list (string * string)) :
  forall acc m, isForbidden m = false ->
    Headers.get (fold_left forwardedStep l acc) m =
    match lastSeen l m with
    | Some v => Some (Headers.normalize v)
    | None => Headers.get acc m
    end.
Proof.
  induction l as [|[k v] r IH]; intros acc m Hm; [reflexivity|].
  cbn [fold_left lastSeen]. rewrite (IH _ m Hm).
  destruct (lastSeen r m) as [w|]; [reflexivity|].
  rewrite forwardedStep_eq. destruct (Headers.sameName k m) eqn:E.
  - assert (Hk : isForbidden k = false).
    { unfold isForbidden in *. apply sameName_iff in E. rewrite E. exact Hm. }
    rewrite Hk. apply get_update_same. exact E.
  - destruct (isForbidden k); [reflexivity|]. apply get_update_other. exact E.
Qed.

Lemma forwarded_absent (l : list (string * string)) (m : string) :
  isForbidden m = false -> Headers.has l m = false ->
  Headers.has (forwarded l) m = false.
Proof.
  intros Hm Hin. apply get_none_has. unfold forwarded.
  rewrite (forwarded_get l Headers.empty m Hm), (IterFacts.lastSeen_has l m Hin).
  reflexivity.
Qed.

(** *** The four steps, when they succeed *)

Lemma build_inv (inbound : Headers.t) (t : string) (out : Headers.t) :
  buildOutgoingHeaders inbound t = Normal out ->
  out = outgoingList inbound t /\ settable t = true.
Proof.
  unfold buildOutgoingHeaders, forwardHeaders, outgoingList.
  destruct (forEach (Headers.entries inbound) Headers.empty) as [f|e] eqn:F;
    [|discriminate].
  apply forEach_forwarded in F. fold (forwarded (Headers.entries inbound)) in F. subst f.
  cbn [andThen]. unfold withUserAgent at 1.
  set (f := forwarded (Headers.entries inbound)).
  assert (U : (if negb (Headers.has f "user-agent")
               then Headers.set f "User-Agent" defaultUserAgent else Normal f) =
              Normal (withUserAgent f)).
  { unfold withUserAgent. destruct (negb (Headers.has f "user-agent")); reflexivity. }
  rewrite U. cbn [andThen].
  assert (A : (if negb (Headers.has (withUserAgent f) "accept")
               then Headers.set (withUserAgent f) "Accept" "*/*"
               else Normal (withUserAgent f)) = Normal (withAccept (withUserAgent f))).
  { unfold withAccept. destruct (negb (Headers.has (withUserAgent f) "accept"));
      reflexivity. }
  rewrite A. cbn [andThen]. intros S.
  destruct (set_inv _ _ _ _ S) as (_ & V & ->). split; [reflexivity|exact V].
Qed.

Lemma build_wellFormed (inbound : Headers.t) (t : string) :
  wellFormed inbound = true ->
  buildOutgoingHeaders inbound t =
  if settable t then Normal (outgoingList inbound t) else Thrown Headers.invalidValue.
Proof.
  intros W. unfold buildOutgoingHeaders, forwardHeaders, outgoingList.
  rewrite (forEach_ok _ (fun kv => IterFacts.wellFormed_entries inbound kv W)).
  fold (forwarded (Headers.entries inbound)).
  set (f := forwarded (Headers.entries inbound)). cbn [andThen].
  assert (U : (if negb (Headers.has f "user-agent")
               then Headers.set f "User-Agent" defaultUserAgent else Normal f) =
              Normal (withUserAgent f)).
  { unfold withUserAgent. destruct (negb (Headers.has f "user-agent")); reflexivity. }
  rewrite U. cbn [andThen].
  assert (A : (if negb (Headers.has (withUserAgent f) "accept")
               then Headers.set (withUserAgent f) "Accept" "*/*"
               else Normal (withUserAgent f)) = Normal (withAccept (withUserAgent f))).
  { unfold withAccept. destruct (negb (Headers.has (withUserAgent f) "accept"));
      reflexivity. }
  rewrite A. cbn [andThen]. apply set_eq. reflexivity.
Qed.

(** *** The list the four steps leave *)

Lemma outgoing_forbidden (inbound : Headers.t) (t m : string) :
  isForbidden m = true -> Headers.has (outgoingList inbound t) m = false.
Proof.
  intros Hm. unfold outgoingList.
  assert (F : forall k, isForbidden k = false -> Headers.sameName k m = false)
    by (intros k Hk; exact (forbidden_other k m Hk Hm)).
  rewrite has_update_other by (apply F; reflexivity).
  assert (H0 : Headers.has (forwarded (Headers.entries inbound)) m = false)
    by (apply forwarded_forbidden; [exact Hm|reflexivity]).
  assert (H1 : Headers.has (withUserAgent (forwarded (Headers.entries inbound))) m = false).
  { unfold withUserAgent. destruct (negb _); [|exact H0].
    rewrite has_update_other by (apply F; reflexivity). exact H0. }
  unfold withAccept. destruct (negb _); [|exact H1].
  rewrite has_update_other by (apply F; reflexivity). exact H1.
Qed.

Lemma outgoing_referer (inbound : Headers.t) (t : string) :
  Headers.get (outgoingList inbound t) "Referer" = Some (Headers.normalize t).
Proof. unfold outgoingList. apply get_update_same. reflexivity. Qed.

Lemma forwarded_entries_absent (inbound : Headers.t) (m : string) :
  isForbidden m = false -> Headers.has inbound m = false ->
  Headers.has (forwarded (Headers.entries inbound)) m = false.
Proof.
  intros Hm H. apply forwarded_absent; [exact Hm|].
  rewrite IterFacts.has_entries_iter. exact H.
Qed.

Lemma outgoing_userAgent (inbound : Headers.t) (t : string) :
  Headers.has inbound "user-agent" = false ->
  Headers.get (outgoingList inbound t) "User-Agent" = Some defaultUserAgent.
Proof.
  intros H. unfold outgoingList.
  rewrite get_update_other by reflexivity.
  unfold withAccept.
  assert (U : Headers.get (withUserAgent (forwarded (Headers.entries inbound))) "User-Agent"
              = Some defaultUserAgent).
  { unfold withUserAgent.
    rewrite (forwarded_entries_absent inbound "user-agent" eq_refl H). cbn [negb].
    apply get_update_same. reflexivity. }
  destruct (negb _); [|exact U]. rewrite get_update_other by reflexivity. exact U.
Qed.

Lemma outgoing_accept (inbound : Headers.t) (t : string) :
  Headers.has inbound "accept" = false ->
  Headers.get (outgoingList inbound t) "Accept" = Some "*/*".
Proof.
  intros H. unfold outgoingList.
  rewrite get_update_other by reflexivity.
  assert (A : Headers.has (withUserAgent (forwarded (Headers.entries inbound))) "accept"
              = false).
  { unfold withUserAgent. destruct (negb _).
    - rewrite has_update_other by reflexivity.
      apply forwarded_entries_absent; [reflexivity|exact H].
    - apply forwarded_entries_absent; [reflexivity|exact H]. }
  unfold withAccept. rewrite A. cbn [negb]. apply get_update_same. reflexivity.
Qed.



End OutgoingFacts.

(** ** The headers of the responses *)

Module ResponseFacts.
Import HeadersFacts.

Lemma orElse_empty (a : string) : JS.orElse a EmptyString = a.
Proof. destruct a; reflexivity. Qed.

Lemma applyCors_eq (h : Headers.t) (v : string) :
  applyCors h v = if settable v then Normal (corsList h v) else Thrown Headers.invalidValue.
Proof.
  unfold applyCors, corsList.
  rewrite (set_eq h "Access-Control-Allow-Origin" "*" eq_refl).
  change (settable "*") with true. cbn [andThen].
  rewrite (set_eq _ "Access-Control-Allow-Methods" "GET, POST, PUT, DELETE, OPTIONS" eq_refl).
  change (settable "GET, POST, PUT, DELETE, OPTIONS") with true. cbn [andThen].
  rewrite (set_eq _ "Access-Control-Allow-Headers" "*" eq_refl).
  change (settable "*") with true. cbn [andThen].
  apply set_eq. reflexivity.
Qed.

Lemma corsHeaders_eq (v : string) :
  corsHeaders v =
  if settable v then Normal (corsList Headers.empty v) else Thrown Headers.invalidValue.
Proof. apply applyCors_eq. Qed.

Lemma diagnosticHeaders_eq (h : Headers.t) (t r f v : string) :
  diagnosticHeaders h t r f v =
  if settable t && settable r && settable f && settable v
  then Normal (diagnosticList h t r f v) else Thrown Headers.invalidValue.
Proof.
  unfold diagnosticHeaders, diagnosticList.
  rewrite (set_eq h "X-Proxy-Target" t eq_refl).
  destruct (settable t); [|reflexivity]. cbn [andThen andb].
  rewrite (set_eq _ "X-Proxy-Request-URL" r eq_refl).
  destruct (settable r); [|reflexivity]. cbn [andThen andb].
  rewrite (set_eq _ "X-Fetched-URL" f eq_refl).
  destruct (settable f); [|reflexivity]. cbn [andThen andb].
  apply set_eq. reflexivity.
Qed.

Lemma htmlResponse_eq (origin t v : string) (r : ProxyRequest) (a : FetchResponse) :
  htmlResponse origin t v r a =
  if reportable t v r a then Normal (htmlRelayed origin t v r a)
  else Thrown Headers.invalidValue.
Proof.
  unfold htmlResponse, htmlRelayed, reportable. rewrite diagnosticHeaders_eq.
  destruct (settable t && settable (preq_url r) &&
            settable (JS.orElse (fr_url a) EmptyString)); cbn [andb]; [|reflexivity].
  destruct (settable v) eqn:V; [|reflexivity]. cbn [andThen].
  rewrite applyCors_eq, V. reflexivity.
Qed.

Lemma passthroughResponse_eq (t v : string) (r : ProxyRequest) (a : FetchResponse) :
  passthroughResponse t v r a =
  if reportable t v r a then Normal (passthroughRelayed t v r a)
  else Thrown Headers.invalidValue.
Proof.
  unfold passthroughResponse, passthroughRelayed, reportable. rewrite diagnosticHeaders_eq.
  destruct (settable t && settable (preq_url r) &&
            settable (JS.orElse (fr_url a) EmptyString)); cbn [andb]; [|reflexivity].
  destruct (settable v) eqn:V; [|reflexivity]. cbn [andThen].
  rewrite applyCors_eq, V. reflexivity.
Qed.

Lemma corsList_carries (h : Headers.t) (v : string) :
  carriesCors (Headers.normalize v) (corsList h v).
Proof.
  unfold carriesCors, corsList. repeat split.
  - rewrite !get_update_other by reflexivity. apply get_update_same. reflexivity.
  - rewrite !get_update_other by reflexivity. apply get_update_same. reflexivity.
  - rewrite !get_update_other by reflexivity. apply get_update_same. reflexivity.
  - apply get_update_same. reflexivity.
Qed.

(** The entries a constructor fills its headers from carry what the
    headers handed to it carry. *)
Lemma copy_carries (h : Headers.t) (v : string) :
  carriesCors v h -> carriesCors v (Headers.copy h).
Proof. unfold carriesCors. rewrite !IterFacts.get_copy. exact (fun C => C). Qed.

Lemma relayed_carries (origin t v : string) (r : ProxyRequest) (a : FetchResponse) :
  carriesCors (Headers.normalize v) (resp_headers (relayed origin t v r a)).
Proof.
  unfold relayed.
  destruct (isHtml (contentTypeOf a)); apply copy_carries, corsList_carries.
Qed.

Lemma textResponse_lacksCors (msg : string) (st : nat) :
  lacksCors (resp_headers (textResponse msg st)).
Proof.
  intros n Hn. cbn [textResponse resp_headers]. unfold Headers.has. cbn [existsb].
  unfold Headers.isNamed, Headers.sameName. cbn [fst].
  rewrite orb_false_r. apply String.eqb_neq. intros E. rewrite <- E in Hn.
  cbn in Hn. repeat (destruct Hn as [Hn|Hn]; [discriminate Hn|]). exact Hn.
Qed.

(** A response with the CORS headers is none of the text responses. *)
Lemma carries_not_text (v msg : string) (st : nat) (resp : Response) :
  carriesCors v (resp_headers resp) -> resp <> textResponse msg st.
Proof. intros [C _] E. rewrite E in C. discriminate C. Qed.

End ResponseFacts.

(** ** The handler, case by case *)

Module HandlerFacts.

Lemma truthy_empty (p : string) : negb (JS.truthy p) = true -> p = EmptyString.
Proof. destruct p; [reflexivity|discriminate]. Qed.

(** The run of a request whose parameter decodes to a target outside the
    origin. *)
Lemma relay_outcome (rt : Runtime) (context : Context) (p t : string) :
  ctx_target context = Some p -> JS.truthy p = true ->
  URI.decodeURIComponent p = Some t ->
  JS.startsWith t (origin_of (req_url (ctx_request context))) = false ->
  run (onRequest rt context) = relayOutcome rt context t.
Proof.
  intros Hp Ht Hd Hs. rewrite onRequest_outcome. unfold outcome, relayOutcome, versionFetch.
  rewrite Hp, Ht, Hd, Hs. cbn [negb].
  destruct (buildOutgoingHeaders _ t) as [outgoing|e]; [|reflexivity].
  destruct (String.eqb _ "OPTIONS").
  { rewrite ResponseFacts.corsHeaders_eq. destruct (settable _); reflexivity. }
  destruct (newRequest rt t _ outgoing _) as [proxyReq|e]; [|reflexivity].
  destruct (fetch rt _) as [fetched|e]; [|reflexivity].
  unfold relayed.
  rewrite ResponseFacts.htmlResponse_eq, ResponseFacts.passthroughResponse_eq.
  destruct (isHtml (contentTypeOf fetched)), (reportable _ _ _ _); reflexivity.
Qed.

(** Every run is one of four: no target, a parameter that does not decode,
    a target inside the origin, a relay. *)
Lemma run_cases (rt : Runtime) (context : Context) :
  (run (onRequest rt context) = (Normal (textResponse "Missing target URL" 400), []) /\
   (ctx_target context = None \/ ctx_target context = Some EmptyString)) \/
  (exists p,
      ctx_target context = Some p /\ JS.truthy p = true /\
      URI.decodeURIComponent p = None /\
      run (onRequest rt context) = (Thrown (mkExn "URIError" "URI malformed"), [])) \/
  (exists p t,
      ctx_target context = Some p /\ JS.truthy p = true /\
      URI.decodeURIComponent p = Some t /\
      JS.startsWith t (origin_of (req_url (ctx_request context))) = true /\
      run (onRequest rt context) =
        (Normal (textResponse "Refusing to proxy this origin (loop protection)." 400), [])) \/
  (exists p t,
      ctx_target context = Some p /\ JS.truthy p = true /\
      URI.decodeURIComponent p = Some t /\
      JS.startsWith t (origin_of (req_url (ctx_request context))) = false /\
      run (onRequest rt context) = relayOutcome rt context t).
Proof.
  destruct (ctx_target context) as [p|] eqn:Hp.
  2:{ left. rewrite onRequest_outcome. unfold outcome. rewrite Hp. auto. }
  destruct (JS.truthy p) eqn:Ht.
  2:{ left. rewrite onRequest_outcome. unfold outcome. rewrite Hp, Ht.
      destruct p; [auto|discriminate Ht]. }
  destruct (URI.decodeURIComponent p) as [t|] eqn:Hd.
  2:{ right. left. exists p. rewrite onRequest_outcome. unfold outcome.
      rewrite Hp, Ht, Hd. auto. }
  destruct (JS.startsWith t (origin_of (req_url (ctx_request context)))) eqn:Hs.
  - right. right. left. exists p, t. rewrite onRequest_outcome. unfold outcome.
    rewrite Hp, Ht, Hd, Hs. auto 6.
  - right. right. right. exists p, t.
    rewrite (relay_outcome rt context p t Hp Ht Hd Hs). auto 6.
Qed.


(** The constructor takes a target that parses with a method and a body
    it takes. *)
Lemma newRequest_sendable (rt : Runtime) (t method : string) (headers : Headers.t)
  (body : option string) (href : string) :
  URL_parse rt t None = Normal href -> sendable method body = true ->
  newRequest rt t method headers body =
  Normal (mkProxyRequest href (normalizeMethod method) (Headers.copy headers) body
            "follow").
Proof.
  intros U S. unfold newRequest, sendable in *. rewrite U.
  apply andb_true_iff in S as [S B]. apply andb_true_iff in S as [N F].
  rewrite N. apply negb_true_iff in F. rewrite F. cbn [negb orb].
  destruct body; [|reflexivity]. apply negb_true_iff in B. rewrite B. reflexivity.
Qed.

(** The request the constructor builds carries the entries of the headers
    handed to it. *)
Lemma newRequest_headers (rt : Runtime) (t method : string) (headers : Headers.t)
  (body : option string) (r : ProxyRequest) :
  newRequest rt t method headers body = Normal r ->
  preq_headers r = Headers.copy headers /\ URL_parse rt t None = Normal (preq_url r) /\
  preq_body r = body /\ preq_redirect r = "follow" /\
  preq_method r = normalizeMethod method.
Proof.
  unfold newRequest. destruct (URL_parse rt t None); [|discriminate].
  destruct (negb _ || _); [discriminate|].
  destruct body; [destruct (_ || _); [discriminate|]|]; intros [= <-]; repeat split.
Qed.


End HandlerFacts.

(** ** The handler: validation, loop guard, preflight *)

Lemma prefix_empty (s : string) : String.prefix s EmptyString = true -> s = EmptyString.
Proof. destruct s; [reflexivity|discriminate]. Qed.

Lemma origin_not_empty (u : Url) : origin_of u <> EmptyString.
Proof.
  unfold origin_of. destruct (url_scheme u); cbn [append]; discriminate.
Qed.

Lemma decode_empty (p t : string) :
  URI.decodeURIComponent p = Some t -> JS.truthy p = false -> t = EmptyString.
Proof.
  destruct p; [|discriminate]. cbn. congruence.
Qed.

(** A target that starts with the origin comes from a parameter that is
    present. *)
Lemma loop_target_truthy (u : Url) (p t : string) :
  URI.decodeURIComponent p = Some t -> JS.startsWith t (origin_of u) = true ->
  JS.truthy p = true.
Proof.
  intros D S. destruct (JS.truthy p) eqn:T; [reflexivity|].
  rewrite (decode_empty p t D T) in S. apply prefix_empty in S.
  destruct (origin_not_empty u S).
Qed.

(** The run of a request whose target starts with the origin. *)
Lemma loop_guard_outcome (rt : Runtime) (context : Context)
  (targetParam targetUrl : string) :
  ctx_target context = Some targetParam ->
  URI.decodeURIComponent targetParam = Some targetUrl ->
  JS.startsWith targetUrl (origin_of (req_url (ctx_request context))) = true ->
  outcome rt context =
  (Normal (textResponse "Refusing to proxy this origin (loop protection)." 400), []).
Proof.
  intros Ht Hd Hs. unfold outcome.
  rewrite Ht, (loop_target_truthy _ _ _ Hd Hs), Hd, Hs. reflexivity.
Qed.

(** C2: a target whose text starts with the origin of the proxy is answered
    with status 400 and the loop-protection message, and no [fetch] is
    issued: the trace of the run is empty. *)
Theorem loop_guard_rejects (rt : Runtime) (context : Context)
  (targetParam targetUrl : string) :
  ctx_target context = Some targetParam ->
  URI.decodeURIComponent targetParam = Some targetUrl ->
  JS.startsWith targetUrl (origin_of (req_url (ctx_request context))) = true ->
  run (onRequest rt context) =
  (Normal (mkResponse 400 EmptyString [("content-type", "text/plain;charset=UTF-8")]
             (BodyText "Refusing to proxy this origin (loop protection).")),
   []).
Proof.
  intros Ht Hd Hs. rewrite onRequest_outcome.
  exact (loop_guard_outcome rt context targetParam targetUrl Ht Hd Hs).
Qed.

Lemma loop_guard_rejects_witness :
  run (onRequest Sample.runtime (Sample.get (Some "https%3A%2F%2Fproxy.example%2Fp%2Fx"))) =
  (Normal (mkResponse 400 EmptyString [("content-type", "text/plain;charset=UTF-8")]
             (BodyText "Refusing to proxy this origin (loop protection).")),
   []).
Proof.
  apply (loop_guard_rejects Sample.runtime _ "https%3A%2F%2Fproxy.example%2Fp%2Fx"
           "https://proxy.example/p/x"); reflexivity.
Defined.

(** The run of an OPTIONS request whose parameter decodes to a target
    outside the origin. *)
Lemma options_outcome (rt : Runtime) (context : Context) (p t : string) :
  req_method (ctx_request context) = "OPTIONS" ->
  wellFormed (req_headers (ctx_request context)) = true ->
  ctx_target context = Some p -> JS.truthy p = true ->
  URI.decodeURIComponent p = Some t ->
  JS.startsWith t (origin_of (req_url (ctx_request context))) = false ->
  run (onRequest rt context) =
  (Normal
     (if settable t && settable (appVersion rt (origin_of (req_url (ctx_request context))))
      then mkResponse 204 EmptyString
             (Headers.copy
                (corsList Headers.empty
                   (appVersion rt (origin_of (req_url (ctx_request context)))))) BodyNull
      else proxyFailed Headers.invalidValue t),
   [FetchUrl (origin_of (req_url (ctx_request context)) ++ "/VERSION")]).
Proof.
  intros Hm W Hp Ht Hd Hs. rewrite (HandlerFacts.relay_outcome rt context p t Hp Ht Hd Hs).
  unfold relayOutcome. rewrite (OutgoingFacts.build_wellFormed _ t W), Hm.
  destruct (settable t); [|reflexivity].
  cbn [String.eqb Ascii.eqb Bool.eqb andb]. reflexivity.
Qed.

(** C8, counterexample: the parameter decodes to a target outside the
    origin that holds a line feed; the Referer cannot be set to it, which
    the function tries before it looks at the method, and the OPTIONS
    request is answered with 502. *)
Lemma options_preflight_counterexample :
  URI.decodeURIComponent "https%3A%2F%2Fexample.com%2F%0Ax" =
    Some ("https://example.com/" ++ JS.LF ++ "x") /\
  JS.startsWith ("https://example.com/" ++ JS.LF ++ "x")
    (origin_of (req_url (ctx_request (Sample.options None)))) = false /\
  (exists resp,
      run (onRequest Sample.runtime (Sample.options (Some "https%3A%2F%2Fexample.com%2F%0Ax")))
        = (Normal resp, [FetchUrl "https://proxy.example/VERSION"]) /\
      resp_status resp = 502) /\
  ~ preflightGets204 Sample.runtime.
Proof.
  split; [reflexivity|]. split; [reflexivity|]. split.
  - eexists. split; [vm_compute; reflexivity|reflexivity].
  - intros H.
    destruct (H (Sample.options (Some "https%3A%2F%2Fexample.com%2F%0Ax"))
                "https%3A%2F%2Fexample.com%2F%0Ax" ("https://example.com/" ++ JS.LF ++ "x")
                eq_refl eq_refl eq_refl eq_refl eq_refl) as [resp [tr [R S]]].
    vm_compute in R. inversion R; subst resp. discriminate S.
Qed.

(** C8, amended: an OPTIONS request whose parameter decodes to a target
    outside the origin of the proxy never contacts the upstream: the only
    [fetch] of the run is the version lookup.  It gets 204, the entries of
    the CORS headers with the version tag and no body when the target and
    the version tag are values a header takes, and the 502 of the catch
    otherwise.  With a
    missing target, or with a target that starts with the origin, it gets
    the 400 of that check and nothing is fetched. *)
Theorem options_preflight (rt : Runtime) (context : Context) :
  req_method (ctx_request context) = "OPTIONS" ->
  wellFormed (req_headers (ctx_request context)) = true ->
  (forall targetParam targetUrl,
      ctx_target context = Some targetParam ->
      JS.truthy targetParam = true ->
      URI.decodeURIComponent targetParam = Some targetUrl ->
      JS.startsWith targetUrl (origin_of (req_url (ctx_request context))) = false ->
      exists resp tr,
        run (onRequest rt context) = (Normal resp, tr) /\
        tr = [FetchUrl (origin_of (req_url (ctx_request context)) ++ "/VERSION")] /\
        existsb isUpstreamFetch tr = false /\
        (settable targetUrl = true ->
         settable (appVersion rt (origin_of (req_url (ctx_request context)))) = true ->
         resp_status resp = 204 /\
         resp_body resp = BodyNull /\
         (exists headers,
             corsHeaders (appVersion rt (origin_of (req_url (ctx_request context)))) =
               Normal headers /\
             resp_headers resp = Headers.copy headers) /\
         carriesCors (appVersion rt (origin_of (req_url (ctx_request context))))
           (resp_headers resp)) /\
        (settable targetUrl = false \/
         settable (appVersion rt (origin_of (req_url (ctx_request context)))) = false ->
         resp_status resp = 502 /\ errorResponse resp /\
         lacksCors (resp_headers resp))) /\
  (ctx_target context = None \/ ctx_target context = Some EmptyString ->
   run (onRequest rt context) = (Normal (textResponse "Missing target URL" 400), [])) /\
  (forall targetParam targetUrl,
      ctx_target context = Some targetParam ->
      URI.decodeURIComponent targetParam = Some targetUrl ->
      JS.startsWith targetUrl (origin_of (req_url (ctx_request context))) = true ->
      run (onRequest rt context) =
        (Normal (textResponse "Refusing to proxy this origin (loop protection)." 400), [])).
Proof.
  intros Hm W. split; [|split].
  - intros p t Hp Ht Hd Hs. eexists _, _.
    split; [exact (options_outcome rt context p t Hm W Hp Ht Hd Hs)|].
    split; [reflexivity|]. split; [reflexivity|]. split.
    + intros T V. rewrite T, V. cbn [andb resp_status resp_body resp_headers].
      split; [reflexivity|]. split; [reflexivity|].
      split; [eexists; rewrite ResponseFacts.corsHeaders_eq, V; split; reflexivity|].
      rewrite <- (TextFacts.normalize_appVersion rt) at 1.
      apply ResponseFacts.copy_carries, ResponseFacts.corsList_carries.
    + intros D.
      assert (E : settable t &&
                  settable (appVersion rt (origin_of (req_url (ctx_request context))))
                  = false)
        by (destruct D as [-> | ->]; [reflexivity|apply andb_false_r]).
      rewrite E. split; [reflexivity|].
      split; [eexists _, 502; split; [auto|reflexivity]|].
      apply ResponseFacts.textResponse_lacksCors.
  - intros [H|H]; rewrite onRequest_outcome; unfold outcome; rewrite H; reflexivity.
  - intros p t Hp Hd Hs. rewrite onRequest_outcome.
    exact (loop_guard_outcome rt context p t Hp Hd Hs).
Qed.

Lemma options_preflight_witness :
  (exists resp tr,
      run (onRequest Sample.runtime (Sample.options (Some "https%3A%2F%2Fexample.com%2F"))) =
        (Normal resp, tr) /\
      resp_status resp = 204 /\
      resp_body resp = BodyNull /\
      carriesCors "1.4.2" (resp_headers resp) /\
      existsb isUpstreamFetch tr = false) /\
  run (onRequest Sample.runtime (Sample.options None)) =
    (Normal (textResponse "Missing target URL" 400), []) /\
  run (onRequest Sample.runtime (Sample.options (Some "https%3A%2F%2Fproxy.example%2Fp%2Fx"))) =
    (Normal (textResponse "Refusing to proxy this origin (loop protection)." 400), []).
Proof.
  split; [|split].
  - destruct (proj1 (options_preflight Sample.runtime
                       (Sample.options (Some "https%3A%2F%2Fexample.com%2F")) eq_refl eq_refl)
                "https%3A%2F%2Fexample.com%2F" "https://example.com/"
                eq_refl eq_refl eq_refl eq_refl)
      as [resp [tr [R [_ [U [G _]]]]]].
    destruct (G eq_refl eq_refl) as [S [B [_ C]]].
    exists resp, tr. split; [exact R|]. split; [exact S|]. split; [exact B|].
    split; [exact C|exact U].
  - apply (proj1 (proj2 (options_preflight Sample.runtime (Sample.options None)
                           eq_refl eq_refl))).
    left. reflexivity.
  - apply (proj2 (proj2 (options_preflight Sample.runtime
                           (Sample.options (Some "https%3A%2F%2Fproxy.example%2Fp%2Fx"))
                           eq_refl eq_refl))
             "https%3A%2F%2Fproxy.example%2Fp%2Fx" "https://proxy.example/p/x");
      reflexivity.
Defined.

(** ** The handler: failures *)

(** C5, counterexample: the parameter [not-a-url] decodes to itself, the
    URL parser refuses it, and the GET request is answered with 502. *)
Lemma invalid_target_counterexample :
  URI.decodeURIComponent "not-a-url" = Some "not-a-url" /\
  URL_parse Sample.runtime "not-a-url" None = Thrown Sample.invalidUrl /\
  run (onRequest Sample.runtime (Sample.get (Some "not-a-url"))) =
    (Normal (mkResponse 502 EmptyString [("content-type", "text/plain;charset=UTF-8")]
               (BodyText ("Proxy failed: Invalid URL" ++ JS.LF ++ JS.LF ++
                          "Target: not-a-url"))),
     [FetchUrl "https://proxy.example/VERSION"]) /\
  ~ invalidTargetGets400 Sample.runtime.
Proof.
  split; [reflexivity|]. split; [reflexivity|]. split; [reflexivity|].
  intros H.
  destruct (H (Sample.get (Some "not-a-url")) "not-a-url" eq_refl) as [resp [tr [R S]]].
  - right. exists "not-a-url", Sample.invalidUrl. split; reflexivity.
  - vm_compute in R. inversion R; subst resp. discriminate S.
Qed.

(** C5, amended: a present parameter that decodes to a string outside the
    origin of the proxy which the URL parser refuses is answered, for a
    method other than OPTIONS, with 502 and the message of an error: the
    parser's error, or the error of the outgoing headers when they could
    not be set; the version lookup is the only [fetch]. *)
Theorem unparseable_target_502 (rt : Runtime) (context : Context)
  (targetParam targetUrl : string) (e : Exn) :
  ctx_target context = Some targetParam ->
  JS.truthy targetParam = true ->
  URI.decodeURIComponent targetParam = Some targetUrl ->
  JS.startsWith targetUrl (origin_of (req_url (ctx_request context))) = false ->
  String.eqb (req_method (ctx_request context)) "OPTIONS" = false ->
  URL_parse rt targetUrl None = Thrown e ->
  run (onRequest rt context) =
    (Normal (mkResponse 502 EmptyString [("content-type", "text/plain;charset=UTF-8")]
               (BodyText ("Proxy failed: " ++
                          exn_message
                            match
                              buildOutgoingHeaders (req_headers (ctx_request context))
                                targetUrl
                            with
                            | Normal _ => e
                            | Thrown error => error
                            end ++ JS.LF ++ JS.LF ++ "Target: " ++ targetUrl))),
     [FetchUrl (origin_of (req_url (ctx_request context)) ++ "/VERSION")]).
Proof.
  intros Hp Ht Hd Hs Hm Hu.
  rewrite (HandlerFacts.relay_outcome rt context _ _ Hp Ht Hd Hs). unfold relayOutcome.
  destruct (buildOutgoingHeaders _ targetUrl) as [outgoing|e']; [|reflexivity].
  rewrite Hm. unfold newRequest. rewrite Hu. reflexivity.
Qed.

Lemma unparseable_target_502_witness :
  run (onRequest Sample.runtime (Sample.get (Some "not-a-url"))) =
    (Normal (mkResponse 502 EmptyString [("content-type", "text/plain;charset=UTF-8")]
               (BodyText ("Proxy failed: " ++ exn_message Sample.invalidUrl ++ JS.LF ++
                          JS.LF ++ "Target: " ++ "not-a-url"))),
     [FetchUrl (origin_of (req_url (ctx_request (Sample.get (Some "not-a-url")))) ++
                "/VERSION")]).
Proof.
  exact (unparseable_target_502 Sample.runtime (Sample.get (Some "not-a-url"))
           "not-a-url" "not-a-url" Sample.invalidUrl
           eq_refl eq_refl eq_refl eq_refl eq_refl eq_refl).
Defined.

(** A parameter that does not decode: the [URIError] leaves the handler,
    which sits before the outer [try]. *)
Lemma undecodable_target_escapes (rt : Runtime) (context : Context) (targetParam : string) :
  ctx_target context = Some targetParam ->
  URI.decodeURIComponent targetParam = None ->
  run (onRequest rt context) = (Thrown (mkExn "URIError" "URI malformed"), []).
Proof.
  intros Hp Hd. rewrite onRequest_outcome. unfold outcome. rewrite Hp, Hd.
  destruct targetParam; [discriminate Hd|reflexivity].
Qed.

(** C6, counterexample: the 400 response to a request without target has
    none of the CORS headers. *)
Lemma error_response_counterexample :
  exists resp,
    run (onRequest Sample.runtime (Sample.get None)) = (Normal resp, []) /\
    resp_status resp = 400 /\
    Headers.get (resp_headers resp) "Access-Control-Allow-Origin" = None /\
    forall v, ~ carriesCors v (resp_headers resp).
Proof.
  eexists. split; [reflexivity|]. split; [reflexivity|]. split; [reflexivity|].
  intros v [H _]. discriminate H.
Qed.

(** C6, amended: the 204 response to OPTIONS and every response that
    relays an upstream response carry the three CORS headers and the
    version tag; the 400 and 502 responses the handler writes itself carry
    none of them. *)
Theorem cors_on_relayed_and_preflight (rt : Runtime) (context : Context)
  (resp : Response) (tr : Trace) :
  run (onRequest rt context) = (Normal resp, tr) ->
  ((exists headers,
       corsHeaders (appVersion rt (origin_of (req_url (ctx_request context)))) =
         Normal headers /\
       resp = mkResponse 204 EmptyString (Headers.copy headers) BodyNull) /\
   carriesCors (appVersion rt (origin_of (req_url (ctx_request context))))
     (resp_headers resp)) \/
  (relayedResponse rt resp tr /\
   carriesCors (appVersion rt (origin_of (req_url (ctx_request context))))
     (resp_headers resp)) \/
  (errorResponse resp /\ lacksCors (resp_headers resp)).
Proof.
  assert (E4 : forall msg, errorResponse (textResponse msg 400) /\
                           lacksCors (resp_headers (textResponse msg 400))).
  { intros msg. split; [exists msg, 400; auto|apply ResponseFacts.textResponse_lacksCors]. }
  assert (E5 : forall e t, errorResponse (proxyFailed e t) /\
                           lacksCors (resp_headers (proxyFailed e t))).
  { intros e t. split; [eexists _, 502; split; [auto|reflexivity]|].
    apply ResponseFacts.textResponse_lacksCors. }
  intros R.
  destruct (HandlerFacts.run_cases rt context)
    as [[E _]|[(p & _ & _ & _ & E)|[(p & t & _ & _ & _ & _ & E)|
        (p & t & _ & _ & _ & _ & E)]]];
    rewrite E in R; try discriminate R;
    try (injection R as <- <-; right; right; apply E4).
  unfold relayOutcome in R.
  destruct (buildOutgoingHeaders _ t) as [outgoing|e];
    [|injection R as <- <-; right; right; apply E5].
  destruct (String.eqb _ "OPTIONS").
  { destruct (settable (appVersion rt _)) eqn:V;
      injection R as <- <-; [left|right; right; apply E5].
    split.
    - eexists. rewrite ResponseFacts.corsHeaders_eq, V. split; reflexivity.
    - rewrite <- (TextFacts.normalize_appVersion rt) at 1.
      apply ResponseFacts.copy_carries, ResponseFacts.corsList_carries. }
  destruct (newRequest rt t _ outgoing _) as [proxyReq|e];
    [|injection R as <- <-; right; right; apply E5].
  destruct (fetch rt (FetchRequest _)) as [fetched|e] eqn:F;
    [|injection R as <- <-; right; right; apply E5].
  destruct (reportable _ _ _ _);
    injection R as <- <-; [right; left|right; right; apply E5].
  split.
  - eexists _, fetched. split; [right; left; reflexivity|]. split; [exact F|].
    unfold relayed. destruct (isHtml _); reflexivity.
  - rewrite <- (TextFacts.normalize_appVersion rt) at 1.
    apply ResponseFacts.relayed_carries.
Qed.

Lemma cors_on_relayed_and_preflight_witness :
  exists resp tr,
    run (onRequest Sample.runtime (Sample.get (Some "https%3A%2F%2Fexample.com%2F"))) =
      (Normal resp, tr) /\
    relayedResponse Sample.runtime resp tr /\
    carriesCors "1.4.2" (resp_headers resp).
Proof.
  eexists _, _. split; [vm_compute; reflexivity|].
  destruct (cors_on_relayed_and_preflight Sample.runtime
              (Sample.get (Some "https%3A%2F%2Fexample.com%2F")) _ _ eq_refl)
    as [[[h [_ H]] _]|[H|[[msg [st [_ H]]] _]]].
  - discriminate H.
  - exact H.
  - discriminate H.
Defined.

(** ** The handler: the upstream request *)

(** Every upstream fetch of a run carries the entries of the headers built
    from the inbound ones and the decoded target. *)
Lemma upstream_fetch_headers (rt : Runtime) (context : Context) (proxyReq : ProxyRequest) :
  In (FetchRequest proxyReq) (snd (run (onRequest rt context))) ->
  exists targetParam targetUrl,
    ctx_target context = Some targetParam /\
    URI.decodeURIComponent targetParam = Some targetUrl /\
    buildOutgoingHeaders (req_headers (ctx_request context)) targetUrl =
      Normal (outgoingList (req_headers (ctx_request context)) targetUrl) /\
    Headers.isValue (Headers.normalize targetUrl) = true /\
    preq_headers proxyReq =
      Headers.copy (outgoingList (req_headers (ctx_request context)) targetUrl).
Proof.
  intros I.
  destruct (HandlerFacts.run_cases rt context)
    as [[E _]|[(p & _ & _ & _ & E)|[(p & t & _ & _ & _ & _ & E)|
        (p & t & Hp & _ & Hd & _ & E)]]];
    rewrite E in I; try destruct I.
  exists p, t. split; [exact Hp|]. split; [exact Hd|].
  unfold relayOutcome in I.
  destruct (buildOutgoingHeaders _ t) as [outgoing|e] eqn:B;
    [|destruct I as [I|[]]; discriminate I].
  destruct (OutgoingFacts.build_inv _ _ _ B) as [-> T].
  destruct (String.eqb _ "OPTIONS"); [destruct I as [I|[]]; discriminate I|].
  destruct (newRequest rt t _ _ _) as [r|e] eqn:N;
    [|destruct I as [I|[]]; discriminate I].
  destruct (HandlerFacts.newRequest_headers _ _ _ _ _ _ N) as [H _].
  destruct (fetch rt (FetchRequest _)); destruct I as [I|[I|[]]]; try discriminate I;
    injection I as <-; rewrite H; repeat split; exact T.
Qed.

Lemma isForbidden_In (n : string) :
  In (JS.toLowerCase n) forbiddenHeaders -> isForbidden n = true.
Proof.
  intros H. unfold isForbidden, JS.arrayIncludes. apply existsb_exists.
  exists (JS.toLowerCase n). split; [exact H|apply String.eqb_refl].
Qed.

(** C3, counterexample: the parameter decodes to a target with a space at
    both ends, which the URL parser removes; the upstream request is
    issued, and its Referer is the target without the two spaces. *)
Lemma referer_counterexample :
  URI.decodeURIComponent "%20https%3A%2F%2Fexample.com%2F%20" =
    Some " https://example.com/ " /\
  exists proxyReq,
    In (FetchRequest proxyReq)
      (snd (run (onRequest spacedRuntime
                   (Sample.get (Some "%20https%3A%2F%2Fexample.com%2F%20"))))) /\
    Headers.get (preq_headers proxyReq) "Referer" = Some "https://example.com/" /\
    Headers.get (preq_headers proxyReq) "Referer" <> Some " https://example.com/ ".
Proof.
  split; [reflexivity|]. eexists. split; [vm_compute; right; left; reflexivity|].
  split; [reflexivity|discriminate].
Qed.

(** C3, amended: the headers of every upstream request hold no entry named
    host, cookie or content-length, whatever the case of the name; they
    carry the default User-Agent and Accept when the inbound headers have
    none; their Referer is the decoded target without the HTTP whitespace
    at its ends, and the target holds no NUL, LF or CR elsewhere. *)
Theorem outgoing_headers_sanitized (rt : Runtime) (context : Context)
  (proxyReq : ProxyRequest) :
  In (FetchRequest proxyReq) (snd (run (onRequest rt context))) ->
  exists targetParam targetUrl,
    ctx_target context = Some targetParam /\
    URI.decodeURIComponent targetParam = Some targetUrl /\
    (forall n, In (JS.toLowerCase n) ["host"; "cookie"; "content-length"] ->
               Headers.has (preq_headers proxyReq) n = false) /\
    (Headers.has (req_headers (ctx_request context)) "user-agent" = false ->
     Headers.get (preq_headers proxyReq) "User-Agent" =
       Some "Mozilla/5.0 (Windows NT 10.0; Win64; x64) AppleWebKit/537.36") /\
    (Headers.has (req_headers (ctx_request context)) "accept" = false ->
     Headers.get (preq_headers proxyReq) "Accept" = Some "*/*") /\
    Headers.get (preq_headers proxyReq) "Referer" = Some (Headers.normalize targetUrl) /\
    Headers.isValue (Headers.normalize targetUrl) = true.
Proof.
  intros H.
  destruct (upstream_fetch_headers rt context proxyReq H) as [p [t [Hp [Hd [_ [T ->]]]]]].
  exists p, t. split; [exact Hp|]. split; [exact Hd|]. repeat split.
  - intros n Hn. rewrite IterFacts.has_copy.
    apply OutgoingFacts.outgoing_forbidden. apply isForbidden_In. exact Hn.
  - rewrite IterFacts.get_copy. apply OutgoingFacts.outgoing_userAgent.
  - rewrite IterFacts.get_copy. apply OutgoingFacts.outgoing_accept.
  - rewrite IterFacts.get_copy. apply OutgoingFacts.outgoing_referer.
  - exact T.
Qed.

Lemma outgoing_headers_sanitized_witness :
  Headers.has (preq_headers Sample.pageRequest) "Cookie" = false /\
  Headers.has (preq_headers Sample.pageRequest) "HOST" = false /\
  Headers.get (preq_headers Sample.pageRequest) "User-Agent" = Some defaultUserAgent /\
  Headers.get (preq_headers Sample.pageRequest) "Accept" = Some "*/*" /\
  Headers.get (preq_headers Sample.pageRequest) "Referer" = Some "https://example.com/".
Proof.
  destruct (outgoing_headers_sanitized Sample.runtime
              (Sample.get (Some "https%3A%2F%2Fexample.com%2F")) Sample.pageRequest)
    as [p [t [Hp [Hd [F [U [A [R _]]]]]]]].
  - vm_compute. right. left. reflexivity.
  - injection Hp as <-. vm_compute in Hd. injection Hd as <-.
    split; [apply F; vm_compute; auto|]. split; [apply F; vm_compute; auto|].
    split; [apply U; reflexivity|]. split; [apply A; reflexivity|exact R].
Defined.




(** ** The handler: content-type dispatch *)









(** ** The rewriter: link-bearing elements *)

Lemma setAttr_same (l : list (string * string)) (n v : string) :
  option_map snd (find (fun a => String.eqb (fst a) n) (setAttr l n v)) = Some v.
Proof.
  induction l as [|[k w] r IH]; cbn [setAttr].
  - cbn [find fst]. rewrite String.eqb_refl. reflexivity.
  - destruct (String.eqb k n) eqn:E; cbn [find fst]; rewrite E; [reflexivity|exact IH].
Qed.

Lemma setAttr_other (l : list (string * string)) (n v m : string) :
  n <> m ->
  find (fun a => String.eqb (fst a) m) (setAttr l n v) =
  find (fun a => String.eqb (fst a) m) l.
Proof.
  intros H. induction l as [|[k w] r IH]; cbn [setAttr].
  - cbn [find fst]. apply String.eqb_neq in H. rewrite H. reflexivity.
  - destruct (String.eqb k n) eqn:E; cbn [find fst].
    + apply String.eqb_eq in E. subst k. apply String.eqb_neq in H. rewrite H.
      reflexivity.
    + destruct (String.eqb k m); [reflexivity|exact IH].
Qed.

Lemma getAttribute_set_same (e : Element) (n v : string) :
  getAttribute (setAttribute e n v) n = Some v.
Proof. apply setAttr_same. Qed.

Lemma getAttribute_set_other (e : Element) (n v m : string) :
  n <> m -> getAttribute (setAttribute e n v) m = getAttribute e m.
Proof.
  intros H. unfold getAttribute, setAttribute. cbn [attributes].
  rewrite (setAttr_other _ n v m H). reflexivity.
Qed.

(** What the first handler does to the attribute it chose. *)
Lemma linkHandler_chosen (rt : Runtime) (proxyBase baseUrl : string) (e : Element)
  (attr value : string) :
  chosenAttribute e = Some attr ->
  getAttribute e attr = Some value ->
  JS.truthy value = true ->
  getAttribute (linkHandler rt proxyBase baseUrl e) attr =
  match proxied rt proxyBase baseUrl value with
  | Some p => Some p
  | None => Some value
  end.
Proof.
  intros Hc Hg Ht. unfold linkHandler. rewrite Hc, Hg, Ht. cbn [negb].
  destruct (proxied rt proxyBase baseUrl value);
    [apply getAttribute_set_same|exact Hg].
Qed.

(** The first handler leaves every other attribute as it is. *)
Lemma linkHandler_others (rt : Runtime) (proxyBase baseUrl : string) (e : Element)
  (name : string) :
  chosenAttribute e <> Some name ->
  getAttribute (linkHandler rt proxyBase baseUrl e) name = getAttribute e name.
Proof.
  intros Hc. unfold linkHandler.
  destruct (chosenAttribute e) as [attr|]; [|reflexivity].
  destruct (getAttribute e attr) as [value|]; [|reflexivity].
  destruct (negb (JS.truthy value)); [reflexivity|].
  destruct (proxied rt proxyBase baseUrl value); [|reflexivity].
  apply getAttribute_set_other. congruence.
Qed.

Lemma getAttribute_remove (e : Element) (n : string) :
  getAttribute (remove e) n = getAttribute e n.
Proof. reflexivity. Qed.

Lemma styleHandler_others (rt : Runtime) (proxyBase baseUrl : string) (e : Element)
  (n : string) :
  n <> "style" -> getAttribute (styleHandler rt proxyBase baseUrl e) n = getAttribute e n.
Proof. intros H. unfold styleHandler. apply getAttribute_set_other. congruence. Qed.

(** The handlers after the first one leave the link attributes alone. *)
Lemma runHandlers_link (rt : Runtime) (proxyBase baseUrl : string) (e : Element)
  (n : string) :
  n <> "style" -> matchesAny linkSelectors e = true ->
  getAttribute (runHandlers (htmlRewriter rt proxyBase baseUrl) e) n =
  getAttribute (linkHandler rt proxyBase baseUrl e) n.
Proof.
  intros Hn Hm. unfold runHandlers, htmlRewriter. cbn [fold_left fst snd]. rewrite Hm.
  destruct (matchesAny [AnyAttr "style"] e);
    destruct (matchesAny [TagAttrIs "meta" "http-equiv" "Content-Security-Policy";
                          TagAttrIs "meta" "http-equiv" "content-security-policy"] e);
    destruct (matchesAny [TagAttr "base" "href"] e);
    rewrite ?getAttribute_remove, ?(styleHandler_others _ _ _ _ n Hn); reflexivity.
Qed.

Lemma selector_cases (tag attr : string) :
  selectorAttribute tag = Some attr ->
  (In tag ["a"; "link"] /\ attr = "href") \/
  (In tag ["script"; "img"; "source"; "embed"; "iframe"] /\ attr = "src") \/
  (tag = "form" /\ attr = "action").
Proof.
  unfold selectorAttribute, linkSelectors. cbn [find].
  repeat match goal with
         | |- context [String.eqb tag ?t] =>
             let E := fresh "E" in
             destruct (String.eqb tag t) eqn:E;
             [apply String.eqb_eq in E; subst tag; intros [= <-]; cbn; tauto|]
         end.
  intros H. discriminate H.
Qed.

(** A link-bearing element with its attribute present is selected, and
    the handler works on that attribute unless the element is one of the
    [src] elements and also has an [href]. *)
Lemma selector_chosen (e : Element) (attr : string) :
  selectorAttribute (tagName e) = Some attr ->
  hasAttribute e attr = true ->
  (attr = "src" -> hasAttribute e "href" = false) ->
  matchesAny linkSelectors e = true /\ chosenAttribute e = Some attr.
Proof.
  intros Hc Ha Hs. destruct (selector_cases _ _ Hc) as [[T ->]|[[T ->]|[T ->]]].
  - unfold chosenAttribute, matchesAny, linkSelectors, matches. cbn [existsb].
    rewrite Ha. cbn [In] in T.
    destruct T as [<-|[<-|[]]]; cbn [String.eqb Ascii.eqb Bool.eqb andb orb]; split; reflexivity.
  - unfold chosenAttribute, matchesAny, linkSelectors, matches. cbn [existsb].
    rewrite Ha, (Hs eq_refl). cbn [In] in T.
    destruct T as [<-|[<-|[<-|[<-|[<-|[]]]]]];
      cbn [String.eqb Ascii.eqb Bool.eqb andb orb]; split; reflexivity.
  - unfold chosenAttribute, matchesAny, linkSelectors, matches. cbn [existsb].
    rewrite Ha, T. cbn [String.eqb Ascii.eqb Bool.eqb andb orb].
    split; reflexivity.
Qed.

(** The rewriting of the link-bearing elements, short of the [src]
    elements that also have an [href]: the attribute becomes [proxyBase]
    with the encoded resolved URL, or stays when the value does not
    resolve. *)
Lemma link_elements_rewritten (rt : Runtime) (proxyBase baseUrl : string) (e : Element)
  (attr value : string) :
  selectorAttribute (tagName e) = Some attr ->
  getAttribute e attr = Some value ->
  JS.truthy value = true ->
  (attr = "src" -> getAttribute e "href" = None) ->
  getAttribute (runHandlers (htmlRewriter rt proxyBase baseUrl) e) attr =
  match proxied rt proxyBase baseUrl value with
  | Some p => Some p
  | None => Some value
  end.
Proof.
  intros Hc Hg Ht Hs.
  destruct (selector_chosen e attr Hc) as [Hm Hch].
  - unfold hasAttribute. rewrite Hg. reflexivity.
  - intros E. unfold hasAttribute. rewrite (Hs E). reflexivity.
  - rewrite runHandlers_link; [|
      destruct (selector_cases _ _ Hc) as [[_ ->]|[[_ ->]|[_ ->]]]; discriminate|exact Hm].
    exact (linkHandler_chosen rt proxyBase baseUrl e attr value Hch Hg Ht).
Qed.

(** C1: an [img] with both an [href] and a [src] attribute is selected by
    the rewriter, and its [src] leaves the handlers as it came. *)
Theorem src_beside_href_untouched (rt : Runtime) (proxyBase baseUrl h v : string) :
  matchesAny linkSelectors (mkElement "img" [("href", h); ("src", v)] false) = true /\
  getAttribute
    (runHandlers (htmlRewriter rt proxyBase baseUrl)
       (mkElement "img" [("href", h); ("src", v)] false)) "src" = Some v.
Proof.
  split; [reflexivity|].
  unfold runHandlers, htmlRewriter. cbn [fold_left fst snd].
  change (matchesAny linkSelectors (mkElement "img" [("href", h); ("src", v)] false))
    with true.
  change (matchesAny [AnyAttr "style"] (mkElement "img" [("href", h); ("src", v)] false))
    with false.
  change (matchesAny [TagAttr "base" "href"]
            (mkElement "img" [("href", h); ("src", v)] false)) with false.
  change (matchesAny
            [TagAttrIs "meta" "http-equiv" "Content-Security-Policy";
             TagAttrIs "meta" "http-equiv" "content-security-policy"]
            (mkElement "img" [("href", h); ("src", v)] false)) with false.
  cbv iota. rewrite linkHandler_others; [reflexivity|].
  change (chosenAttribute (mkElement "img" [("href", h); ("src", v)] false))
    with (Some "href"). discriminate.
Qed.

(** The same on the sample runtime: the [href] is rewritten, the [src] is
    not, though it resolves. *)
Example img_sample :
  rewriteDocument Sample.runtime "https://proxy.example/p/" "https://example.com/"
    [StartTag (mkElement "img" [("href", "/x"); ("src", "/y")] false)] =
  [StartTag
     (mkElement "img"
        [("href", "https://proxy.example/p/https%3A%2F%2Fexample.com%2Fx"); ("src", "/y")]
        false)] /\
  proxied Sample.runtime "https://proxy.example/p/" "https://example.com/" "/y" =
  Some "https://proxy.example/p/https%3A%2F%2Fexample.com%2Fy".
Proof. split; reflexivity. Qed.


Lemma proxied_wellFormed (rt : Runtime) (proxyBase baseUrl value href : string) :
  URL_parse rt value (Some baseUrl) = Normal href ->
  URI.wellFormed href = true ->
  proxied rt proxyBase baseUrl value = Some (proxyBase ++ URI.encodeOctets href).
Proof.
  intros Hu Hw. unfold proxied, URI.encodeURIComponent. rewrite Hu, Hw. reflexivity.
Qed.

(** C7: when the value of the attribute the handler chose resolves to
    [href] (well-formed text, as every serialised URL is), the rewritten
    value is [proxyBase] followed by a remainder, and the remainder decodes
    to [href]. *)
Theorem rewritten_url_round_trip (rt : Runtime) (proxyBase baseUrl : string)
  (e : Element) (attr value href : string) :
  chosenAttribute e = Some attr ->
  getAttribute e attr = Some value ->
  JS.truthy value = true ->
  URL_parse rt value (Some baseUrl) = Normal href ->
  URI.wellFormed href = true ->
  exists rewritten rest,
    getAttribute (linkHandler rt proxyBase baseUrl e) attr = Some rewritten /\
    stripPrefix proxyBase rewritten = Some rest /\
    URI.decodeURIComponent rest = Some href.
Proof.
  intros Hc Hg Ht Hu Hw.
  exists (proxyBase ++ URI.encodeOctets href), (URI.encodeOctets href).
  split; [|split].
  - rewrite (linkHandler_chosen rt proxyBase baseUrl e attr value Hc Hg Ht).
    rewrite (proxied_wellFormed rt proxyBase baseUrl value href Hu Hw). reflexivity.
  - apply stripPrefix_app.
  - apply URIFacts.decode_encode. unfold URI.encodeURIComponent. rewrite Hw. reflexivity.
Qed.

Lemma rewritten_url_round_trip_witness :
  exists rewritten rest,
    getAttribute
      (linkHandler Sample.runtime "https://proxy.example/p/" "https://example.com/"
         (mkElement "a" [("href", "/page")] false)) "href" = Some rewritten /\
    stripPrefix "https://proxy.example/p/" rewritten = Some rest /\
    URI.decodeURIComponent rest = Some "https://example.com/page".
Proof.
  apply (rewritten_url_round_trip Sample.runtime "https://proxy.example/p/"
           "https://example.com/" (mkElement "a" [("href", "/page")] false)
           "href" "/page" "https://example.com/page"); reflexivity.
Defined.

(** ** The rewriter: [url()] tokens of a style attribute *)

Module StyleFacts.


Lemma append_assoc (a b c : string) : (a ++ b) ++ c = a ++ (b ++ c).
Proof. induction a as [|x a IH]; [reflexivity|]. cbn [append]. rewrite IH. reflexivity. Qed.

Lemma append_nil_r (a : string) : a ++ EmptyString = a.
Proof. induction a as [|x a IH]; [reflexivity|]. cbn [append]. rewrite IH. reflexivity. Qed.

Lemma untilClose_length (s m r : string) :
  untilClose s = Some (m, r) -> String.length s = S (String.length m + String.length r).
Proof.
  revert m r. induction s as [|c t IH]; intros m r; [discriminate|].
  cbn [untilClose]. destruct (Ascii.eqb c ")").
  - intros [= <- <-]. reflexivity.
  - destruct (untilClose t) as [[m' r']|]; [|discriminate].
    intros [= <- <-]. cbn [String.length]. rewrite (IH m' r' eq_refl). reflexivity.
Qed.

Lemma stripPrefix_length (p s t : string) :
  stripPrefix p s = Some t -> String.length s = String.length p + String.length t.
Proof.
  revert s. induction p as [|a p IH]; intros s.
  - cbn. intros [= ->]. reflexivity.
  - destruct s as [|b s]; [discriminate|]. cbn [stripPrefix].
    destruct (Ascii.eqb a b); [|discriminate]. intros H.
    cbn [String.length]. rewrite (IH s H). reflexivity.
Qed.

(** A match of the outer expression is not empty: the rest is shorter. *)
Lemma outerAt_shorter (s m r : string) :
  outerAt s = Some (m, r) -> String.length r < String.length s.
Proof.
  unfold outerAt. destruct (stripPrefix "url(" s) as [t|] eqn:P; [|discriminate].
  destruct (untilClose t) as [[m' r']|] eqn:U; [|discriminate].
  intros [= <- <-]. apply stripPrefix_length in P. apply untilClose_length in U.
  cbn [String.length] in P. lia.
Qed.

(** Fuel beyond the length of the string changes nothing. *)
Lemma replaceFrom_enough (cb : string -> string) (n : nat) :
  forall m s, String.length s <= n -> String.length s <= m ->
    replaceFrom n s cb = replaceFrom m s cb.
Proof.
  induction n as [|n IH]; intros m s Hn Hm.
  - destruct s; [|cbn in Hn; lia]. destruct m; reflexivity.
  - destruct m as [|m].
    + destruct s; [reflexivity|cbn in Hm; lia].
    + cbn [replaceFrom]. destruct (outerAt s) as [[mt r]|] eqn:O.
      * apply outerAt_shorter in O. rewrite (IH m r); [reflexivity|lia|lia].
      * destruct s as [|c t]; [reflexivity|]. cbn [String.length] in *.
        rewrite (IH m t); [reflexivity|lia|lia].
Qed.

Lemma replaceAll_match (cb : string -> string) (s m r : string) :
  outerAt s = Some (m, r) -> replaceAll s cb = cb m ++ replaceAll r cb.
Proof.
  intros O. unfold replaceAll. pose proof (outerAt_shorter s m r O) as L.
  destruct (String.length s) as [|n] eqn:E; [lia|].
  cbn [replaceFrom]. rewrite O.
  rewrite (replaceFrom_enough cb n (String.length r) r); [reflexivity|lia|lia].
Qed.

Lemma replaceAll_skip (cb : string -> string) (c : ascii) (t : string) :
  outerAt (String c t) = None -> replaceAll (String c t) cb = String c (replaceAll t cb).
Proof.
  intros O. unfold replaceAll. cbn [String.length replaceFrom]. rewrite O. reflexivity.
Qed.

Lemma stripPrefix_prefix (p s : string) :
  String.prefix p s = false -> stripPrefix p s = None.
Proof.
  revert s. induction p as [|a p IH]; intros s; [destruct s; discriminate|].
  destruct s as [|b s]; [reflexivity|]. cbn [String.prefix stripPrefix].
  destruct (ascii_dec a b) as [->|N].
  - rewrite Ascii.eqb_refl. apply IH.
  - apply Ascii.eqb_neq in N. rewrite N. reflexivity.
Qed.

(** Text without the letters url and an opening parenthesis is left as it
    is. *)
Lemma replaceAll_plain (cb : string -> string) (s : string) :
  JS.includes s "url(" = false -> replaceAll s cb = s.
Proof.
  induction s as [|c t IH]; [reflexivity|].
  cbn [JS.includes]. intros H. apply orb_false_iff in H as [H1 H2].
  rewrite replaceAll_skip.
  - rewrite (IH H2). reflexivity.
  - unfold outerAt. rewrite (stripPrefix_prefix _ _ H1). reflexivity.
Qed.

Lemma untilClose_app (content post : string) :
  noClose content = true ->
  untilClose (content ++ String ")" post) = Some (content, post).
Proof.
  induction content as [|c t IH]; [reflexivity|].
  cbn [noClose append untilClose]. intros H. apply andb_true_iff in H as [H1 H2].
  apply negb_true_iff in H1. rewrite H1, (IH H2). reflexivity.
Qed.

(** The outer expression matches a token at the head of a string, up to
    its first closing parenthesis. *)
Lemma outerAt_token (content post : string) :
  noClose content = true ->
  outerAt ("url(" ++ content ++ ")" ++ post) = Some ("url(" ++ content ++ ")", post).
Proof.
  intros H. unfold outerAt. 
  rewrite (stripPrefix_app "url(" _).
  change (content ++ ")" ++ post) with (content ++ String ")" post).
  rewrite (untilClose_app content post H). reflexivity.
Qed.

Lemma spanUrlChars_app (u : string) (c : ascii) (r : string) :
  urlChars u = true -> isUrlChar c = false ->
  spanUrlChars (u ++ String c r) = (u, String c r).
Proof.
  intros Hu Hc. induction u as [|a u IH].
  - cbn [append spanUrlChars]. rewrite Hc. reflexivity.
  - cbn [urlChars] in Hu. apply andb_true_iff in Hu as [Ha Hu].
    cbn [append spanUrlChars]. rewrite Ha, (IH Hu). reflexivity.
Qed.

Lemma close_not_urlChar : isUrlChar ")" = false.
Proof. reflexivity. Qed.

Lemma quote_not_urlChar (c : ascii) : isQuote c = true -> isUrlChar c = false.
Proof. unfold isUrlChar. intros ->. reflexivity. Qed.

Lemma quote_not_close (c : ascii) : isQuote c = true -> Ascii.eqb c ")" = false.
Proof.
  intros H. destruct (Ascii.eqb c ")") eqn:E; [|reflexivity].
  apply Ascii.eqb_eq in E. subst c. discriminate H.
Qed.

(** The capture group followed by an optional quote and the closing
    parenthesis. *)
Lemma captureAt_group (u q r : string) :
  u <> EmptyString -> urlChars u = true -> optionalQuote q ->
  captureAt (u ++ q ++ String ")" r) = Some u.
Proof.
  intros Hne Hu [->|[c [Hc ->]]]; unfold captureAt.
  - cbn [append]. rewrite (spanUrlChars_app u ")" r Hu close_not_urlChar).
    destruct u; [congruence|]. cbn. reflexivity.
  - cbn [append]. rewrite (spanUrlChars_app u c _ Hu (quote_not_urlChar c Hc)).
    destruct u; [congruence|]. rewrite (quote_not_close c Hc), Hc. reflexivity.
Qed.

(** The inner expression matches a token whose content is an optionally
    quoted run of the capture class, and captures the run. *)
Lemma innerAt_token (q1 u q2 r : string) :
  u <> EmptyString -> urlChars u = true -> optionalQuote q1 -> optionalQuote q2 ->
  innerAt ("url(" ++ q1 ++ u ++ q2 ++ String ")" r) = Some u.
Proof.
  intros Hne Hu [->|[c [Hc ->]]] H2; unfold innerAt; rewrite (stripPrefix_app "url(" _).
  - cbn [append]. destruct u as [|a u'] eqn:E; [congruence|]. rewrite <- E.
    assert (Ha : isQuote a = false).
    { cbn [urlChars] in Hu. apply andb_true_iff in Hu as [Ha _].
      unfold isUrlChar in Ha. apply negb_true_iff, orb_false_iff in Ha. tauto. }
    replace (u ++ q2 ++ String ")" r) with (String a (u' ++ q2 ++ String ")" r))
      by (rewrite E; reflexivity).
    rewrite Ha. replace (String a (u' ++ q2 ++ String ")" r)) with (u ++ q2 ++ String ")" r)
      by (rewrite E; reflexivity).
    apply captureAt_group; [congruence|rewrite E; exact Hu|exact H2].
  - cbn [append]. rewrite Hc, (captureAt_group u q2 r Hne Hu H2). reflexivity.
Qed.

Lemma matchInner_head (m u : string) : innerAt m = Some u -> matchInner m = Some u.
Proof. intros H. destruct m; cbn [matchInner]; rewrite H; reflexivity. Qed.

Lemma noClose_app (a b : string) : noClose (a ++ b) = noClose a && noClose b.
Proof.
  induction a as [|c a IH]; [reflexivity|]. cbn [append noClose].
  rewrite IH, andb_assoc. reflexivity.
Qed.

Lemma urlChars_noClose (u : string) : urlChars u = true -> noClose u = true.
Proof.
  induction u as [|c u IH]; [reflexivity|]. cbn [urlChars noClose].
  intros H. apply andb_true_iff in H as [Hc Hu]. rewrite (IH Hu), andb_true_r.
  unfold isUrlChar in Hc. apply negb_true_iff, orb_false_iff in Hc.
  apply negb_true_iff. tauto.
Qed.

Lemma optionalQuote_noClose (q : string) : optionalQuote q -> noClose q = true.
Proof.
  intros [->|[c [Hc ->]]]; [reflexivity|]. cbn [noClose].
  rewrite (quote_not_close c Hc). reflexivity.
Qed.

Section Style.

Variable rt : Runtime.
Variables proxyBase baseUrl : string.

(** A character that opens no token is copied. *)
Lemma style_skip (c : ascii) (t : string) :
  String.prefix "url(" (String c t) = false ->
  rewriteStyleUrls rt (String c t) proxyBase baseUrl =
  String c (rewriteStyleUrls rt t proxyBase baseUrl).
Proof.
  intros H. unfold rewriteStyleUrls. apply replaceAll_skip.
  unfold outerAt. rewrite (stripPrefix_prefix _ _ H). reflexivity.
Qed.

(** Text without a token is left as it is. *)
Lemma style_plain (s : string) :
  JS.includes s "url(" = false -> rewriteStyleUrls rt s proxyBase baseUrl = s.
Proof. apply replaceAll_plain. Qed.

(** A token at the head of the text, with an optionally quoted URL of the
    capture class: replaced when the URL resolves, kept otherwise; the scan
    goes on behind it. *)
Lemma style_token (q1 u q2 post : string) :
  u <> EmptyString -> urlChars u = true -> optionalQuote q1 -> optionalQuote q2 ->
  rewriteStyleUrls rt ("url(" ++ (q1 ++ u ++ q2) ++ ")" ++ post) proxyBase baseUrl =
  match proxied rt proxyBase baseUrl u with
  | Some p => "url(" ++ p ++ ")"
  | None => "url(" ++ (q1 ++ u ++ q2) ++ ")"
  end ++ rewriteStyleUrls rt post proxyBase baseUrl.
Proof.
  intros Hne Hu H1 H2. unfold rewriteStyleUrls.
  assert (C : noClose (q1 ++ u ++ q2) = true).
  { rewrite !noClose_app, (optionalQuote_noClose q1 H1), (optionalQuote_noClose q2 H2),
      (urlChars_noClose u Hu). reflexivity. }
  rewrite (replaceAll_match _ _ _ _ (outerAt_token (q1 ++ u ++ q2) post C)).
  unfold styleCallback at 1.
  assert (M : matchInner ("url(" ++ (q1 ++ u ++ q2) ++ ")") = Some u).
  { apply matchInner_head.
    replace ("url(" ++ (q1 ++ u ++ q2) ++ ")")
      with ("url(" ++ q1 ++ u ++ q2 ++ String ")" EmptyString).
    - apply innerAt_token; assumption.
    - rewrite !append_assoc. reflexivity. }
  rewrite M. reflexivity.
Qed.

(** A token the inner expression does not match anywhere is kept. *)
Lemma style_unmatched (content post : string) :
  noClose content = true ->
  matchInner ("url(" ++ content ++ ")") = None ->
  rewriteStyleUrls rt ("url(" ++ content ++ ")" ++ post) proxyBase baseUrl =
  ("url(" ++ content ++ ")") ++ rewriteStyleUrls rt post proxyBase baseUrl.
Proof.
  intros Hc Hm. unfold rewriteStyleUrls.
  rewrite (replaceAll_match _ _ _ _ (outerAt_token content post Hc)).
  unfold styleCallback at 1. rewrite Hm. reflexivity.
Qed.

End Style.

End StyleFacts.

(** ** The two regular expressions and the scanners *)

Module RegexFacts.
Import StyleFacts.

Lemma stripPrefix_inv (p s t : string) : stripPrefix p s = Some t -> s = p ++ t.
Proof.
  revert s. induction p as [|a p IH]; intros s.
  - cbn. intros [= ->]. reflexivity.
  - destruct s as [|b s]; [discriminate|]. cbn [stripPrefix].
    destruct (Ascii.eqb a b) eqn:E; [|discriminate]. apply Ascii.eqb_eq in E. subst b.
    intros H. cbn [append]. rewrite (IH s H). reflexivity.
Qed.

Lemma untilClose_inv (s content r : string) :
  untilClose s = Some (content, r) ->
  noClose content = true /\ s = content ++ String ")" r.
Proof.
  revert content r. induction s as [|c t IH]; intros content r; [discriminate|].
  cbn [untilClose]. destruct (Ascii.eqb c ")") eqn:E.
  - intros [= <- <-]. apply Ascii.eqb_eq in E. subst c. split; reflexivity.
  - destruct (untilClose t) as [[m' r']|]; [|discriminate].
    intros [= <- <-]. destruct (IH m' r' eq_refl) as [N ->].
    cbn [noClose append]. rewrite E, N. split; reflexivity.
Qed.

(** What the outer expression matches at the head of a string is a token:
    the letters url, a parenthesised content without closing parenthesis. *)
Lemma outerAt_inv (s m r : string) :
  outerAt s = Some (m, r) ->
  exists content,
    noClose content = true /\ m = "url(" ++ content ++ ")" /\ s = m ++ r.
Proof.
  unfold outerAt. destruct (stripPrefix "url(" s) as [t|] eqn:P; [|discriminate].
  destruct (untilClose t) as [[content r']|] eqn:U; [|discriminate].
  intros [= <- <-]. apply stripPrefix_inv in P. apply untilClose_inv in U as [N ->].
  exists content. split; [exact N|]. split; [reflexivity|].
  rewrite P. cbn [append]. do 4 f_equal. rewrite append_assoc. reflexivity.
Qed.

Lemma spanUrlChars_inv (s u r : string) :
  spanUrlChars s = (u, r) ->
  urlChars u = true /\ s = u ++ r /\
  match r with String c _ => isUrlChar c = false | EmptyString => True end.
Proof.
  revert u r. induction s as [|c t IH]; intros u r.
  - cbn. intros [= <- <-]. repeat split.
  - cbn [spanUrlChars]. destruct (isUrlChar c) eqn:E.
    + destruct (spanUrlChars t) as [u' r'] eqn:S. intros [= <- <-].
      destruct (IH u' r' eq_refl) as [U [-> R]].
      cbn [urlChars append]. rewrite E, U. repeat split. exact R.
    + intros [= <- <-]. repeat split. exact E.
Qed.

Lemma captureAt_inv (s u : string) :
  captureAt s = Some u ->
  exists q r,
    optionalQuote q /\ u <> EmptyString /\ urlChars u = true /\
    s = u ++ q ++ String ")" r.
Proof.
  unfold captureAt. destruct (spanUrlChars s) as [u' r0] eqn:S.
  apply spanUrlChars_inv in S as [U [-> R]].
  destruct u' as [|a u']; [discriminate|].
  destruct r0 as [|c r']; [discriminate|].
  destruct (Ascii.eqb c ")") eqn:E.
  - intros [= <-]. apply Ascii.eqb_eq in E. subst c.
    exists EmptyString, r'. split; [left; reflexivity|]. repeat split; [discriminate|exact U].
  - destruct (isQuote c) eqn:Q; [|discriminate].
    destruct r' as [|c' r'']; [discriminate|].
    destruct (Ascii.eqb c' ")") eqn:E'; [|discriminate].
    intros [= <-]. apply Ascii.eqb_eq in E'. subst c'.
    exists (String c EmptyString), r''. split; [right; exists c; split; [exact Q|reflexivity]|].
    repeat split; [discriminate|exact U].
Qed.

(** What the inner expression matches at the head of a string: the letters
    url, an opening parenthesis, an optional quote, the captured run, an
    optional quote, a closing parenthesis. *)
Lemma innerAt_inv (s u : string) :
  innerAt s = Some u ->
  exists q1 q2 r,
    optionalQuote q1 /\ optionalQuote q2 /\ u <> EmptyString /\ urlChars u = true /\
    s = "url(" ++ q1 ++ u ++ q2 ++ String ")" r.
Proof.
  unfold innerAt. destruct (stripPrefix "url(" s) as [t|] eqn:P; [|discriminate].
  apply stripPrefix_inv in P. subst s.
  destruct t as [|c t']; [discriminate|].
  assert (Plain : captureAt (String c t') = Some u ->
                  exists q1 q2 r,
                    optionalQuote q1 /\ optionalQuote q2 /\ u <> EmptyString /\
                    urlChars u = true /\
                    "url(" ++ String c t' = "url(" ++ q1 ++ u ++ q2 ++ String ")" r).
  { intros H. destruct (captureAt_inv _ _ H) as [q [r [Hq [Hne [Hu E]]]]].
    exists EmptyString, q, r. split; [left; reflexivity|]. rewrite E. repeat split; assumption. }
  destruct (isQuote c) eqn:Q; [|exact Plain].
  destruct (captureAt t') as [u'|] eqn:C; [|exact Plain].
  intros [= ->]. destruct (captureAt_inv _ _ C) as [q [r [Hq [Hne [Hu E]]]]].
  exists (String c EmptyString), q, r.
  split; [right; exists c; split; [exact Q|reflexivity]|]. rewrite E.
  repeat split; assumption.
Qed.

(** The inner expression is searched for: it matches at the head of a
    suffix of the string. *)
Lemma matchInner_inv (m u : string) :
  matchInner m = Some u -> exists pre rest, m = pre ++ rest /\ innerAt rest = Some u.
Proof.
  induction m as [|c t IH]; cbn [matchInner].
  - destruct (innerAt EmptyString) eqn:E; [|discriminate].
    intros [= ->]. exists EmptyString, EmptyString. split; [reflexivity|exact E].
  - destruct (innerAt (String c t)) eqn:E.
    + intros [= ->]. exists EmptyString, (String c t). split; [reflexivity|exact E].
    + intros H. destruct (IH H) as [pre [rest [-> I]]].
      exists (String c pre), rest. split; [reflexivity|exact I].
Qed.

End RegexFacts.

(** The content of the token below is not an optionally quoted run of
    the capture class. *)
Lemma nested_content_malformed :
  ~ exists q1 u q2,
      optionalQuote q1 /\ optionalQuote q2 /\ urlChars u = true /\
      "'a'url(/b" = q1 ++ u ++ q2.
Proof.
  intros [q1 [u [q2 [H1 [H2 [Hu E]]]]]].
  assert (Q : forall s c1 c2 r, s = String c1 (String c2 r) -> ~ optionalQuote s).
  { intros s c1 c2 r -> [H|[c [_ H]]]; discriminate H. }
  destruct H1 as [->|[c [Hc ->]]]; cbn [append] in E.
  - destruct u as [|a u]; cbn [append] in E.
    + exact (Q q2 _ _ _ (eq_sym E) H2).
    + injection E as <- _. discriminate Hu.
  - injection E as <- E. destruct u as [|a u]; cbn [append] in E.
    + exact (Q q2 _ _ _ (eq_sym E) H2).
    + injection E as <- E. destruct u as [|b u]; cbn [append] in E.
      * exact (Q q2 _ _ _ (eq_sym E) H2).
      * injection E as <- _. discriminate Hu.
Qed.

(** C9: the token whose content is a quoted letter followed by a second
    [url(] is one match of the outer expression and is not an optionally
    quoted URL; the inner expression, which has no anchor, fails at the
    head of the token and matches behind the quoted letter, and the whole
    token is replaced by the rewriting of what was captured there. *)
Theorem unanchored_inner_match (rt : Runtime) (proxyBase baseUrl : string) :
  outerAt "url('a'url(/b)" = Some ("url('a'url(/b)", EmptyString) /\
  innerAt "url('a'url(/b)" = None /\
  matchInner "url('a'url(/b)" = Some "/b" /\
  rewriteStyleUrls rt "url('a'url(/b)" proxyBase baseUrl =
  match proxied rt proxyBase baseUrl "/b" with
  | Some p => "url(" ++ p ++ ")"
  | None => "url('a'url(/b)"
  end.
Proof.
  repeat split; try reflexivity.
  unfold rewriteStyleUrls, replaceAll. cbn [String.length replaceFrom].
  change (outerAt "url('a'url(/b)") with (Some ("url('a'url(/b)", EmptyString)).
  cbv iota. unfold styleCallback.
  change (matchInner "url('a'url(/b)") with (Some "/b").
  cbn [replaceFrom]. change (outerAt EmptyString) with (@None (string * string)).
  cbv iota. destruct (proxied rt proxyBase baseUrl "/b");
    [apply StyleFacts.append_nil_r|reflexivity].
Qed.

(** The same on the sample runtime, where a well-formed token is
    rewritten and a padded one is kept. *)
Example style_sample :
  rewriteStyleUrls Sample.runtime "url('a'url(/b)" "https://proxy.example/p/"
    "https://example.com/" =
  "url(https://proxy.example/p/https%3A%2F%2Fexample.com%2Fb)" /\
  rewriteStyleUrls Sample.runtime "x: url('/a.png'), url( '/c' ) url()"
    "https://proxy.example/p/" "https://example.com/" =
  "x: url(https://proxy.example/p/https%3A%2F%2Fexample.com%2Fa.png), url( '/c' ) url()".
Proof. split; reflexivity. Qed.


(** ** More on the handler *)

Module RunFacts.

(** A relay ends with a response, after the version lookup alone or after
    it and one upstream request. *)
Lemma relay_ends (rt : Runtime) (context : Context) (t : string) :
  exists resp tr,
    relayOutcome rt context t = (Normal resp, tr) /\
    (tr = [versionFetch (origin_of (req_url (ctx_request context)))] \/
     exists proxyReq,
       tr = [versionFetch (origin_of (req_url (ctx_request context)));
             FetchRequest proxyReq]).
Proof.
  unfold relayOutcome.
  destruct (buildOutgoingHeaders _ t) as [outgoing|e]; [|eauto].
  destruct (String.eqb _ "OPTIONS"); [eauto|].
  destruct (newRequest rt t _ outgoing _) as [r|e]; [|eauto].
  destruct (fetch rt (FetchRequest r)); eauto 6.
Qed.

(** The response of a relay is not the text response of a 400. *)
Lemma relay_not_400 (rt : Runtime) (context : Context) (t msg : string) (tr : Trace) :
  relayOutcome rt context t <> (Normal (textResponse msg 400), tr).
Proof.
  unfold relayOutcome.
  destruct (buildOutgoingHeaders _ t) as [outgoing|e]; [|discriminate].
  destruct (String.eqb _ "OPTIONS");
    [destruct (settable (appVersion rt _)); discriminate|].
  destruct (newRequest rt t _ outgoing _) as [r|e]; [|discriminate].
  destruct (fetch rt (FetchRequest r)) as [a|e]; [|discriminate].
  destruct (reportable _ _ r a); [|discriminate].
  intros H. injection H as H _.
  exact (ResponseFacts.carries_not_text _ _ _ _ (ResponseFacts.relayed_carries _ _ _ _ _) H).
Qed.

End RunFacts.

(** X1: the handler answers with the 400 response of a missing target
    exactly when the route parameter is absent or empty, whatever the
    method; nothing is fetched then. *)
Theorem missing_target_iff (rt : Runtime) (context : Context) :
  (exists tr,
      run (onRequest rt context) = (Normal (textResponse "Missing target URL" 400), tr)) <->
  (ctx_target context = None \/ ctx_target context = Some EmptyString).
Proof.
  split.
  - intros [tr H].
    destruct (HandlerFacts.run_cases rt context)
      as [[_ E]|[(p & _ & _ & _ & E)|[(p & t & _ & _ & _ & _ & E)|
          (p & t & _ & _ & _ & _ & E)]]]; [exact E| | |]; rewrite E in H.
    + discriminate H.
    + discriminate H.
    + destruct (RunFacts.relay_not_400 rt context t _ _ H).
  - intros [H|H]; rewrite onRequest_outcome; unfold outcome; rewrite H; eexists;
      reflexivity.
Qed.

(** X2: the only error that leaves the handler is the [URIError] of a
    parameter that does not percent-decode; it leaves before anything is
    fetched. *)
Theorem only_decode_error_escapes (rt : Runtime) (context : Context) (e : Exn)
  (tr : Trace) :
  run (onRequest rt context) = (Thrown e, tr) ->
  e = mkExn "URIError" "URI malformed" /\ tr = [] /\
  exists targetParam,
    ctx_target context = Some targetParam /\
    URI.decodeURIComponent targetParam = None.
Proof.
  intros H.
  destruct (HandlerFacts.run_cases rt context)
    as [[E _]|[(p & Hp & _ & Hd & E)|[(p & t & _ & _ & _ & _ & E)|
        (p & t & _ & _ & _ & _ & E)]]]; rewrite E in H.
  - discriminate H.
  - injection H as <- <-. repeat split. exists p. split; [exact Hp|exact Hd].
  - discriminate H.
  - destruct (RunFacts.relay_ends rt context t) as (resp & tr' & R & _).
    rewrite R in H. discriminate H.
Qed.

Lemma only_decode_error_escapes_witness :
  mkExn "URIError" "URI malformed" = mkExn "URIError" "URI malformed" /\
  @nil FetchInput = [] /\
  exists targetParam,
    ctx_target (Sample.get (Some "100%")) = Some targetParam /\
    URI.decodeURIComponent targetParam = None.
Proof.
  apply (only_decode_error_escapes Sample.runtime (Sample.get (Some "100%"))).
  reflexivity.
Defined.

(** X3: when the upstream [fetch] fails, the answer is the 502 response
    whose body holds the message of the error and the decoded target; the
    upstream [fetch] was tried once, after the version lookup. *)
Theorem upstream_failure_502 (rt : Runtime) (context : Context)
  (targetParam targetUrl : string) (proxyReq : ProxyRequest) (e : Exn) :
  ctx_target context = Some targetParam ->
  JS.truthy targetParam = true ->
  URI.decodeURIComponent targetParam = Some targetUrl ->
  JS.startsWith targetUrl (origin_of (req_url (ctx_request context))) = false ->
  String.eqb (req_method (ctx_request context)) "OPTIONS" = false ->
  upstreamRequest rt (ctx_request context) targetUrl = Normal proxyReq ->
  fetch rt (FetchRequest proxyReq) = Thrown e ->
  run (onRequest rt context) =
    (Normal (mkResponse 502 EmptyString [("content-type", "text/plain;charset=UTF-8")]
               (BodyText ("Proxy failed: " ++ exn_message e ++ JS.LF ++ JS.LF ++
                          "Target: " ++ targetUrl))),
     [FetchUrl (origin_of (req_url (ctx_request context)) ++ "/VERSION");
      FetchRequest proxyReq]).
Proof.
  intros Hp Ht Hd Hs Hm Hu Hf.
  rewrite (HandlerFacts.relay_outcome rt context _ _ Hp Ht Hd Hs).
  unfold relayOutcome, upstreamRequest in *.
  destruct (buildOutgoingHeaders _ targetUrl) as [outgoing|e']; [|discriminate Hu].
  rewrite Hm, Hu, Hf. reflexivity.
Qed.

Lemma upstream_failure_502_witness :
  run (onRequest Sample.runtime (Sample.get (Some "https%3A%2F%2Fexample.com%2Fgone"))) =
    (Normal (mkResponse 502 EmptyString [("content-type", "text/plain;charset=UTF-8")]
               (BodyText ("Proxy failed: " ++ "fetch failed" ++ JS.LF ++ JS.LF ++
                          "Target: " ++ "https://example.com/gone"))),
     [FetchUrl (origin_of (req_url (ctx_request (Sample.get None))) ++ "/VERSION");
      FetchRequest
        (mkProxyRequest "https://example.com/gone" "GET"
           (Headers.copy (Sample.outgoing "https://example.com/gone")) None "follow")]).
Proof.
  apply (upstream_failure_502 Sample.runtime
           (Sample.get (Some "https%3A%2F%2Fexample.com%2Fgone"))
           "https%3A%2F%2Fexample.com%2Fgone" "https://example.com/gone"
           _ (mkExn "TypeError" "fetch failed")); reflexivity.
Defined.

(** X4: for inbound headers that are a header list, a target outside the
    origin that is a value a header takes and that parses, and a method
    other than OPTIONS that the [Request] constructor takes with the body,
    the run issues one upstream request after the version lookup: to the
    parsed target, with the method, normalized, and the body of the inbound
    request, the entries of the outgoing headers and redirects followed. *)
Theorem upstream_request_shape (rt : Runtime) (context : Context)
  (targetParam targetUrl href : string) :
  ctx_target context = Some targetParam ->
  JS.truthy targetParam = true ->
  URI.decodeURIComponent targetParam = Some targetUrl ->
  JS.startsWith targetUrl (origin_of (req_url (ctx_request context))) = false ->
  String.eqb (req_method (ctx_request context)) "OPTIONS" = false ->
  wellFormed (req_headers (ctx_request context)) = true ->
  settable targetUrl = true ->
  sendable (req_method (ctx_request context)) (req_body (ctx_request context)) = true ->
  URL_parse rt targetUrl None = Normal href ->
  exists outgoingHeaders,
    buildOutgoingHeaders (req_headers (ctx_request context)) targetUrl =
      Normal outgoingHeaders /\
    snd (run (onRequest rt context)) =
      [FetchUrl (origin_of (req_url (ctx_request context)) ++ "/VERSION");
       FetchRequest
         (mkProxyRequest href (normalizeMethod (req_method (ctx_request context)))
            (Headers.copy outgoingHeaders) (req_body (ctx_request context)) "follow")].
Proof.
  intros Hp Ht Hd Hs Hm W T S Hu.
  rewrite (HandlerFacts.relay_outcome rt context _ _ Hp Ht Hd Hs). unfold relayOutcome.
  rewrite (OutgoingFacts.build_wellFormed _ targetUrl W), T, Hm.
  eexists. split; [reflexivity|].
  rewrite (HandlerFacts.newRequest_sendable rt _ _ _ _ href Hu S).
  destruct (fetch rt _); reflexivity.
Qed.

Lemma upstream_request_shape_witness :
  exists outgoingHeaders,
    buildOutgoingHeaders [("Content-Type", "text/plain")] "https://example.com/" =
      Normal outgoingHeaders /\
    snd (run (onRequest Sample.runtime
                (mkContext (mkRequest "POST" Sample.proxyUrl [("Content-Type", "text/plain")]
                              (Some "payload"))
                   (Some "https%3A%2F%2Fexample.com%2F")))) =
      [FetchUrl "https://proxy.example/VERSION";
       FetchRequest
         (mkProxyRequest "https://example.com/" "POST" (Headers.copy outgoingHeaders)
            (Some "payload") "follow")].
Proof.
  apply (upstream_request_shape Sample.runtime
           (mkContext (mkRequest "POST" Sample.proxyUrl [("Content-Type", "text/plain")]
                         (Some "payload"))
              (Some "https%3A%2F%2Fexample.com%2F"))
           "https%3A%2F%2Fexample.com%2F" "https://example.com/" "https://example.com/");
    reflexivity.
Defined.

(** X5: a run fetches nothing, or the VERSION file of its own origin, or
    that file and then one upstream request; nothing is fetched twice. *)
Theorem fetch_trace_shape (rt : Runtime) (context : Context) :
  snd (run (onRequest rt context)) = [] \/
  snd (run (onRequest rt context)) =
    [FetchUrl (origin_of (req_url (ctx_request context)) ++ "/VERSION")] \/
  exists proxyReq,
    snd (run (onRequest rt context)) =
      [FetchUrl (origin_of (req_url (ctx_request context)) ++ "/VERSION");
       FetchRequest proxyReq].
Proof.
  destruct (HandlerFacts.run_cases rt context)
    as [[E _]|[(p & _ & _ & _ & E)|[(p & t & _ & _ & _ & _ & E)|
        (p & t & _ & _ & _ & _ & E)]]]; rewrite E; try (left; reflexivity).
  destruct (RunFacts.relay_ends rt context t) as (resp & tr & R & [->|[r ->]]);
    rewrite R; [right; left; reflexivity|right; right; exists r; reflexivity].
Qed.

(** ** More on the relayed responses *)

Module RelayFacts.
Import HeadersFacts.





End RelayFacts.





(** ** More on the rewriter *)

Module RewriterFacts.

(** The four registrations, one after the other. *)
Lemma runHandlers_steps (rt : Runtime) (proxyBase baseUrl : string) (e : Element) :
  runHandlers (htmlRewriter rt proxyBase baseUrl) e =
  let e1 := if matchesAny linkSelectors e then linkHandler rt proxyBase baseUrl e else e in
  let e2 :=
    if matchesAny [AnyAttr "style"] e then styleHandler rt proxyBase baseUrl e1 else e1 in
  let e3 := if matchesAny cspSelectors e then remove e2 else e2 in
  if matchesAny baseSelectors e then remove e3 else e3.
Proof. reflexivity. Qed.

Lemma find_names (l : list (string * string)) (n : string) :
  In n (map fst l) <-> exists a, find (fun a => String.eqb (fst a) n) l = Some a.
Proof.
  induction l as [|[k w] r IH]; cbn [map find fst In].
  - split; [intros []|intros [a H]; discriminate H].
  - destruct (String.eqb k n) eqn:E.
    + split; [intros _; eexists; reflexivity|intros _; left; apply String.eqb_eq; exact E].
    + rewrite <- IH. apply String.eqb_neq in E. tauto.
Qed.

Lemma hasAttribute_names (e : Element) (n : string) :
  hasAttribute e n = true <-> In n (attributeNames e).
Proof.
  unfold hasAttribute, getAttribute, attributeNames. rewrite find_names.
  destruct (find _ (attributes e)) as [a|]; cbn [option_map].
  - split; [intros _; exists a; reflexivity|reflexivity].
  - split; [discriminate|intros [a H]; discriminate H].
Qed.

Lemma hasAttribute_same_names (a b : Element) (n : string) :
  attributeNames a = attributeNames b -> hasAttribute a n = hasAttribute b n.
Proof.
  intros H. destruct (hasAttribute a n) eqn:A.
  - symmetry. apply hasAttribute_names. rewrite <- H. apply hasAttribute_names. exact A.
  - destruct (hasAttribute b n) eqn:B; [|reflexivity].
    apply hasAttribute_names in B. rewrite <- H in B. apply hasAttribute_names in B.
    congruence.
Qed.

Lemma setAttr_names (l : list (string * string)) (n v : string) :
  In n (map fst l) -> map fst (setAttr l n v) = map fst l.
Proof.
  induction l as [|[k w] r IH]; [intros []|].
  cbn [map fst In setAttr]. intros H. destruct (String.eqb k n) eqn:E; [reflexivity|].
  cbn [map fst]. rewrite IH; [reflexivity|].
  apply String.eqb_neq in E. destruct H as [H|H]; [contradiction|exact H].
Qed.

Lemma setAttribute_names (e : Element) (n v : string) :
  hasAttribute e n = true -> attributeNames (setAttribute e n v) = attributeNames e.
Proof.
  intros H. apply hasAttribute_names in H. unfold attributeNames, setAttribute.
  cbn [attributes]. apply setAttr_names. exact H.
Qed.

Lemma linkHandler_shape (rt : Runtime) (proxyBase baseUrl : string) (e : Element) :
  tagName (linkHandler rt proxyBase baseUrl e) = tagName e /\
  attributeNames (linkHandler rt proxyBase baseUrl e) = attributeNames e /\
  removed (linkHandler rt proxyBase baseUrl e) = removed e.
Proof.
  unfold linkHandler. destruct (chosenAttribute e) as [attr|]; [|repeat split].
  destruct (getAttribute e attr) as [value|] eqn:G; [|repeat split].
  destruct (negb (JS.truthy value)); [repeat split|].
  destruct (proxied rt proxyBase baseUrl value); [|repeat split].
  repeat split. apply setAttribute_names. unfold hasAttribute. rewrite G. reflexivity.
Qed.

Lemma styleHandler_shape (rt : Runtime) (proxyBase baseUrl : string) (e : Element) :
  hasAttribute e "style" = true ->
  tagName (styleHandler rt proxyBase baseUrl e) = tagName e /\
  attributeNames (styleHandler rt proxyBase baseUrl e) = attributeNames e /\
  removed (styleHandler rt proxyBase baseUrl e) = removed e.
Proof.
  intros H. unfold styleHandler. repeat split. apply setAttribute_names. exact H.
Qed.

Lemma matchesAny_style (e : Element) :
  matchesAny [AnyAttr "style"] e = hasAttribute e "style".
Proof. unfold matchesAny. cbn [existsb matches]. apply orb_false_r. Qed.

(** The attribute the first handler works on is one of three. *)
Lemma chosen_cases (e : Element) (n : string) :
  chosenAttribute e = Some n -> n = "action" \/ n = "href" \/ n = "src".
Proof.
  unfold chosenAttribute. destruct (String.eqb (tagName e) "form"); [intros [= <-]; auto|].
  destruct (hasAttribute e "href"); [intros [= <-]; auto|].
  destruct (hasAttribute e "src"); [intros [= <-]; auto|discriminate].
Qed.

(** The element after the first two registrations. *)
Lemma rewritten_shape (rt : Runtime) (proxyBase baseUrl : string) (e : Element) :
  tagName (runHandlers (htmlRewriter rt proxyBase baseUrl) e) = tagName e /\
  attributeNames (runHandlers (htmlRewriter rt proxyBase baseUrl) e) = attributeNames e /\
  removed (runHandlers (htmlRewriter rt proxyBase baseUrl) e) =
    removed e || matchesAny cspSelectors e || matchesAny baseSelectors e.
Proof.
  rewrite runHandlers_steps. cbv zeta.
  set (e1 := if matchesAny linkSelectors e then linkHandler rt proxyBase baseUrl e else e).
  assert (S1 : tagName e1 = tagName e /\ attributeNames e1 = attributeNames e /\
               removed e1 = removed e).
  { subst e1. destruct (matchesAny linkSelectors e);
      [apply linkHandler_shape|repeat split]. }
  destruct S1 as [T1 [N1 R1]].
  set (e2 := if matchesAny [AnyAttr "style"] e
             then styleHandler rt proxyBase baseUrl e1 else e1).
  assert (S2 : tagName e2 = tagName e /\ attributeNames e2 = attributeNames e /\
               removed e2 = removed e).
  { subst e2. destruct (matchesAny [AnyAttr "style"] e) eqn:M;
      [|repeat split; assumption].
    rewrite matchesAny_style in M.
    destruct (styleHandler_shape rt proxyBase baseUrl e1) as [T [N R]].
    - rewrite (hasAttribute_same_names e1 e "style" N1). exact M.
    - rewrite T, N, R. repeat split; assumption. }
  destruct S2 as [T2 [N2 R2]].
  unfold attributeNames in *.
  destruct (matchesAny cspSelectors e), (matchesAny baseSelectors e);
    cbn [remove tagName attributes removed];
    rewrite ?T2, ?N2, ?R2, ?orb_true_r, ?orb_false_r; repeat split.
Qed.

(** Outside the attribute the first handler chose and the style, the
    values stay. *)
Lemma rewritten_others (rt : Runtime) (proxyBase baseUrl : string) (e : Element)
  (n : string) :
  n <> "style" ->
  matchesAny linkSelectors e = false \/ chosenAttribute e <> Some n ->
  getAttribute (runHandlers (htmlRewriter rt proxyBase baseUrl) e) n = getAttribute e n.
Proof.
  intros Hn Hc. rewrite runHandlers_steps. cbv zeta.
  assert (L : getAttribute
                (if matchesAny linkSelectors e then linkHandler rt proxyBase baseUrl e else e)
                n = getAttribute e n).
  { destruct (matchesAny linkSelectors e); [|reflexivity].
    apply linkHandler_others. destruct Hc as [Hc|Hc]; [discriminate Hc|exact Hc]. }
  destruct (matchesAny [AnyAttr "style"] e), (matchesAny cspSelectors e),
    (matchesAny baseSelectors e);
    rewrite ?getAttribute_remove, ?(styleHandler_others _ _ _ _ n Hn); exact L.
Qed.

Lemma In_rewriteDocument (rt : Runtime) (proxyBase baseUrl : string) (doc : list Token)
  (e' : Element) :
  In (StartTag e') (rewriteDocument rt proxyBase baseUrl doc) ->
  exists e,
    In (StartTag e) doc /\
    e' = runHandlers (htmlRewriter rt proxyBase baseUrl) e /\ removed e' = false.
Proof.
  unfold rewriteDocument, transformTokens. rewrite in_flat_map.
  intros [t [Ht H]]. destruct t as [e|raw].
  - destruct (removed (runHandlers _ e)) eqn:R; [destruct H|].
    destruct H as [H|[]]. injection H as <-. exists e. repeat split; assumption.
  - destruct H as [H|[]]. discriminate H.
Qed.

End RewriterFacts.

(** X10: the rewriter keeps the tag name of every element and the names
    and the order of its attributes; it marks an element as removed exactly
    when the third or the fourth registration selects it: a [meta] with one
    of the two [http-equiv] values, or a [base] with an [href]. *)
Theorem handlers_keep_shape (rt : Runtime) (proxyBase baseUrl : string) (e : Element) :
  tagName (runHandlers (htmlRewriter rt proxyBase baseUrl) e) = tagName e /\
  map fst (attributes (runHandlers (htmlRewriter rt proxyBase baseUrl) e)) =
    map fst (attributes e) /\
  removed (runHandlers (htmlRewriter rt proxyBase baseUrl) e) =
    removed e ||
    matchesAny [TagAttrIs "meta" "http-equiv" "Content-Security-Policy";
                TagAttrIs "meta" "http-equiv" "content-security-policy"] e ||
    matchesAny [TagAttr "base" "href"] e.
Proof. apply RewriterFacts.rewritten_shape. Qed.

(** X11: no element of a rewritten document is a [base] with an [href] or
    a [meta] whose [http-equiv] is Content-Security-Policy, in whatever
    letter case, wherever and however often the document has them. *)
Theorem base_and_csp_removed (rt : Runtime) (proxyBase baseUrl : string)
  (doc : list Token) (e' : Element) :
  In (StartTag e') (rewriteDocument rt proxyBase baseUrl doc) ->
  matchesAny [TagAttr "base" "href"] e' = false /\
  matchesAny [TagAttrIs "meta" "http-equiv" "Content-Security-Policy";
              TagAttrIs "meta" "http-equiv" "content-security-policy"] e' = false.
Proof.
  intros H. destruct (RewriterFacts.In_rewriteDocument _ _ _ _ _ H) as [e [_ [-> R]]].
  destruct (RewriterFacts.rewritten_shape rt proxyBase baseUrl e) as [T [N Rm]].
  rewrite Rm in R. apply orb_false_iff in R as [R B]. apply orb_false_iff in R as [_ C].
  split.
  - transitivity (matchesAny baseSelectors e); [|exact B].
    unfold baseSelectors, matchesAny. cbn [existsb matches].
    rewrite T, (RewriterFacts.hasAttribute_same_names _ e "href" N). reflexivity.
  - transitivity (matchesAny cspSelectors e); [|exact C].
    unfold cspSelectors, matchesAny. cbn [existsb matches].
    rewrite T, RewriterFacts.rewritten_others; [reflexivity|discriminate|].
    right. intros E. apply RewriterFacts.chosen_cases in E.
    destruct E as [E|[E|E]]; discriminate E.
Qed.

Lemma base_and_csp_removed_witness :
  matchesAny [TagAttr "base" "href"] (mkElement "p" [("class", "x")] false) = false /\
  matchesAny [TagAttrIs "meta" "http-equiv" "Content-Security-Policy";
              TagAttrIs "meta" "http-equiv" "content-security-policy"]
    (mkElement "p" [("class", "x")] false) = false.
Proof.
  apply (base_and_csp_removed Sample.runtime "https://proxy.example/p/"
           "https://example.com/"
           [StartTag (mkElement "base" [("href", "/b/")] false);
            StartTag (mkElement "meta"
                        [("http-equiv", "Content-Security-Policy");
                         ("content", "default-src 'self'")] false);
            StartTag (mkElement "meta" [("http-equiv", "CONTENT-SECURITY-POLICY")] false);
            StartTag (mkElement "p" [("class", "x")] false);
            StartTag (mkElement "base" [("href", "/c/"); ("target", "_top")] false)]).
  vm_compute. left. reflexivity.
Defined.

(** X12: a document in which no element is selected by a registration
    leaves the rewriter as it came; a [meta] with another [http-equiv], a
    [base] without [href] and an [a] without [href] are such elements. *)
Theorem unselected_document_unchanged (rt : Runtime) (proxyBase baseUrl : string)
  (doc : list Token) :
  forallb untouched doc = true -> rewriteDocument rt proxyBase baseUrl doc = doc.
Proof.
  unfold rewriteDocument, transformTokens.
  induction doc as [|t doc IH]; [reflexivity|].
  cbn [forallb flat_map]. intros H. apply andb_true_iff in H as [Ht Hd].
  rewrite (IH Hd). destruct t as [e|raw]; [|reflexivity].
  cbn [untouched] in Ht. apply andb_true_iff in Ht as [Hr Hs].
  apply negb_true_iff in Hr, Hs. unfold selected in Hs.
  apply orb_false_iff in Hs as [Hs B]. apply orb_false_iff in Hs as [Hs C].
  apply orb_false_iff in Hs as [L S].
  rewrite RewriterFacts.runHandlers_steps. cbv zeta. rewrite L, S, C, B, Hr. reflexivity.
Qed.

Lemma unselected_document_unchanged_witness :
  rewriteDocument Sample.runtime "https://proxy.example/p/" "https://example.com/"
    [Other "<!doctype html>";
     StartTag (mkElement "meta" [("http-equiv", "refresh")] false);
     StartTag (mkElement "base" [("target", "_top")] false);
     StartTag (mkElement "a" [("name", "top")] false);
     Other "text"] =
    [Other "<!doctype html>";
     StartTag (mkElement "meta" [("http-equiv", "refresh")] false);
     StartTag (mkElement "base" [("target", "_top")] false);
     StartTag (mkElement "a" [("name", "top")] false);
     Other "text"].
Proof.
  apply (unselected_document_unchanged Sample.runtime). reflexivity.
Defined.


(** X14: the [style] attribute of every element, whatever its tag, leaves
    the rewriter as [rewriteStyleUrls] of its value, also on an element whose
    link attribute is rewritten. *)
Theorem style_attribute_rewritten (rt : Runtime) (proxyBase baseUrl : string)
  (e : Element) (style : string) :
  getAttribute e "style" = Some style ->
  getAttribute (runHandlers (htmlRewriter rt proxyBase baseUrl) e) "style" =
    Some (rewriteStyleUrls rt style proxyBase baseUrl).
Proof.
  intros G. rewrite RewriterFacts.runHandlers_steps. cbv zeta.
  assert (Hs : hasAttribute e "style" = true)
    by (unfold hasAttribute; rewrite G; reflexivity).
  rewrite RewriterFacts.matchesAny_style, Hs.
  assert (L : getAttribute
                (if matchesAny linkSelectors e then linkHandler rt proxyBase baseUrl e else e)
                "style" = Some style).
  { destruct (matchesAny linkSelectors e); [|exact G].
    rewrite linkHandler_others; [exact G|].
    intros E. apply RewriterFacts.chosen_cases in E.
    destruct E as [E|[E|E]]; discriminate E. }
  assert (S : getAttribute
                (styleHandler rt proxyBase baseUrl
                   (if matchesAny linkSelectors e
                    then linkHandler rt proxyBase baseUrl e else e)) "style" =
              Some (rewriteStyleUrls rt style proxyBase baseUrl)).
  { unfold styleHandler. rewrite L, ResponseFacts.orElse_empty.
    apply getAttribute_set_same. }
  destruct (matchesAny cspSelectors e), (matchesAny baseSelectors e);
    rewrite ?getAttribute_remove; exact S.
Qed.

Lemma style_attribute_rewritten_witness :
  getAttribute
    (runHandlers (htmlRewriter Sample.runtime "https://proxy.example/p/" "https://example.com/")
       (mkElement "a" [("href", "/page"); ("style", "background: url('/bg.png')")] false))
    "style" =
  Some (rewriteStyleUrls Sample.runtime "background: url('/bg.png')"
          "https://proxy.example/p/" "https://example.com/").
Proof.
  apply (style_attribute_rewritten Sample.runtime "https://proxy.example/p/"
           "https://example.com/"
           (mkElement "a" [("href", "/page"); ("style", "background: url('/bg.png')")] false)
           "background: url('/bg.png')").
  reflexivity.
Defined.


(** ** More on [rewriteStyleUrls] *)

Module StyleMore.
Import StyleFacts.

Lemma untilClose_noClose (s : string) : noClose s = true -> untilClose s = None.
Proof.
  induction s as [|c t IH]; [reflexivity|]. cbn [noClose untilClose].
  intros H. apply andb_true_iff in H as [Hc Ht]. apply negb_true_iff in Hc.
  rewrite Hc, (IH Ht). reflexivity.
Qed.

Lemma outerAt_noClose (s : string) : noClose s = true -> outerAt s = None.
Proof.
  intros H. unfold outerAt. destruct (stripPrefix "url(" s) as [t|] eqn:P; [|reflexivity].
  apply RegexFacts.stripPrefix_inv in P. subst s. rewrite noClose_app in H.
  apply andb_true_iff in H as [_ H]. rewrite (untilClose_noClose t H). reflexivity.
Qed.

Lemma replaceAll_noClose (cb : string -> string) (s : string) :
  noClose s = true -> replaceAll s cb = s.
Proof.
  induction s as [|c t IH]; [reflexivity|]. intros H.
  rewrite replaceAll_skip by (apply outerAt_noClose; exact H).
  cbn [noClose] in H. apply andb_true_iff in H as [_ H]. rewrite (IH H). reflexivity.
Qed.

(** The four letters of the outer expression cannot start in a text
    without them and end in a token behind it. *)
Lemma prefix_straddle (b y : string) :
  b <> EmptyString -> String.prefix "url(" b = false ->
  String.prefix "url(" (b ++ "url(" ++ y) = false.
Proof.
  intros Hne. destruct b as [|c1 [|c2 [|c3 [|c4 r]]]]; [congruence| | | |];
    cbn [append String.prefix];
    repeat match goal with
           | |- context [ascii_dec ?a ?b] =>
               destruct (ascii_dec a b) as [?E|?E]; [try discriminate E; subst|]
           end; try first [reflexivity | intros H; exact H | intros H; discriminate H].
  destruct r; intros H; discriminate H.
Qed.

Lemma rewrite_before_token (cb : string -> string) (pre y : string) :
  JS.includes pre "url(" = false ->
  replaceAll (pre ++ "url(" ++ y) cb = pre ++ replaceAll ("url(" ++ y) cb.
Proof.
  induction pre as [|c t IH]; [reflexivity|].
  cbn [JS.includes]. intros H. apply orb_false_iff in H as [H1 H2].
  change (String c t ++ "url(" ++ y) with (String c (t ++ "url(" ++ y)).
  rewrite replaceAll_skip.
  - rewrite (IH H2). reflexivity.
  - unfold outerAt. rewrite (stripPrefix_prefix "url(" (String c (t ++ "url(" ++ y))).
    + reflexivity.
    + apply (prefix_straddle (String c t) y); [discriminate|exact H1].
Qed.

End StyleMore.

(** X15: a style value without the letters url followed by an opening
    parenthesis, or without a closing parenthesis, is returned as it is; so
    is the empty value. *)
Theorem style_without_token_unchanged (rt : Runtime) (proxyBase baseUrl style : string) :
  JS.includes style "url(" = false \/ noClose style = true ->
  rewriteStyleUrls rt style proxyBase baseUrl = style.
Proof.
  intros [H|H]; unfold rewriteStyleUrls.
  - apply StyleFacts.replaceAll_plain. exact H.
  - apply StyleMore.replaceAll_noClose. exact H.
Qed.

Lemma style_without_token_unchanged_witness :
  rewriteStyleUrls Sample.runtime "color: red; background: url('/a.png'"
    "https://proxy.example/p/" "https://example.com/" =
  "color: red; background: url('/a.png'".
Proof.
  apply (style_without_token_unchanged Sample.runtime). right. reflexivity.
Defined.

(** X16: in a style value made of a text without token, a token whose
    content is a non-empty run without quotes and parentheses between
    optional quotes, and a rest, the text is kept, the token becomes [url(]
    the proxied URL [)] when the run resolves and stays as it is otherwise,
    and the rest is rewritten on its own. *)
Theorem style_first_token (rt : Runtime) (proxyBase baseUrl : string)
  (pre q1 u q2 post : string) :
  JS.includes pre "url(" = false ->
  u <> EmptyString -> urlChars u = true -> optionalQuote q1 -> optionalQuote q2 ->
  rewriteStyleUrls rt (pre ++ "url(" ++ (q1 ++ u ++ q2) ++ ")" ++ post) proxyBase baseUrl =
  pre ++
  match proxied rt proxyBase baseUrl u with
  | Some p => "url(" ++ p ++ ")"
  | None => "url(" ++ (q1 ++ u ++ q2) ++ ")"
  end ++ rewriteStyleUrls rt post proxyBase baseUrl.
Proof.
  intros Hp Hne Hu H1 H2. unfold rewriteStyleUrls.
  rewrite (StyleMore.rewrite_before_token _ pre _ Hp).
  f_equal. exact (StyleFacts.style_token rt proxyBase baseUrl q1 u q2 post Hne Hu H1 H2).
Qed.

Lemma style_first_token_witness :
  rewriteStyleUrls Sample.runtime
    ("color: blue; background: " ++ "url(" ++ ("'" ++ "/bg.png" ++ "'") ++ ")" ++ " no-repeat")
    "https://proxy.example/p/" "https://example.com/" =
  "color: blue; background: " ++
  match proxied Sample.runtime "https://proxy.example/p/" "https://example.com/" "/bg.png" with
  | Some p => "url(" ++ p ++ ")"
  | None => "url(" ++ ("'" ++ "/bg.png" ++ "'") ++ ")"
  end ++
  rewriteStyleUrls Sample.runtime " no-repeat" "https://proxy.example/p/"
    "https://example.com/".
Proof.
  apply (style_first_token Sample.runtime "https://proxy.example/p/" "https://example.com/"
           "color: blue; background: " "'" "/bg.png" "'" " no-repeat").
  - reflexivity.
  - discriminate.
  - reflexivity.
  - right. exists "'"%char. split; reflexivity.
  - right. exists "'"%char. split; reflexivity.
Defined.

(** ** The rewritten URL *)

Module SegmentFacts.

Lemma hexDigit_unreserved (n : nat) : n < 16 -> URI.isUnreserved (URI.hexDigit n) = true.
Proof. intros H. do 16 (destruct n as [|n]; [reflexivity|]). lia. Qed.

Lemma In_append (a b : string) (c : ascii) :
  In c (list_ascii_of_string (a ++ b)) <->
  In c (list_ascii_of_string a) \/ In c (list_ascii_of_string b).
Proof.
  induction a as [|x a IH]; cbn [append list_ascii_of_string In]; [tauto|].
  rewrite IH. tauto.
Qed.

Lemma encodeOctet_chars (x c : ascii) :
  In c (list_ascii_of_string (URI.encodeOctet x)) -> isSegmentChar c = true.
Proof.
  unfold URI.encodeOctet, isSegmentChar. destruct (URI.isUnreserved x) eqn:U.
  - intros [<-|[]]. rewrite U. reflexivity.
  - unfold URI.escape. cbn [list_ascii_of_string In].
    assert (B : nat_of_ascii x < 256) by apply nat_ascii_bounded.
    intros [<-|[<-|[<-|[]]]].
    + reflexivity.
    + rewrite hexDigit_unreserved; [reflexivity|].
      apply Nat.Div0.div_lt_upper_bound. lia.
    + rewrite hexDigit_unreserved; [reflexivity|]. apply Nat.mod_upper_bound. lia.
Qed.

Lemma encodeOctets_chars (s : string) (c : ascii) :
  In c (list_ascii_of_string (URI.encodeOctets s)) -> isSegmentChar c = true.
Proof.
  induction s as [|x s IH]; [intros []|]. cbn [URI.encodeOctets].
  rewrite In_append. intros [H|H]; [exact (encodeOctet_chars x c H)|exact (IH H)].
Qed.

Lemma encodeOctets_truthy (s : string) :
  s <> EmptyString -> JS.truthy (URI.encodeOctets s) = true.
Proof.
  destruct s as [|x s]; [congruence|]. intros _. cbn [URI.encodeOctets].
  unfold URI.encodeOctet. destruct (URI.isUnreserved x); reflexivity.
Qed.

Lemma append_inj (p a b : string) : p ++ a = p ++ b -> a = b.
Proof.
  induction p as [|x p IH]; [trivial|]. cbn [append]. intros [= H]. exact (IH H).
Qed.

End SegmentFacts.

(** X17: a rewritten URL is [proxyBase] followed by a segment made of
    unreserved characters and percent signs only: it holds no slash,
    question mark, number sign, ampersand, equals sign, colon or space, so
    that the whole target is one path segment of the route. *)
Theorem proxied_single_segment (rt : Runtime) (proxyBase baseUrl value rewritten : string) :
  proxied rt proxyBase baseUrl value = Some rewritten ->
  exists segment,
    rewritten = proxyBase ++ segment /\
    (forall c, In c (list_ascii_of_string segment) ->
               URI.isUnreserved c = true \/ c = "%"%char) /\
    (forall c, In c ["/"; "?"; "#"; "&"; "="; ":"; " "]%char ->
               ~ In c (list_ascii_of_string segment)).
Proof.
  unfold proxied, URI.encodeURIComponent.
  destruct (URL_parse rt value (Some baseUrl)) as [href|e]; [|discriminate].
  destruct (URI.wellFormed href); [|discriminate]. intros [= <-].
  exists (URI.encodeOctets href). split; [reflexivity|]. split.
  - intros c H. apply SegmentFacts.encodeOctets_chars in H. unfold isSegmentChar in H.
    apply orb_true_iff in H as [H|H]; [left; exact H|right; apply Ascii.eqb_eq; exact H].
  - intros c Hc H. apply SegmentFacts.encodeOctets_chars in H.
    cbn [In] in Hc. repeat (destruct Hc as [<-|Hc]; [discriminate H|]). exact Hc.
Qed.

Lemma proxied_single_segment_witness :
  exists segment,
    "https://proxy.example/p/https%3A%2F%2Fexample.com%2Fa%2Fb" =
      "https://proxy.example/p/" ++ segment /\
    (forall c, In c (list_ascii_of_string segment) ->
               URI.isUnreserved c = true \/ c = "%"%char) /\
    (forall c, In c ["/"; "?"; "#"; "&"; "="; ":"; " "]%char ->
               ~ In c (list_ascii_of_string segment)).
Proof.
  apply (proxied_single_segment Sample.runtime "https://proxy.example/p/"
           "https://example.com/" "/a/b").
  reflexivity.
Defined.


(** X18: following a rewritten link brings the handler back to the URL
    the link resolved to: when the rewritten value is the proxy prefix of
    the origin followed by the route parameter of a request, and the URL is
    a header value as every serialised URL is, the upstream request of that
    request goes to that URL and the Referer is that URL; the inbound
    headers are a header list, and the constructor takes the method with
    the body. *)
Theorem followed_link_fetches_target (rt : Runtime) (context : Context)
  (baseUrl value href targetParam : string) :
  URL_parse rt value (Some baseUrl) = Normal href ->
  proxied rt (origin_of (req_url (ctx_request context)) ++ "/p/") baseUrl value =
    Some ((origin_of (req_url (ctx_request context)) ++ "/p/") ++ targetParam) ->
  ctx_target context = Some targetParam ->
  href <> EmptyString ->
  JS.startsWith href (origin_of (req_url (ctx_request context))) = false ->
  String.eqb (req_method (ctx_request context)) "OPTIONS" = false ->
  URL_parse rt href None = Normal href ->
  Headers.isValue href = true ->
  wellFormed (req_headers (ctx_request context)) = true ->
  sendable (req_method (ctx_request context)) (req_body (ctx_request context)) = true ->
  exists outgoingHeaders,
    buildOutgoingHeaders (req_headers (ctx_request context)) href = Normal outgoingHeaders /\
    snd (run (onRequest rt context)) =
      [FetchUrl (origin_of (req_url (ctx_request context)) ++ "/VERSION");
       FetchRequest
         (mkProxyRequest href (normalizeMethod (req_method (ctx_request context)))
            (Headers.copy outgoingHeaders) (req_body (ctx_request context)) "follow")] /\
    Headers.get (Headers.copy outgoingHeaders) "Referer" = Some href.
Proof.
  intros Hu Hp Ht Hne Hs Hm Hi Hv W S.
  destruct (HeadersFacts.isValue_settable href Hv) as [T N].
  unfold proxied in Hp. rewrite Hu in Hp.
  destruct (URI.encodeURIComponent href) as [enc|] eqn:E; [|discriminate Hp].
  injection Hp as Hp. apply SegmentFacts.append_inj in Hp. subst enc.
  pose proof (URIFacts.decode_encode href targetParam E) as D.
  assert (P : JS.truthy targetParam = true).
  { unfold URI.encodeURIComponent in E. destruct (URI.wellFormed href); [|discriminate E].
    injection E as <-. apply SegmentFacts.encodeOctets_truthy. exact Hne. }
  rewrite (HandlerFacts.relay_outcome rt context _ _ Ht P D Hs). unfold relayOutcome.
  rewrite (OutgoingFacts.build_wellFormed _ href W), T, Hm.
  eexists. split; [reflexivity|].
  rewrite (HandlerFacts.newRequest_sendable rt _ _ _ _ href Hi S).
  split; [destruct (fetch rt _); reflexivity|].
  rewrite IterFacts.get_copy, OutgoingFacts.outgoing_referer, N. reflexivity.
Qed.

Lemma followed_link_fetches_target_witness :
  exists outgoingHeaders,
    buildOutgoingHeaders Sample.inbound "https://example.com/page" = Normal outgoingHeaders /\
    snd (run (onRequest Sample.runtime
                (Sample.get (Some "https%3A%2F%2Fexample.com%2Fpage")))) =
      [FetchUrl "https://proxy.example/VERSION";
       FetchRequest
         (mkProxyRequest "https://example.com/page" "GET" (Headers.copy outgoingHeaders)
            None "follow")] /\
    Headers.get (Headers.copy outgoingHeaders) "Referer" = Some "https://example.com/page".
Proof.
  apply (followed_link_fetches_target Sample.runtime
           (Sample.get (Some "https%3A%2F%2Fexample.com%2Fpage"))
           "https://example.com/" "/page" "https://example.com/page"
           "https%3A%2F%2Fexample.com%2Fpage"); try reflexivity.
  discriminate.
Defined.

(** ** More on the CORS headers *)

Module CorsFacts.
Import HeadersFacts.

Lemma corsList_entries (h : Headers.t) (v : string) :
  (exists k, entriesOf (corsList h v) "Access-Control-Allow-Origin" = [(k, "*")]) /\
  (exists k, entriesOf (corsList h v) "Access-Control-Allow-Methods" =
               [(k, "GET, POST, PUT, DELETE, OPTIONS")]) /\
  (exists k, entriesOf (corsList h v) "Access-Control-Allow-Headers" = [(k, "*")]).
Proof.
  unfold corsList. repeat split.
  - rewrite !(entries_update_other _ _ _ "Access-Control-Allow-Origin") by reflexivity.
    apply update_single. reflexivity.
  - rewrite !(entries_update_other _ _ _ "Access-Control-Allow-Methods") by reflexivity.
    apply update_single. reflexivity.
  - rewrite !(entries_update_other _ _ _ "Access-Control-Allow-Headers") by reflexivity.
    apply update_single. reflexivity.
Qed.

Lemma corsList_again (h : Headers.t) (v w : string) :
  corsList (corsList h v) w = corsList h w.
Proof.
  destruct (corsList_entries h v) as (A & B & C).
  unfold corsList at 1.
  rewrite (update_fixed _ _ _ A), (update_fixed _ _ _ B), (update_fixed _ _ _ C).
  unfold corsList. apply update_update.
Qed.

End CorsFacts.

(** X19: applying the CORS headers a second time, with any version,
    gives what one application with that version gives, when the first
    version is a value a header takes: the four names keep their places and
    stay single, and only the version tag follows the new value. *)
Theorem applyCors_again (headers : Headers.t) (v w : string) :
  settable v = true ->
  (headers <- applyCors headers v ;; applyCors headers w)%completion =
  applyCors headers w.
Proof.
  intros V. rewrite !ResponseFacts.applyCors_eq, V. cbn [andThen].
  rewrite ResponseFacts.applyCors_eq, CorsFacts.corsList_again. reflexivity.
Qed.

Lemma applyCors_again_witness :
  (headers <- applyCors [("ETag", "abc"); ("x-app-version", "0")] "1.4.2" ;;
   applyCors headers "1.4.3 ")%completion =
  applyCors [("ETag", "abc"); ("x-app-version", "0")] "1.4.3 ".
Proof.
  apply (applyCors_again [("ETag", "abc"); ("x-app-version", "0")] "1.4.2" "1.4.3 ").
  reflexivity.
Defined.



(** X23: a target that holds a NUL, a line feed or a carriage return
    between its ends is answered with the 502 of the catch whatever the
    method, OPTIONS included: the Referer cannot be set to it, and the run
    fetched the VERSION file only. *)
Theorem unsettable_target_502 (rt : Runtime) (context : Context)
  (targetParam targetUrl : string) :
  ctx_target context = Some targetParam ->
  JS.truthy targetParam = true ->
  URI.decodeURIComponent targetParam = Some targetUrl ->
  JS.startsWith targetUrl (origin_of (req_url (ctx_request context))) = false ->
  wellFormed (req_headers (ctx_request context)) = true ->
  unbroken (Headers.normalize targetUrl) = false ->
  exists error,
    exn_name error = "TypeError" /\
    run (onRequest rt context) =
      (Normal (mkResponse 502 EmptyString [("content-type", "text/plain;charset=UTF-8")]
                 (BodyText ("Proxy failed: " ++ exn_message error ++ JS.LF ++ JS.LF ++
                            "Target: " ++ targetUrl))),
       [FetchUrl (origin_of (req_url (ctx_request context)) ++ "/VERSION")]).
Proof.
  intros Hp Ht Hd Hs W B. rewrite <- HeadersFacts.settable_eq in B.
  rewrite (HandlerFacts.relay_outcome rt context _ _ Hp Ht Hd Hs). unfold relayOutcome.
  rewrite (OutgoingFacts.build_wellFormed _ targetUrl W), B.
  exists Headers.invalidValue. split; reflexivity.
Qed.

Lemma unsettable_target_502_witness :
  exists error,
    exn_name error = "TypeError" /\
    run (onRequest Sample.runtime (Sample.options (Some "https%3A%2F%2Fexample.com%2F%0Ax"))) =
      (Normal (mkResponse 502 EmptyString [("content-type", "text/plain;charset=UTF-8")]
                 (BodyText ("Proxy failed: " ++ exn_message error ++ JS.LF ++ JS.LF ++
                            "Target: " ++ ("https://example.com/" ++ JS.LF ++ "x")))),
       [FetchUrl (origin_of (req_url (ctx_request (Sample.options None))) ++ "/VERSION")]).
Proof.
  apply (unsettable_target_502 Sample.runtime
           (Sample.options (Some "https%3A%2F%2Fexample.com%2F%0Ax"))
           "https%3A%2F%2Fexample.com%2F%0Ax"); reflexivity.
Defined.

(** X24: on a deployment whose version tag is no value a header takes (the
    trimmed text of the VERSION file holds a line break), every request
    with a target outside the origin is answered with the 502 of the catch,
    without the CORS headers, whatever the method and whatever the upstream
    answers. *)
Theorem unsettable_version_502 (rt : Runtime) (context : Context)
  (targetParam targetUrl : string) :
  ctx_target context = Some targetParam ->
  JS.truthy targetParam = true ->
  URI.decodeURIComponent targetParam = Some targetUrl ->
  JS.startsWith targetUrl (origin_of (req_url (ctx_request context))) = false ->
  unbroken (appVersion rt (origin_of (req_url (ctx_request context)))) = false ->
  exists error tr,
    run (onRequest rt context) = (Normal (proxyFailed error targetUrl), tr) /\
    resp_status (proxyFailed error targetUrl) = 502 /\
    lacksCors (resp_headers (proxyFailed error targetUrl)).
Proof.
  intros Hp Ht Hd Hs B.
  rewrite <- (TextFacts.normalize_appVersion rt), <- HeadersFacts.settable_eq in B.
  rewrite (HandlerFacts.relay_outcome rt context _ _ Hp Ht Hd Hs). unfold relayOutcome.
  assert (F : forall (e : Exn) (tr : Trace), exists error tr',
               (Normal (proxyFailed e targetUrl), tr) = (Normal (proxyFailed error targetUrl), tr')
               /\ resp_status (proxyFailed error targetUrl) = 502
               /\ lacksCors (resp_headers (proxyFailed error targetUrl))).
  { intros e tr. exists e, tr. split; [reflexivity|]. split; [reflexivity|].
    apply ResponseFacts.textResponse_lacksCors. }
  destruct (buildOutgoingHeaders _ targetUrl) as [outgoing|e]; [|apply F].
  destruct (String.eqb _ "OPTIONS"); [rewrite B; apply F|].
  destruct (newRequest rt targetUrl _ outgoing _) as [r|e]; [|apply F].
  destruct (fetch rt (FetchRequest r)) as [a|e]; [|apply F].
  unfold reportable. rewrite B, andb_false_r. apply F.
Qed.

Lemma unsettable_version_502_witness :
  exists error tr,
    run (onRequest twoLineRuntime (Sample.get (Some "https%3A%2F%2Fexample.com%2F"))) =
      (Normal (proxyFailed error "https://example.com/"), tr) /\
    resp_status (proxyFailed error "https://example.com/") = 502 /\
    lacksCors (resp_headers (proxyFailed error "https://example.com/")).
Proof.
  apply (unsettable_version_502 twoLineRuntime
           (Sample.get (Some "https%3A%2F%2Fexample.com%2F"))
           "https%3A%2F%2Fexample.com%2F"); reflexivity.
Defined.
